(** * Loits: falling pieces, bullets and store reconciliation

    A shallow embedding of [game/Shape.js], of the [Bullet] class and of the
    reconciliation and arbitration methods of [game/NetworkManager.js].  The
    second half of the definitions adds the code around them: the
    collision tests, the frame loop and the view move of
    [game/GameManager.js], the scoreboard, the nicknames and [addBullet] of
    [game/NetworkManager.js], and the body of [game/Player.js].

    Numbers.  A JavaScript number is a double, hence a rational (or NaN or an
    infinity).  Numbers are modelled as [Q]; the arithmetic the game code
    performs itself ([+], [-], [*], [/], comparisons) is taken as exact.  NaN,
    where the code can meet it ([Number(undefined)]), is [None] of an
    [option Q];
    [Infinity] in [snapToGrid] is [None] as well.  The sums of the program
    round, those of [Q] do not: a property that would rest on a sum being
    exact is stated where the sums are exact (on whole columns and steps,
    on pieces that need no lift) or with a margin, and [Binary64] gives
    the two computations where the rounding shows, in the arithmetic of
    the processor.

    three.js.  [Vector3.applyAxisAngle] belongs to the three.js library and
    not to this repository: it is a parameter [applyAxisAngle] of the
    development, so every theorem holds for every implementation of it; the
    properties a theorem needs of it are hypotheses of that theorem. *)

From Stdlib Require Import QArith Qabs Qround Qminmax Qpower ZArith List String Bool Lia Lqa.
From Stdlib Require Import DecimalString Permutation Sorted.
From Stdlib Require Import Floats.PrimFloat.
Import ListNotations.
Open Scope Q_scope.

(** ** JavaScript built-ins *)

Module Math.

(** [Math.PI], the double 3.141592653589793. *)
Definition PI : Q := 884279719003555 # 281474976710656.

Definition abs (q : Q) : Q := Qabs q.

Definition sign (q : Q) : Q :=
  match Qnum q with
  | Z0 => 0
  | Zpos _ => 1
  | Zneg _ => -1
  end.

(** [Math.round]: the nearest integer, a tie going up. *)
Definition round (q : Q) : Q := inject_Z (Qfloor (q + (1 # 2))).

End Math.

(** [a < b] on numbers. *)
Definition Qlt_bool (a b : Q) : bool := negb (Qle_bool b a).

(** What a call of a method that answers [true], [false] or nothing can do. *)
Inductive outcome : Type :=
| ReturnsUndefined
| Returns (b : bool)
| ThrowsTypeError.

(** ** THREE.Vector3 *)

Module Vector3.

Record t : Type := mk { x : Q; y : Q; z : Q }.

Definition zero : t := mk 0 0 0.

Definition add (a b : t) : t := mk (x a + x b) (y a + y b) (z a + z b).

Definition sub (a b : t) : t := mk (x a - x b) (y a - y b) (z a - z b).

Definition divideScalar (a : t) (k : Q) : t := mk (x a / k) (y a / k) (z a / k).

Definition multiplyScalar (a : t) (k : Q) : t := mk (x a * k) (y a * k) (z a * k).

Definition set_x (a : t) (q : Q) : t := mk q (y a) (z a).
Definition set_y (a : t) (q : Q) : t := mk (x a) q (z a).

(** Component-wise equality of numbers. *)
Definition eqv (a b : t) : Prop := x a == x b /\ y a == y b /\ z a == z b.

(** The largest component in absolute value. *)
Definition norm (a : t) : Q := Qmax (Qabs (x a)) (Qmax (Qabs (y a)) (Qabs (z a))).

End Vector3.

(** The type of [v.applyAxisAngle(axis, angle)], as a function of [v], [axis]
    and [angle]. *)
Definition AxisAngle : Type := Vector3.t -> Vector3.t -> Q -> Vector3.t.

(** The exact quarter turn about the z axis, counter-clockwise seen from +z:
    what a rotation by +PI/2 about (0,0,1) is on the reals. *)
Definition quarterTurn (v : Vector3.t) : Vector3.t :=
  Vector3.mk (- Vector3.y v) (Vector3.x v) (Vector3.z v).

(** A rotation about the z axis that computes on rationals: the circle is
    parametrised by [u = 2 * angle / PI] as
    [(cos, sin) = ((1 - u^2) / (1 + u^2), 2 u / (1 + u^2))], which is the
    identity at angle 0, the exact quarter turn at [PI / 2] and [- PI / 2],
    and keeps lengths in between.  Every number is brought to lowest terms.
    It is only used to run the model on concrete inputs. *)
Definition chordAxisAngle : AxisAngle :=
  fun v _ angle =>
    let u := Qred (2 * angle / Math.PI) in
    let c := Qred ((1 - u * u) / (1 + u * u)) in
    let s := Qred ((2 * u) / (1 + u * u)) in
    Vector3.mk (Qred (Vector3.x v * c - Vector3.y v * s))
               (Qred (Vector3.x v * s + Vector3.y v * c))
               (Qred (Vector3.z v)).

(** ** A block of a piece: a THREE.Mesh with its [userData.initialOffset] *)

Module Block.

(** [initialOffset] is [None] for a mesh rebuilt from a store record
    ([NetworkManager.updateShapes]), whose [userData] is empty. *)
Record t : Type := mk { position : Vector3.t; initialOffset : option Vector3.t }.

End Block.

(** ** game/Shape.js *)

Module Shape.

Record t : Type := mk {
  type : string;
  color : Z;
  isStatic : bool;
  blocks : list Block.t;
  position : Vector3.t;
  isLocked : bool;
  isActive : bool;
  fallSpeed : Q;
  lastFallTime : Q;
  gridSize : Q;
  groundLevel : Q;
  rotationSpeed : Q;
  isRotating : bool;
  rotationAxis : Vector3.t;
  rotationAngle : Q;
  currentRotation : Q;
  targetRotation : Q;
  center : Vector3.t
}.

Definition set_blocks (s : t) (v : list Block.t) : t :=
  mk (type s) (color s) (isStatic s) v (position s) (isLocked s) (isActive s)
     (fallSpeed s) (lastFallTime s) (gridSize s) (groundLevel s) (rotationSpeed s)
     (isRotating s) (rotationAxis s) (rotationAngle s) (currentRotation s)
     (targetRotation s) (center s).

Definition set_position (s : t) (v : Vector3.t) : t :=
  mk (type s) (color s) (isStatic s) (blocks s) v (isLocked s) (isActive s)
     (fallSpeed s) (lastFallTime s) (gridSize s) (groundLevel s) (rotationSpeed s)
     (isRotating s) (rotationAxis s) (rotationAngle s) (currentRotation s)
     (targetRotation s) (center s).

Definition set_isLocked (s : t) (v : bool) : t :=
  mk (type s) (color s) (isStatic s) (blocks s) (position s) v (isActive s)
     (fallSpeed s) (lastFallTime s) (gridSize s) (groundLevel s) (rotationSpeed s)
     (isRotating s) (rotationAxis s) (rotationAngle s) (currentRotation s)
     (targetRotation s) (center s).

Definition set_isActive (s : t) (v : bool) : t :=
  mk (type s) (color s) (isStatic s) (blocks s) (position s) (isLocked s) v
     (fallSpeed s) (lastFallTime s) (gridSize s) (groundLevel s) (rotationSpeed s)
     (isRotating s) (rotationAxis s) (rotationAngle s) (currentRotation s)
     (targetRotation s) (center s).

Definition set_lastFallTime (s : t) (v : Q) : t :=
  mk (type s) (color s) (isStatic s) (blocks s) (position s) (isLocked s) (isActive s)
     (fallSpeed s) v (gridSize s) (groundLevel s) (rotationSpeed s)
     (isRotating s) (rotationAxis s) (rotationAngle s) (currentRotation s)
     (targetRotation s) (center s).

Definition set_rotationSpeed (s : t) (v : Q) : t :=
  mk (type s) (color s) (isStatic s) (blocks s) (position s) (isLocked s) (isActive s)
     (fallSpeed s) (lastFallTime s) (gridSize s) (groundLevel s) v
     (isRotating s) (rotationAxis s) (rotationAngle s) (currentRotation s)
     (targetRotation s) (center s).

Definition set_isRotating (s : t) (v : bool) : t :=
  mk (type s) (color s) (isStatic s) (blocks s) (position s) (isLocked s) (isActive s)
     (fallSpeed s) (lastFallTime s) (gridSize s) (groundLevel s) (rotationSpeed s)
     v (rotationAxis s) (rotationAngle s) (currentRotation s)
     (targetRotation s) (center s).

Definition set_currentRotation (s : t) (v : Q) : t :=
  mk (type s) (color s) (isStatic s) (blocks s) (position s) (isLocked s) (isActive s)
     (fallSpeed s) (lastFallTime s) (gridSize s) (groundLevel s) (rotationSpeed s)
     (isRotating s) (rotationAxis s) (rotationAngle s) v
     (targetRotation s) (center s).

Definition set_targetRotation (s : t) (v : Q) : t :=
  mk (type s) (color s) (isStatic s) (blocks s) (position s) (isLocked s) (isActive s)
     (fallSpeed s) (lastFallTime s) (gridSize s) (groundLevel s) (rotationSpeed s)
     (isRotating s) (rotationAxis s) (rotationAngle s) (currentRotation s)
     v (center s).

Definition set_center (s : t) (v : Vector3.t) : t :=
  mk (type s) (color s) (isStatic s) (blocks s) (position s) (isLocked s) (isActive s)
     (fallSpeed s) (lastFallTime s) (gridSize s) (groundLevel s) (rotationSpeed s)
     (isRotating s) (rotationAxis s) (rotationAngle s) (currentRotation s)
     (targetRotation s) v.

(** [getShapeDefinition]: the four cells of a type, one cell for an unknown
    type. *)
Definition getShapeDefinition (ty : string) : list (Q * Q) :=
  if String.eqb ty "I" then
    [(- (1 # 2), - (1 # 2)); (- (1 # 2), 1 # 2); (- (1 # 2), 3 # 2); (- (1 # 2), 5 # 2)]
  else if String.eqb ty "O" then
    [(- (1 # 2), - (1 # 2)); (1 # 2, - (1 # 2)); (- (1 # 2), 1 # 2); (1 # 2, 1 # 2)]
  else if String.eqb ty "T" then
    [(- (1 # 2), - (1 # 2)); (- (3 # 2), 1 # 2); (- (1 # 2), 1 # 2); (1 # 2, 1 # 2)]
  else if String.eqb ty "L" then
    [(- (1 # 2), - (1 # 2)); (1 # 2, - (1 # 2)); (- (1 # 2), 1 # 2); (- (1 # 2), 3 # 2)]
  else if String.eqb ty "S" then
    [(- (1 # 2), - (1 # 2)); (1 # 2, - (1 # 2)); (1 # 2, 1 # 2); (3 # 2, 1 # 2)]
  else [(0, 0)].

(** The mean of the block positions, as [generateShape] and
    [updateBlockPositions] compute it. *)
Definition centerOf (bs : list Block.t) : Vector3.t :=
  Vector3.divideScalar
    (fold_left (fun c b => Vector3.add c (Block.position b)) bs Vector3.zero)
    (inject_Z (Z.of_nat (List.length bs))).

(** [generateShape], for the blocks of a shape at [pos]. *)
Definition generateBlocks (ty : string) (pos : Vector3.t) : list Block.t :=
  map (fun o => let off := Vector3.mk (fst o) (snd o) 0 in
                Block.mk (Vector3.add pos off) (Some off))
      (getShapeDefinition ty).

(** [new Shape(type, color, isStatic)]. *)
Definition new (ty : string) (col : Z) (static : bool) : t :=
  let bs := generateBlocks ty Vector3.zero in
  mk ty col static bs Vector3.zero false (negb static) 1 0 10 0 (1 # 10) false
     (Vector3.mk 0 0 1) (Math.PI / 2) 0 0
     (match bs with [] => Vector3.zero | _ => centerOf bs end).

Definition setActive (s : t) (active : bool) : t := set_isActive s active.

Definition setLocked (s : t) (locked : bool) : t :=
  let s1 := set_isLocked s locked in
  if locked then setActive s1 false else s1.

Definition activate (s : t) : t := set_isActive s true.

(** [dispose]: the meshes leave the scene and the list is cleared. *)
Definition dispose (s : t) : t := set_blocks s [].

Section WithThree.

Variable applyAxisAngle : AxisAngle.

(** The offset of a block from the base position, turned by the current
    angle while a rotation runs. *)
Definition relativePos (s : t) (off : Vector3.t) : Vector3.t :=
  if isRotating s then applyAxisAngle off (rotationAxis s) (currentRotation s)
  else off.

Definition placeBlock (s : t) (b : Block.t) : Block.t :=
  match Block.initialOffset b with
  | None => b
  | Some off => Block.mk (Vector3.add (position s) (relativePos s off)) (Some off)
  end.

Definition updateBlockPositions (s : t) : t :=
  match blocks s with
  | [] => s
  | _ :: _ =>
      let bs := map (placeBlock s) (blocks s) in
      set_center (set_blocks s bs) (centerOf bs)
  end.

(** The positions the blocks would take after the quarter turn
    [startRotation] has just set as target; [None] when a block has no
    stored offset (the call of [clone] on [undefined] throws). *)
Fixpoint newPositions (s : t) (bs : list Block.t) : option (list Vector3.t) :=
  match bs with
  | [] => Some []
  | b :: rest =>
      match Block.initialOffset b with
      | None => None
      | Some off =>
          match newPositions s rest with
          | None => None
          | Some ps =>
              Some (Vector3.add (position s)
                      (applyAxisAngle off (rotationAxis s) (targetRotation s)) :: ps)
          end
      end
  end.

Definition startRotation (clockwise : bool) (s : t) : outcome * t :=
  if isRotating s then (ReturnsUndefined, s)
  else
    let s1 := set_isRotating s true in
    let s2 := set_currentRotation s1 0 in
    let s3 := set_rotationSpeed s2
                (if clockwise then Math.PI / 40 else - Math.PI / 40) in
    let s4 := set_targetRotation s3
                (if clockwise then Math.PI / 2 else - Math.PI / 2) in
    match newPositions s4 (blocks s4) with
    | None => (ThrowsTypeError, s4)
    | Some ps =>
        let gridSize := 10 in
        let halfGrid := gridSize / 2 in
        let wouldBeValid :=
          forallb (fun newPos => Qle_bool (Math.abs (Vector3.x newPos)) halfGrid) ps in
        if negb wouldBeValid then
          (Returns false, set_currentRotation (set_isRotating s4 false) 0)
        else (Returns true, updateBlockPositions s4)
    end.

Definition handleShot (s : t) : bool * t :=
  if isLocked s || negb (isActive s) then (false, s)
  else (true, snd (startRotation true s)).

(** [moveSideways]: the sum [position.x + direction] is exact here; it is
    in the program when the column and the step are whole numbers. *)
Definition moveSideways (direction : Q) (s : t) : bool * t :=
  let newX := Vector3.x (position s) + direction in
  if Qle_bool (Math.abs newX) (gridSize s / 2) then
    (true, updateBlockPositions (set_position s (Vector3.set_x (position s) newX)))
  else (false, s).

(** The lowest block height; [None] is the [Infinity] the search starts
    from. *)
Definition lowestY (bs : list Block.t) : option Q :=
  fold_left
    (fun lo b =>
       let blockY := Vector3.y (Block.position b) in
       match lo with
       | None => Some blockY
       | Some l => if Qlt_bool blockY l then Some blockY else Some l
       end)
    bs None.

(** [snapToGrid]: the difference and the sum of the lift are exact here;
    [Binary64.snappedBase] is the lift as the processor computes it. *)
Definition snapToGrid (s : t) : t :=
  let s1 := set_position s
              (Vector3.set_x (position s) (Math.round (Vector3.x (position s)))) in
  let s2 :=
    match lowestY (blocks s1) with
    | None => s1
    | Some lo =>
        if Qle_bool lo (groundLevel s1) then
          let adjustment := groundLevel s1 - lo in
          set_position s1
            (Vector3.set_y (position s1) (Vector3.y (position s1) + adjustment))
        else s1
    end in
  updateBlockPositions s2.

(** The first half of [update]: one step of a running rotation; at the
    target the quarter turn is written into the stored offsets. *)
Definition bakeOffset (s : t) (finalRotation : Q) (b : Block.t) : Block.t :=
  match Block.initialOffset b with
  | None => b
  | Some off =>
      Block.mk (Block.position b)
               (Some (applyAxisAngle off (rotationAxis s) finalRotation))
  end.

Definition rotationStep (s : t) : t :=
  if isRotating s then
    let s1 := set_currentRotation s (currentRotation s + rotationSpeed s) in
    let s2 :=
      if Qle_bool (Math.abs (targetRotation s1)) (Math.abs (currentRotation s1)) then
        let finalRotation := (Math.sign (targetRotation s1) * Math.PI) / 2 in
        let s3 := set_blocks s1 (map (bakeOffset s1 finalRotation) (blocks s1)) in
        let s4 := set_isRotating s3 false in
        let s5 := set_currentRotation s4 0 in
        snapToGrid s5
      else s1 in
    updateBlockPositions s2
  else s.

(** The second half of [update]: gravity, once a second. *)
Definition wouldCollide (s : t) (nextY : Q) : bool :=
  existsb
    (fun b =>
       match Block.initialOffset b with
       | None => false
       | Some off => Qle_bool (nextY + Vector3.y (relativePos s off)) (groundLevel s)
       end)
    (blocks s).

Definition gravityStep (currentTime : Q) (s : t) : t :=
  if Qle_bool 1000 (currentTime - lastFallTime s) then
    let nextY := Vector3.y (position s) - fallSpeed s in
    let s1 :=
      if wouldCollide s nextY then
        set_isActive (set_isLocked (snapToGrid s) true) false
      else
        set_lastFallTime (set_position s (Vector3.set_y (position s) nextY)) currentTime in
    updateBlockPositions s1
  else s.

Definition update (currentTime : Q) (s : t) : t :=
  if isLocked s then s
  else gravityStep currentTime (rotationStep s).

End WithThree.

End Shape.

(** ** The Bullet class (second half of game/NetworkManager.js) *)

Module Bullet.

(** [mesh] holds [mesh.position]; [None] is a bullet without a mesh, which
    [NetworkManager.updateBullets] tests for. *)
Record t : Type := mk {
  position : Vector3.t;
  velocity : Vector3.t;
  gravity : Q;
  bounceDamping : Q;
  airResistance : Q;
  groundLevel : Q;
  isDead : bool;
  lifetime : Q;
  maxLifetime : Q;
  mesh : option Vector3.t
}.

(** [new Bullet(position, direction)]. *)
Definition new (pos direction : Vector3.t) : t :=
  mk pos (Vector3.multiplyScalar direction (12 # 10)) (3 # 1000) (7 # 10)
     (998 # 1000) 0 false 0 8000 (Some pos).

(** [update]: the products and sums are exact here; in the program each of
    them rounds. *)
Definition update (b : t) : t :=
  let vy1 := Vector3.y (velocity b) - gravity b in
  let v := Vector3.mk (Vector3.x (velocity b) * airResistance b)
                      (vy1 * airResistance b)
                      (Vector3.z (velocity b) * airResistance b) in
  let p := Vector3.add (position b) v in
  let m := option_map (fun _ => p) (mesh b) in
  let hitsGround := Qle_bool (Vector3.y p) (groundLevel b) in
  let p1 := if hitsGround then Vector3.set_y p (groundLevel b) else p in
  let v1 := if hitsGround then Vector3.set_y v (- Vector3.y v * bounceDamping b) else v in
  let m1 := if hitsGround then option_map (fun q => Vector3.set_y q (groundLevel b)) m
            else m in
  let life := lifetime b + 16 in
  let dead :=
    (Qlt_bool (Math.abs (Vector3.y v1)) (1 # 100) && Qle_bool (Vector3.y p1) (groundLevel b))
    || Qlt_bool (maxLifetime b) life in
  mk p1 v1 (gravity b) (bounceDamping b) (airResistance b) (groundLevel b)
     (if dead then true else isDead b) life (maxLifetime b) m1.

End Bullet.

(** ** A JavaScript [Map]: an association list in insertion order *)

Module JsMap.

Section Keyed.

Context {K V : Type}.
Variable eqb : K -> K -> bool.

Fixpoint get (k : K) (m : list (K * V)) : option V :=
  match m with
  | [] => None
  | (k', v) :: rest => if eqb k k' then Some v else get k rest
  end.

Definition has (k : K) (m : list (K * V)) : bool :=
  match get k m with Some _ => true | None => false end.

(** [set] keeps the place of a key that is present and appends a new one. *)
Fixpoint set (k : K) (v : V) (m : list (K * V)) : list (K * V) :=
  match m with
  | [] => [(k, v)]
  | (k', v') :: rest => if eqb k k' then (k', v) :: rest else (k', v') :: set k v rest
  end.

Fixpoint delete (k : K) (m : list (K * V)) : list (K * V) :=
  match m with
  | [] => []
  | (k', v') :: rest => if eqb k k' then delete k rest else (k', v') :: delete k rest
  end.

Definition keys (m : list (K * V)) : list K := map fst m.

End Keyed.

End JsMap.

(** ** Records of the store *)

(** [Number(data.position.x)] and its like: [None] is NaN. *)
Module PositionData.
Record t : Type := mk { x : option Q; y : option Q; z : option Q }.
End PositionData.

(** A record of [shapes/{id}], as read from a snapshot or written with [set].
    The flags are the values [Boolean(...)] gives; an absent field is
    [None]. *)
Module ShapeData.
Record t : Type := mk {
  type : option string;
  color : option Z;
  position : option PositionData.t;
  isLocked : bool;
  isActive : bool;
  isRotating : bool;
  currentRotation : option Q;
  blocks : option (list Vector3.t);
  lastUpdate : option Q;
  createdBy : option string
}.
End ShapeData.

Module Colors.
Record t : Type := mk { headHue : Q; bodyHue : Q; headLightness : Q }.
End Colors.

Module PlayerData.
Record t : Type := mk {
  nickname : option string;
  online : bool;
  lastSeen : option Q;
  colors : option Colors.t
}.
End PlayerData.

Module ScoreData.
Record t : Type := mk { nickname : option string; score : option Q; lastUpdate : Q }.
End ScoreData.

(** [gameState.currentShapeId]: [null], absent, or a string (a shape id or
    the sentinel ["spawning"]). *)
Inductive shapeIdValue : Type :=
| IdNull
| IdUndefined
| IdString (s : string).

Module GameState.
Record t : Type := mk { currentShapeId : shapeIdValue; lastSpawnTime : option Q }.
End GameState.

(** The patch [updateShapeState] receives and the one it writes. *)
Module ShapeState.
Record t : Type := mk {
  position : option PositionData.t;
  isLocked : option bool;
  isActive : option bool;
  isRotating : option bool;
  currentRotation : option Q
}.
End ShapeState.

(** ** What a method does to the world outside the manager *)

(** The key of a bullet, [<owner>_<timestamp>], kept as its two parts: they
    are what [id.split("_")] and [parseInt] recover from the key of an owner
    whose id has no underscore, as are the ids [initialize] generates. *)
Definition BulletKey : Type := (string * Z)%type.

Definition BulletKey_eqb (a b : BulletKey) : bool :=
  String.eqb (fst a) (fst b) && Z.eqb (snd a) (snd b).

Inductive entity : Type :=
| AShape (id : string)               (* a Shape with its meshes *)
| AMesh (shapeId : string)           (* one THREE.Mesh of a shape *)
| APlayer (id : string)
| ABullet (key : BulletKey)
| ALabel (playerId : string).        (* the canvas and CanvasTexture of a nickname *)

Inductive storeWrite : Type :=
| SetShape (id : string) (v : option ShapeData.t)
| UpdateShapeState (id : string) (patch : ShapeState.t) (lastUpdate : Q)
| UpdateShapeBlocks (id : string) (blocks : list Vector3.t) (lastUpdate : Q)
| UpdateGameState (isActive : option bool) (currentShapeId : shapeIdValue) (lastSpawnTime : Q)
| SetLastRowCompletion (y : Q) (timestamp : Q)
| SetScore (id : string) (v : option ScoreData.t)
| SetPlayer (id : string) (v : option PlayerData.t).

Inductive effect : Type :=
| New (e : entity)
| Dispose (e : entity)
| Write (w : storeWrite).




(** ** game/Player.js, as far as reconciliation goes *)

Module Player.

(** The nickname and the colours of the figure; [None] stands for the
    colours the Figure constructor draws at random. *)
Record t : Type := mk { nickname : string; figureColors : option Colors.t }.

End Player.

(** ** game/NetworkManager.js *)

Module NetworkManager.

(** The caches and the fields the modelled methods read.  [scene] tells
    whether the scene handle is set.  [Date.now()] is an argument [now] of
    every method that reads the clock. *)
Record t : Type := mk {
  scene : bool;
  players : list (string * Player.t);
  shapes : list (string * Shape.t);
  bullets : list (BulletKey * Bullet.t);
  playerId : option string;
  nickname : option string;
  gameState : option GameState.t;
  lastShapeUpdate : Q;
  shapeUpdateInterval : Q
}.

Definition set_players (n : t) (v : list (string * Player.t)) : t :=
  mk (scene n) v (shapes n) (bullets n) (playerId n) (nickname n) (gameState n)
     (lastShapeUpdate n) (shapeUpdateInterval n).

Definition set_shapes (n : t) (v : list (string * Shape.t)) : t :=
  mk (scene n) (players n) v (bullets n) (playerId n) (nickname n) (gameState n)
     (lastShapeUpdate n) (shapeUpdateInterval n).

Definition set_bullets (n : t) (v : list (BulletKey * Bullet.t)) : t :=
  mk (scene n) (players n) (shapes n) v (playerId n) (nickname n) (gameState n)
     (lastShapeUpdate n) (shapeUpdateInterval n).

Definition set_lastShapeUpdate (n : t) (v : Q) : t :=
  mk (scene n) (players n) (shapes n) (bullets n) (playerId n) (nickname n)
     (gameState n) v (shapeUpdateInterval n).

(** Truthiness of a string, of a number, and [Number(v) || d]. *)
Definition truthyString (o : option string) : bool :=
  match o with
  | Some s => negb (String.eqb s "")
  | None => false
  end.

Definition truthyNumber (o : option Z) : bool :=
  match o with
  | Some n => negb (Z.eqb n 0)
  | None => false
  end.

Definition numberOr (o : option Q) (d : Q) : Q :=
  match o with
  | Some q => if Qeq_bool q 0 then d else q
  | None => d
  end.

Definition isLocalId (n : t) (id : string) : bool :=
  match playerId n with
  | Some p => String.eqb id p
  | None => false
  end.

(** *** updatePlayers *)

(** First loop: a cached player that left the listing, or is listed
    offline, is disposed and dropped; one offline for more than 5 s is also
    deleted from the store, with its score. *)
Definition dropPlayer (snapshot : list (string * PlayerData.t)) (now : Q)
    (acc : list (string * Player.t) * list effect) (entry : string * Player.t)
    : list (string * Player.t) * list effect :=
  let '(cache, es) := acc in
  let id := fst entry in
  match JsMap.get String.eqb id snapshot with
  | None => (JsMap.delete String.eqb id cache, es ++ [Dispose (APlayer id)])
  | Some data =>
      if negb (PlayerData.online data) then
        let stale :=
          match PlayerData.lastSeen data with
          | Some seen => Qlt_bool 5000 (now - seen)
          | None => false
          end in
        (JsMap.delete String.eqb id cache,
         es ++ [Dispose (APlayer id)]
            ++ (if stale then [Write (SetPlayer id None); Write (SetScore id None)]
                else []))
      else acc
  end.

(** Second loop: every listed player but the local one is created when it
    is not cached, then takes the nickname and colours of its record.  A
    player built without a camera has a figure with a nickname mesh, so
    [figure.updateNickname] draws a new canvas and a new texture for it
    whenever the record has a nickname. *)
Definition addOrUpdatePlayer (n : t)
    (acc : list (string * Player.t) * list effect) (entry : string * PlayerData.t)
    : list (string * Player.t) * list effect :=
  let '(cache, es) := acc in
  let '(id, data) := entry in
  if isLocalId n id then acc
  else
    let '(player, es1) :=
      match JsMap.get String.eqb id cache with
      | Some p => (p, es)
      | None =>
          (Player.mk (if truthyString (PlayerData.nickname data)
                      then match PlayerData.nickname data with Some s => s | None => "Unknown" end
                      else "Unknown")
                     (PlayerData.colors data),
           es ++ [New (APlayer id)])
      end in
    let player1 :=
      if truthyString (PlayerData.nickname data) then
        Player.mk (match PlayerData.nickname data with Some s => s | None => "Unknown" end)
                  (Player.figureColors player)
      else player in
    let es2 :=
      if truthyString (PlayerData.nickname data) then es1 ++ [New (ALabel id)] else es1 in
    let player2 :=
      match PlayerData.colors data with
      | Some c => Player.mk (Player.nickname player1) (Some c)
      | None => player1
      end in
    (JsMap.set String.eqb id player2 cache, es2).

Definition updatePlayers (snapshot : list (string * PlayerData.t)) (now : Q) (n : t)
    : t * list effect :=
  let '(cache1, es1) := fold_left (dropPlayer snapshot now) (players n) (players n, []) in
  let '(cache2, es2) := fold_left (addOrUpdatePlayer n) snapshot (cache1, es1) in
  (set_players n cache2, es2).

Section WithThree.

Variable applyAxisAngle : AxisAngle.

(** *** updateShapes *)

Definition dropShape (ids : list string)
    (acc : list (string * Shape.t) * list effect) (entry : string * Shape.t)
    : list (string * Shape.t) * list effect :=
  let '(cache, es) := acc in
  let id := fst entry in
  if existsb (String.eqb id) ids then acc
  else (JsMap.delete String.eqb id cache, es ++ [Dispose (AShape id)]).

(** A record a shape can be built from: type, colour and position are
    truthy. *)
Definition creatable (data : ShapeData.t) : bool :=
  truthyString (ShapeData.type data) && truthyNumber (ShapeData.color data)
  && match ShapeData.position data with Some _ => true | None => false end.

(** [pos] of a new shape: [Number(v) || 0] on each axis. *)
Definition initialPosition (p : PositionData.t) : Vector3.t :=
  Vector3.mk (numberOr (PositionData.x p) 0) (numberOr (PositionData.y p) 0)
             (numberOr (PositionData.z p) 0).

(** "Update existing shape", applied to the cached object [shape]. *)
Definition applyRecord (now : Q) (id : string) (data : ShapeData.t) (shape : Shape.t)
    : Shape.t * list effect :=
  let shape1 :=
    match ShapeData.position data with
    | Some p =>
        if negb (Shape.isLocked shape) then
          match PositionData.y p with
          | Some newY =>
              if Qle_bool newY (Vector3.y (Shape.position shape)) then
                Shape.set_position shape
                  (Vector3.mk
                     (numberOr (PositionData.x p) (Vector3.x (Shape.position shape)))
                     newY
                     (numberOr (PositionData.z p) (Vector3.z (Shape.position shape))))
              else shape
          | None => shape
          end
        else shape
    | None => shape
    end in
  let wasActive := Shape.isActive shape1 in
  let shape2 :=
    Shape.set_isRotating
      (Shape.set_isActive (Shape.set_isLocked shape1 (ShapeData.isLocked data))
         (ShapeData.isActive data))
      (ShapeData.isRotating data) in
  let es1 :=
    if wasActive && Shape.isLocked shape2
    then [Write (UpdateGameState None IdNull now)] else [] in
  let shape3 :=
    match ShapeData.currentRotation data with
    | Some r => Shape.set_currentRotation shape2 r
    | None => shape2
    end in
  let '(shape4, es2) :=
    match ShapeData.blocks data with
    | Some bs =>
        (Shape.set_blocks shape3 (map (fun p => Block.mk p None) bs),
         map (fun _ => New (AMesh id)) bs)
    | None => (shape3, [])
    end in
  let shape5 :=
    if Shape.isActive shape4 then Shape.updateBlockPositions applyAxisAngle shape4
    else shape4 in
  (shape5, es1 ++ es2).

(** The body of the second loop for one record of the snapshot. *)
Definition addOrUpdateShape (now : Q)
    (acc : list (string * Shape.t) * list effect) (entry : string * ShapeData.t)
    : list (string * Shape.t) * list effect :=
  let '(cache, es) := acc in
  let '(id, data) := entry in
  match JsMap.get String.eqb id cache with
  | Some shape =>
      let '(shape', es') := applyRecord now id data shape in
      (JsMap.set String.eqb id shape' cache, es ++ es')
  | None =>
      if creatable data then
        match ShapeData.type data, ShapeData.color data, ShapeData.position data with
        | Some ty, Some col, Some p =>
            let shape := Shape.new ty col false in
            let pos := initialPosition p in
            if Qlt_bool 20 (Vector3.y pos) then (cache, es ++ [New (AShape id)])
            else
              let shape1 := Shape.set_position shape pos in
              let shape2 := Shape.set_isLocked shape1 (ShapeData.isLocked data) in
              let shape3 := Shape.set_isActive shape2 (ShapeData.isActive data) in
              let shape4 := Shape.updateBlockPositions applyAxisAngle shape3 in
              let '(shape', es') := applyRecord now id data shape4 in
              (JsMap.set String.eqb id shape' cache, es ++ [New (AShape id)] ++ es')
        | _, _, _ => acc
        end
      else acc
  end.

Definition updateShapes (snapshot : list (string * ShapeData.t)) (now : Q) (n : t)
    : t * list effect :=
  if negb (scene n) then (n, [])
  else
    let currentShapeIds := JsMap.keys snapshot in
    let '(cache1, es1) :=
      fold_left (dropShape currentShapeIds) (shapes n) (shapes n, []) in
    let '(cache2, es2) := fold_left (addOrUpdateShape now) snapshot (cache1, es1) in
    (set_shapes n cache2, es2).

(** *** updateShapeState *)

(** [state] is [None] for a falsy argument.  A field of the patch that is
    not of the expected type is dropped ([None]); the number fields have
    gone through [validateNumber], [None] being [null]. *)
Definition updateShapeState (shapeId : string) (state : option ShapeState.t)
    (now : Q) (n : t) : t * list effect :=
  match state with
  | None => (n, [])
  | Some st =>
      if String.eqb shapeId "" then (n, [])
      else
        match JsMap.get String.eqb shapeId (shapes n) with
        | None => (n, [])
        | Some shape =>
            let locking :=
              match ShapeState.isLocked st with Some true => true | _ => false end in
            if negb (Shape.isActive shape) && negb locking then (n, [])
            else if Qlt_bool (now - lastShapeUpdate n) (shapeUpdateInterval n) then (n, [])
            else (set_lastShapeUpdate n now, [Write (UpdateShapeState shapeId st now)])
        end
  end.

(** *** updateBullets *)

(** The position of the first block within 0.5 of the bullet on the three
    axes, or [None] for [null]. *)
Definition checkBulletCollision (bulletPos : Vector3.t) (shape : Shape.t)
    : option Vector3.t :=
  option_map Block.position
    (find
       (fun block =>
          let blockPos := Block.position block in
          Qlt_bool (Math.abs (Vector3.x bulletPos - Vector3.x blockPos)) (1 # 2)
          && Qlt_bool (Math.abs (Vector3.y bulletPos - Vector3.y blockPos)) (1 # 2)
          && Qlt_bool (Math.abs (Vector3.z bulletPos - Vector3.z blockPos)) (1 # 2))
       (Shape.blocks shape)).

(** The inner loop over the shapes: the first active unlocked shape the
    bullet touches is told to rotate. *)
Fixpoint strike (bulletPos : Vector3.t) (entries : list (string * Shape.t))
    : option (string * (outcome * Shape.t)) :=
  match entries with
  | [] => None
  | (id, shape) :: rest =>
      if negb (Shape.isLocked shape) && Shape.isActive shape then
        match checkBulletCollision bulletPos shape with
        | Some _ => Some (id, Shape.startRotation applyAxisAngle true shape)
        | None => strike bulletPos rest
        end
      else strike bulletPos rest
  end.

(** The body of the loop for one bullet.  The third component tells that
    [startRotation] threw, which ends [updateBullets] there. *)
Definition stepBullet (now : Q) (acc : t * list effect * bool)
    (entry : BulletKey * Bullet.t) : t * list effect * bool :=
  let '(n, es, threw) := acc in
  if threw then acc
  else
    let '(id, bullet) := entry in
    match Bullet.mesh bullet with
    | None => (set_bullets n (JsMap.delete BulletKey_eqb id (bullets n)), es, false)
    | Some _ =>
        let bullet1 := Bullet.update bullet in
        let n1 := set_bullets n (JsMap.set BulletKey_eqb id bullet1 (bullets n)) in
        let '(n2, es2, threw2) :=
          match Bullet.mesh bullet1 with
          | None => (n1, es, false)
          | Some bulletPos =>
              match strike bulletPos (shapes n1) with
              | None => (n1, es, false)
              | Some (sid, (ThrowsTypeError, shape')) =>
                  (set_shapes n1 (JsMap.set String.eqb sid shape' (shapes n1)), es, true)
              | Some (sid, (_, shape')) =>
                  (set_bullets
                     (set_shapes n1 (JsMap.set String.eqb sid shape' (shapes n1)))
                     (JsMap.delete BulletKey_eqb id (bullets n1)),
                   es ++ [Dispose (ABullet id)], false)
              end
          end in
        if threw2 then (n2, es2, true)
        else if Qlt_bool 5000 (now - inject_Z (snd id)) then
          (set_bullets n2 (JsMap.delete BulletKey_eqb id (bullets n2)),
           es2 ++ [Dispose (ABullet id)], false)
        else (n2, es2, false)
    end.

Definition updateBullets (now : Q) (n : t) : t * list effect * bool :=
  fold_left (stepBullet now) (bullets n) (n, [], false).

(** *** handleGameStateUpdate *)

Definition isFloating (shape : Shape.t) : bool :=
  (negb (Shape.isActive shape) && Qlt_bool 0 (Vector3.y (Shape.position shape)))
  || Qlt_bool 20 (Vector3.y (Shape.position shape)).

Definition cleanupFloatingShapes (n : t) : t * list effect :=
  let shapesToRemove := map fst (filter (fun e => isFloating (snd e)) (shapes n)) in
  fold_left
    (fun (acc : t * list effect) id =>
       let '(m, es) := acc in
       match JsMap.get String.eqb id (shapes m) with
       | Some _ =>
           (set_shapes m (JsMap.delete String.eqb id (shapes m)),
            es ++ [Dispose (AShape id); Write (SetShape id None)])
       | None => acc
       end)
    shapesToRemove (n, []).

(** The results of the calls of [Math.random] of one spawn, the id drawn
    for the shape, and the clock when the shape is written. *)
Record draw : Type := mkDraw {
  typeRoll : Q;
  colorRoll : Q;
  xRoll : Q;
  newShapeId : string;
  writeTime : Q
}.

Definition pick {A : Type} (l : list A) (roll : Q) : option A :=
  let i := Qfloor (roll * inject_Z (Z.of_nat (List.length l))) in
  if (i <? 0)%Z then None else nth_error l (Z.to_nat i).

Definition addShape (ty : option string) (col : option Z) (pos : Vector3.t)
    (d : draw) (n : t) : list effect :=
  [ Write (SetShape (newShapeId d)
             (Some (ShapeData.mk ty col
                      (Some (PositionData.mk (Some (Vector3.x pos)) (Some (Vector3.y pos))
                               (Some (Vector3.z pos))))
                      false true false None None (Some (writeTime d)) (playerId n))));
    Write (UpdateGameState (Some true) (IdString (newShapeId d)) (writeTime d)) ].

Definition spawnNewShape (d : draw) (n : t) : list effect :=
  let types := ["I"; "O"; "T"; "L"; "S"]%string in
  let colors := [16711680; 65280; 255; 16776960; 16711935]%Z in
  let gridSize := 10 in
  let x := inject_Z (Qfloor (xRoll d * gridSize)) - gridSize / 2 in
  addShape (pick types (typeRoll d)) (pick colors (colorRoll d)) (Vector3.mk x 15 0) d n.

(** The write of the sentinel comes first; [spawnNewShape] runs when that
    write has resolved. *)
Definition handleGameStateUpdate (now : Q) (d : draw) (n : t) : t * list effect :=
  match gameState n with
  | None => (n, [])
  | Some gs =>
      let '(n1, es1) := cleanupFloatingShapes n in
      let currentTime := now in
      let hasActiveFallingShape :=
        existsb (fun e => Shape.isActive (snd e) && negb (Shape.isLocked (snd e)))
                (shapes n1) in
      let hasCurrentShape :=
        match GameState.currentShapeId gs with IdNull => false | _ => true end in
      let cooledDown :=
        match GameState.lastSpawnTime gs with
        | Some t => Qlt_bool 1000 (currentTime - t)
        | None => false
        end in
      if negb hasActiveFallingShape && negb hasCurrentShape && cooledDown then
        let isFirstPlayer :=
          match JsMap.keys (players n1) with
          | [] => true
          | first :: _ => isLocalId n1 first
          end in
        if isFirstPlayer then
          (n1, es1 ++ [Write (UpdateGameState None (IdString "spawning") currentTime)]
                   ++ spawnNewShape d n1)
        else (n1, es1)
      else (n1, es1)
  end.

(** *** handleRowCompletion *)

(** [addPoints]: [stored] is the record [get(scoreRef)] resolves to.  The
    write is issued when that read has resolved. *)
Definition addPoints (points : Q) (stored : option ScoreData.t) (now : Q) (n : t)
    : list effect :=
  match playerId n with
  | None => []
  | Some pid =>
      if String.eqb pid "" then []
      else
        let currentScore :=
          match stored with
          | Some rec => numberOr (ScoreData.score rec) 0
          | None => 0
          end in
        [Write (SetScore pid
                  (Some (ScoreData.mk (nickname n) (Some (currentScore + points)) now)))]
  end.

Definition atRow (y : Q) (block : Block.t) : bool :=
  Qeq_bool (Math.round (Vector3.y (Block.position block))) y.

(** The indices [forEach] pushes, counted from [i]. *)
Fixpoint blocksToRemove (y : Q) (i : nat) (bs : list Block.t) : list nat :=
  match bs with
  | [] => []
  | block :: rest =>
      if atRow y block then i :: blocksToRemove y (S i) rest
      else blocksToRemove y (S i) rest
  end.

(** [sort((a, b) => b - a)]: descending order. *)
Fixpoint insertDescending (a : nat) (l : list nat) : list nat :=
  match l with
  | [] => [a]
  | b :: rest => if (b <=? a)%nat then a :: l else b :: insertDescending a rest
  end.

Definition sortDescending (l : list nat) : list nat :=
  fold_right insertDescending [] l.

(** [splice(index, 1)]. *)
Fixpoint splice {A : Type} (index : nat) (l : list A) : list A :=
  match l, index with
  | [], _ => []
  | _ :: rest, O => rest
  | a :: rest, S i => a :: splice i rest
  end.

Definition clearRow (y : Q) (acc : list (string * Shape.t) * list string)
    (entry : string * Shape.t) : list (string * Shape.t) * list string :=
  let '(cache, shapesToUpdate) := acc in
  let '(id, shape) := entry in
  if Shape.isLocked shape then
    match blocksToRemove y 0 (Shape.blocks shape) with
    | [] => acc
    | (_ :: _) as indices =>
        let bs := fold_left (fun l index => splice index l) (sortDescending indices)
                            (Shape.blocks shape) in
        let shape' := Shape.updateBlockPositions applyAxisAngle (Shape.set_blocks shape bs) in
        (JsMap.set String.eqb id shape' cache, shapesToUpdate ++ [id])
    end
  else acc.

Definition publishBlocks (now : Q) (cache : list (string * Shape.t)) (id : string)
    : list effect :=
  match JsMap.get String.eqb id cache with
  | Some shape =>
      [Write (UpdateShapeBlocks id (map Block.position (Shape.blocks shape)) now)]
  | None => []
  end.

Definition handleRowCompletion (y : Q) (stored : option ScoreData.t) (now : Q) (n : t)
    : t * list effect :=
  let points := 10 in
  let '(cache, shapesToUpdate) := fold_left (clearRow y) (shapes n) (shapes n, []) in
  (set_shapes n cache,
   flat_map (publishBlocks now cache) shapesToUpdate
   ++ [Write (SetLastRowCompletion y now)]
   ++ addPoints points stored now n).

End WithThree.

End NetworkManager.

(** ** Vocabulary of the properties *)

(** The stored offsets of the blocks of a piece, in order. *)
Definition offsets (s : Shape.t) : list (option Vector3.t) :=
  map Block.initialOffset (Shape.blocks s).

(** The angle and the angular step [startRotation] sets. *)
Definition quarterTarget (clockwise : bool) : Q :=
  if clockwise then Math.PI / 2 else - Math.PI / 2.

Definition quarterSpeed (clockwise : bool) : Q :=
  if clockwise then Math.PI / 40 else - Math.PI / 40.

(** The angle [update] turns the stored offsets by when a rotation towards
    [quarterTarget clockwise] ends. *)
Definition finalRotation (clockwise : bool) : Q :=
  (Math.sign (quarterTarget clockwise) * Math.PI) / 2.

(** The exact quarter turn in the direction of [finalRotation]. *)
Definition exactTurn (clockwise : bool) (v : Vector3.t) : Vector3.t :=
  if clockwise then quarterTurn v
  else Vector3.mk (Vector3.y v) (- Vector3.x v) (Vector3.z v).

(** The error bound of [k] successive turns, each within [eps] (relative to
    the length of the vector) of the exact one. *)
Fixpoint turnError (eps : Q) (k : nat) : Q :=
  match k with
  | O => 0
  | S k' => eps * (1 + turnError eps k') + turnError eps k'
  end.

(** Two offsets of the same block, the second within [tol] times the length
    of the first from it. *)
Definition offsetWithin (tol : Q) (before after : option Vector3.t) : Prop :=
  match before, after with
  | Some o, Some o' => Vector3.norm (Vector3.sub o' o) <= tol * Vector3.norm o
  | None, None => True
  | _, _ => False
  end.

Section Vocabulary.

Variable applyAxisAngle : AxisAngle.

(** A block that has a stored offset and sits where [updateBlockPositions]
    puts it. *)
Definition placedAt (s : Shape.t) (b : Block.t) : Prop :=
  exists off,
    Block.initialOffset b = Some off /\
    Vector3.eqv (Block.position b)
      (Vector3.add (Shape.position s) (Shape.relativePos applyAxisAngle s off)).

Definition placed (s : Shape.t) : Prop := Forall (placedAt s) (Shape.blocks s).


(** A block the quarter turn towards [quarterTarget clockwise] would take
    out of the grid: more than 5 away from the middle. *)
Definition leavesGrid (clockwise : bool) (s : Shape.t) (b : Block.t) : Prop :=
  exists off,
    Block.initialOffset b = Some off /\
    5 < Qabs (Vector3.x (Shape.position s)
              + Vector3.x (applyAxisAngle off (Shape.rotationAxis s)
                             (quarterTarget clockwise))).

(** [update] called at each time of [ts] in turn. *)
Definition run (ts : list Q) (s : Shape.t) : Shape.t :=
  fold_left (fun a currentTime => Shape.update applyAxisAngle currentTime a) ts s.

(** A piece as [updateShapes] builds it from a record at [pos]. *)
Definition spawned (ty : string) (col : Z) (pos : Vector3.t) : Shape.t :=
  Shape.updateBlockPositions applyAxisAngle
    (Shape.set_position (Shape.new ty col false) pos).

(** [startRotation] accepted the turn and [update], called at the times
    [ts], has brought it to its end. *)
Definition completedRotation (clockwise : bool) (s s' : Shape.t) : Prop :=
  fst (Shape.startRotation applyAxisAngle clockwise s) = Returns true /\
  exists ts,
    s' = run ts (snd (Shape.startRotation applyAxisAngle clockwise s)) /\
    Shape.isRotating s' = false.

(** [k] completed rotations in a row. *)
Fixpoint completedRotations (clockwise : bool) (k : nat) (s s' : Shape.t) : Prop :=
  match k with
  | O => s' = s
  | S k' =>
      exists mid,
        completedRotation clockwise s mid /\ completedRotations clockwise k' mid s'
  end.

End Vocabulary.


(** How far [snapToGrid] lifts a piece: up to the ground level when its
    lowest block is at or below it, and not at all otherwise. *)
Definition lift (s : Shape.t) : Q :=
  match Shape.lowestY (Shape.blocks s) with
  | Some lo => if Qle_bool lo (Shape.groundLevel s) then Shape.groundLevel s - lo else 0
  | None => 0
  end.

(** Every block is above the ground level of the piece: [snapToGrid] has
    nothing to lift. *)
Definition clearOfGround (s : Shape.t) : Prop :=
  Forall (fun b => Shape.groundLevel s < Vector3.y (Block.position b)) (Shape.blocks s).

Section Descent.

Variable applyAxisAngle : AxisAngle.






End Descent.

(** The times 1000, 2000, ..., 1000 n: one call of [update] a second. *)
Definition everySecond (n : nat) : list Q :=
  map (fun k => inject_Z (Z.of_nat k) * 1000) (seq 1 n).

(** Every component within [r] of 0. *)
Definition within (r : Q) (v : Vector3.t) : Prop :=
  Qabs (Vector3.x v) <= r /\ Qabs (Vector3.y v) <= r /\ Qabs (Vector3.z v) <= r.

Fixpoint turns (f : Vector3.t -> Vector3.t) (k : nat) (v : Vector3.t) : Vector3.t :=
  match k with
  | O => v
  | S k' => f (turns f k' v)
  end.

Definition hasOffset (b : Block.t) : Prop := Block.initialOffset b <> None.

Section RotationVocabulary.

Variable rot : AxisAngle.

(** The turn [update] writes into the offsets of [s] at the end of a
    rotation. *)
Definition turnBy (s : Shape.t) (cw : bool) (v : Vector3.t) : Vector3.t :=
  rot v (Shape.rotationAxis s) (finalRotation cw).

(** Where a rotation of [s0] stands in [a]: running towards the quarter
    turn with the offsets of [s0], or over with the offsets turned. *)
Definition rotationOf (cw : bool) (s0 a : Shape.t) : Prop :=
  Shape.rotationAxis a = Shape.rotationAxis s0 /\
  ((Shape.isRotating a = true /\
    Shape.targetRotation a = quarterTarget cw /\
    offsets a = offsets s0) \/
   (Shape.isRotating a = false /\
    offsets a = map (option_map (turnBy s0 cw)) (offsets s0))).

(** The angle after [j] steps. *)
Fixpoint angleAfter (cw : bool) (j : nat) : Q :=
  match j with
  | O => 0
  | S j' => angleAfter cw j' + quarterSpeed cw
  end.

Definition turning (cw : bool) (j : nat) (a : Shape.t) : Prop :=
  Shape.isRotating a = true /\
  Shape.currentRotation a = angleAfter cw j /\
  Shape.rotationSpeed a = quarterSpeed cw /\
  Shape.targetRotation a = quarterTarget cw.

End RotationVocabulary.

(** The position [updateShapes] leaves a cached shape at, given its record. *)
Definition remotePosition (data : ShapeData.t) (s : Shape.t) : Vector3.t :=
  match ShapeData.position data with
  | Some p =>
      if negb (Shape.isLocked s) then
        match PositionData.y p with
        | Some newY =>
            if Qle_bool newY (Vector3.y (Shape.position s)) then
              Vector3.mk
                (NetworkManager.numberOr (PositionData.x p) (Vector3.x (Shape.position s)))
                newY
                (NetworkManager.numberOr (PositionData.z p) (Vector3.z (Shape.position s)))
            else Shape.position s
        | None => Shape.position s
        end
      else Shape.position s
  | None => Shape.position s
  end.

(** ** Vocabulary of the manager *)

(** The write of a shape record: the commit of a spawn. *)
Definition isSpawnWrite (e : effect) : bool :=
  match e with
  | Write (SetShape _ (Some _)) => true
  | _ => false
  end.

Definition commitsSpawn (es : list effect) : Prop := existsb isSpawnWrite es = true.

(** The write of the sentinel. *)
Definition sentinelWrite (now : Q) : effect :=
  Write (UpdateGameState None (IdString "spawning") now).

(** The local client is the first of the player list. *)
Definition localIsFirst (n : NetworkManager.t) : Prop :=
  exists p,
    NetworkManager.playerId n = Some p /\
    hd_error (JsMap.keys (NetworkManager.players n)) = Some p.

Definition activeUnlocked (s : Shape.t) : bool :=
  Shape.isActive s && negb (Shape.isLocked s).

(** The nickname label [updatePlayers] draws for a listed player: none for
    the local player or for a record without a nickname. *)
Definition labelOf (n : NetworkManager.t) (entry : string * PlayerData.t) : list effect :=
  if NetworkManager.isLocalId n (fst entry) then []
  else if NetworkManager.truthyString (PlayerData.nickname (snd entry))
       then [New (ALabel (fst entry))]
       else [].


(** A locked shape with a block at row [y]: the shapes [handleRowCompletion]
    changes. *)
Definition touched (y : Q) (s : Shape.t) : bool :=
  Shape.isLocked s && existsb (NetworkManager.atRow y) (Shape.blocks s).

(** The blocks at other rows than [y], in order. *)
Definition keepOtherRows (y : Q) (bs : list Block.t) : list Block.t :=
  filter (fun b => negb (NetworkManager.atRow y b)) bs.

(** The score [addPoints] reads: [val()?.score || 0]. *)
Definition storedScore (stored : option ScoreData.t) : Q :=
  match stored with
  | Some rec => NetworkManager.numberOr (ScoreData.score rec) 0
  | None => 0
  end.

Section RowVocabulary.

Variable rot : AxisAngle.

(** A shape after the completion of row [y]. *)
Definition rowCleared (y : Q) (s : Shape.t) : Shape.t :=
  if touched y s then
    Shape.updateBlockPositions rot (Shape.set_blocks s (keepOtherRows y (Shape.blocks s)))
  else s.

(** The write that republishes the blocks of a changed shape. *)
Definition publication (y now : Q) (e : string * Shape.t) : list effect :=
  if touched y (snd e) then
    [Write (UpdateShapeBlocks (fst e)
              (map Block.position (Shape.blocks (rowCleared y (snd e)))) now)]
  else [].

(** Every block is exactly where [updateBlockPositions] would put it. *)
Definition inPlace (s : Shape.t) : Prop :=
  Forall (fun b => Shape.placeBlock rot s b = b) (Shape.blocks s).

End RowVocabulary.

(** A record above the height at which [updateShapes] keeps a new shape. *)
Definition tooHigh (data : ShapeData.t) : bool :=
  match ShapeData.position data with
  | Some p => Qlt_bool 20 (Vector3.y (NetworkManager.initialPosition p))
  | None => false
  end.

(** A record [updateShapes] builds a shape from at every application, to
    drop it at once. *)
Definition rebuilt (data : ShapeData.t) : bool :=
  NetworkManager.creatable data && tooHigh data.

(** ** Concrete inputs *)

(** A manager after [initialize]: the scene is set, the caches are empty and
    the local player has an id and a nickname. *)
Definition freshManager : NetworkManager.t :=
  NetworkManager.mk true [] [] [] (Some "loits-player-a"%string) (Some "Ada"%string) None 0 200.

Definition withGameState (n : NetworkManager.t) (gs : GameState.t) : NetworkManager.t :=
  NetworkManager.mk (NetworkManager.scene n) (NetworkManager.players n)
    (NetworkManager.shapes n) (NetworkManager.bullets n) (NetworkManager.playerId n)
    (NetworkManager.nickname n) (Some gs) (NetworkManager.lastShapeUpdate n)
    (NetworkManager.shapeUpdateInterval n).

Definition withoutPlayerId (n : NetworkManager.t) : NetworkManager.t :=
  NetworkManager.mk (NetworkManager.scene n) (NetworkManager.players n)
    (NetworkManager.shapes n) (NetworkManager.bullets n) None
    (NetworkManager.nickname n) (NetworkManager.gameState n)
    (NetworkManager.lastShapeUpdate n) (NetworkManager.shapeUpdateInterval n).

(** The record of a blue piece of type [ty] at [(x, y, 0)]. *)
Definition shapeRecord (ty : string) (x y : Q) (locked active : bool) : ShapeData.t :=
  ShapeData.mk (Some ty) (Some 255%Z)
    (Some (PositionData.mk (Some x) (Some y) (Some 0)))
    locked active false None None None None.

(** The game state after a lock: no current shape, last spawn at time 0. *)
Definition idleGame : GameState.t := GameState.mk IdNull (Some 0).

Definition someDraw : NetworkManager.draw :=
  NetworkManager.mkDraw 0 0 (1 # 2) "k3x9" 2003.

(** A cache holding an "I" piece that was seen falling at height 5 and then,
    in a later snapshot, at height [y] with the flags [locked] and [active]:
    the second snapshot moves the base of an inactive piece and leaves its
    meshes where they were. *)
Definition seenAt5Then (y : Q) (locked active : bool) : NetworkManager.t :=
  fst (NetworkManager.updateShapes chordAxisAngle
         [("c"%string, shapeRecord "I" 0 y locked active)] 0
         (fst (NetworkManager.updateShapes chordAxisAngle
                 [("c"%string, shapeRecord "I" 0 5 false true)] 0 freshManager))).


(** An "I" piece that [update] has locked on the floor, cached under "a",
    while its record in the store still says unlocked and active. *)
Definition landedPiece : Shape.t :=
  Shape.update chordAxisAngle 1000 (spawned chordAxisAngle "I" 255 (Vector3.mk 0 1 0)).

Definition cacheWithLanded : NetworkManager.t :=
  NetworkManager.set_shapes freshManager [("a"%string, landedPiece)].

Definition staleRecord : list (string * ShapeData.t) :=
  [("a"%string, shapeRecord "I" 0 1 false true)].

(** A snapshot with an offline player, and one with a shape whose record
    carries a list of blocks. *)
Definition offlineListing : list (string * PlayerData.t) :=
  [("loits-player-b"%string, PlayerData.mk (Some "Bob"%string) false (Some 0) None)].

Definition onlineListing : list (string * PlayerData.t) :=
  [("loits-player-b"%string, PlayerData.mk (Some "Bob"%string) true (Some 0) None)].


(** A bullet fired at time 0 from height 10, a bullet that has been updated
    500 times, and a bullet lying still on the floor. *)
Definition youngBullet : Bullet.t := Bullet.new (Vector3.mk 0 10 0) (Vector3.mk 1 0 0).

Definition spentBullet : Bullet.t :=
  Bullet.mk (Vector3.mk 0 10 0) (Vector3.mk 1 0 0) (3 # 1000) (7 # 10) (998 # 1000) 0
            false 8000 8000 (Some (Vector3.mk 0 10 0)).

Definition restingBullet : Bullet.t :=
  Bullet.mk (Vector3.mk 0 0 0) (Vector3.mk 0 0 0) (3 # 1000) (7 # 10) (998 # 1000) 0
            false 160 8000 (Some (Vector3.mk 0 0 0)).

Definition holding (b : Bullet.t) : NetworkManager.t :=
  NetworkManager.set_bullets freshManager [(("loits-player-a"%string, 0%Z), b)].

(** The keys of the bullets left and the effects of a call of
    [updateBullets]. *)
Definition bulletsAfter (now : Q) (n : NetworkManager.t) : list BulletKey * list effect :=
  let '(n', es, _) := NetworkManager.updateBullets chordAxisAngle now n in
  (JsMap.keys (NetworkManager.bullets n'), es).

(** An active unlocked piece cached above the height 20. *)
Definition cacheWithHighPiece : NetworkManager.t :=
  NetworkManager.set_shapes (withGameState freshManager idleGame)
    [("h"%string,
      Shape.set_position (Shape.new "I" 255 false) (Vector3.mk 0 25 0))].

(** The cached shape under [id], or a fresh placeholder when there is
    none. *)
Definition cached (id : string) (n : NetworkManager.t) : Shape.t :=
  match JsMap.get String.eqb id (NetworkManager.shapes n) with
  | Some s => s
  | None => Shape.new "" 0 true
  end.

(** The heights of the blocks, reduced. *)
Definition heights (bs : list Block.t) : list Q :=
  map (fun b => Qred (Vector3.y (Block.position b))) bs.

(** A piece after [startRotation(clockwise)] and twenty calls of [update] at
    time 0, and after four such rotations. *)
Abbreviation rotatedOnce rot clockwise s :=
  (run rot (repeat 0 20) (snd (Shape.startRotation rot clockwise s))).

Abbreviation rotatedFourTimes rot clockwise s :=
  (rotatedOnce rot clockwise
     (rotatedOnce rot clockwise (rotatedOnce rot clockwise (rotatedOnce rot clockwise s)))).

(** Lookup in a cache or a snapshot keyed by strings. *)
Abbreviation get := (JsMap.get String.eqb).

(** * The code around the methods above *)

(** ** Calls on a piece *)

(** The calls of the methods of a piece that change it, and a sequence of
    them made one after the other on the same piece. *)
Inductive call : Type :=
| CallUpdate (currentTime : Q)
| CallMoveSideways (direction : Q)
| CallStartRotation (clockwise : bool)
| CallHandleShot
| CallSnapToGrid.

Section Calls.

Variable applyAxisAngle : AxisAngle.

Definition perform (s : Shape.t) (c : call) : Shape.t :=
  match c with
  | CallUpdate currentTime => Shape.update applyAxisAngle currentTime s
  | CallMoveSideways direction => snd (Shape.moveSideways applyAxisAngle direction s)
  | CallStartRotation clockwise => snd (Shape.startRotation applyAxisAngle clockwise s)
  | CallHandleShot => snd (Shape.handleShot applyAxisAngle s)
  | CallSnapToGrid => Shape.snapToGrid applyAxisAngle s
  end.

Definition performAll (cs : list call) (s : Shape.t) : Shape.t :=
  fold_left perform cs s.

End Calls.

(** The piece [s'] is no lower than the time between the falls of [s] and
    [s'] allows: it has come down at most [fallSpeed] for every full second
    between the two time stamps. *)
Definition fallenWithin (s s' : Shape.t) : Prop :=
  Shape.fallSpeed s' = Shape.fallSpeed s /\
  Shape.lastFallTime s <= Shape.lastFallTime s' /\
  1000 * (Vector3.y (Shape.position s) - Vector3.y (Shape.position s'))
  <= Shape.fallSpeed s * (Shape.lastFallTime s' - Shape.lastFallTime s).

(** The base of the piece is over the grid of the constructor, ten cells
    wide. *)
Definition inGrid (s : Shape.t) : Prop :=
  Shape.gridSize s = 10 /\ Qabs (Vector3.x (Shape.position s)) <= 5.

(** A whole number, as the columns of the grid and the steps of the game
    are: the sums of such numbers do not round. *)
Definition whole (q : Q) : Prop := exists k : Z, q == inject_Z k.

(** A block without a stored offset: a mesh [updateShapes] rebuilt from a
    store record. *)
Definition withoutOffset (b : Block.t) : Prop := Block.initialOffset b = None.

(** ** game/Shape.js: collision of two pieces *)

Module ShapeCollision.

(** The argument of [checkCollision]: a falsy value, the piece itself
    ([otherShape === this]) or another piece. *)
Inductive otherShape : Type :=
| Nothing
| Itself
| Another (s : Shape.t).

(** Two blocks less than 0.9 apart on each of the three axes. *)
Definition overlap (block1 block2 : Block.t) : bool :=
  let dx := Math.abs (Vector3.x (Block.position block1) - Vector3.x (Block.position block2)) in
  let dy := Math.abs (Vector3.y (Block.position block1) - Vector3.y (Block.position block2)) in
  let dz := Math.abs (Vector3.z (Block.position block1) - Vector3.z (Block.position block2)) in
  Qlt_bool dx (9 # 10) && Qlt_bool dy (9 # 10) && Qlt_bool dz (9 # 10).

(** [this.checkCollision(otherShape)]. *)
Definition checkCollision (this : Shape.t) (other : otherShape) : bool :=
  match other with
  | Nothing => false
  | Itself => false
  | Another o =>
      existsb (fun block1 => existsb (fun block2 => overlap block1 block2) (Shape.blocks o))
              (Shape.blocks this)
  end.

End ShapeCollision.

(** ** game/GameManager.js: the shapes of a frame *)

Module GameManager.

(** [checkShapeCollision(shape1, shape2)]. *)
Definition checkShapeCollision (shape1 shape2 : Shape.t) : bool :=
  existsb
    (fun block1 =>
       existsb
         (fun block2 =>
            let dx := Math.abs (Vector3.x (Block.position block1)
                                - Vector3.x (Block.position block2)) in
            let dy := Math.abs (Vector3.y (Block.position block1)
                                - Vector3.y (Block.position block2)) in
            let dz := Math.abs (Vector3.z (Block.position block1)
                                - Vector3.z (Block.position block2)) in
            Qlt_bool dx (9 # 10) && Qlt_bool dy (9 # 10) && Qlt_bool dz (9 # 10))
         (Shape.blocks shape2))
    (Shape.blocks shape1).

(** [spawnShape]: a type, a colour and a column drawn at random, and the
    record written by [addShape]. *)
Definition spawnShape (d : NetworkManager.draw) (n : NetworkManager.t) : list effect :=
  let types := ["I"; "O"; "T"; "L"; "S"]%string in
  let colors := [16711680; 65280; 255; 16776960; 16711935]%Z in
  let type := NetworkManager.pick types (NetworkManager.typeRoll d) in
  let color := NetworkManager.pick colors (NetworkManager.colorRoll d) in
  let gridSize := 10 in
  let x := inject_Z (Qfloor (NetworkManager.xRoll d * gridSize)) - gridSize / 2 in
  let position := Vector3.mk x 15 0 in
  NetworkManager.addShape type color position d n.

(** The fields of the game manager that [update] reads before it spawns,
    around the state of its network manager. *)
Record t : Type := mk {
  networkManager : NetworkManager.t;
  isGameOver : bool;
  isPaused : bool;
  spawnInterval : Q;
  lastSpawnTime : Q
}.

(** [new GameManager(scene, camera)], with [n] for its network manager. *)
Definition new (n : NetworkManager.t) : t := mk n false false 3000 0.

(** What [update(currentTime)] does about spawning: the early return of a
    game that is over or paused and the lines under "Check if we need to
    spawn a new shape".  The keys, the player, and the shapes and bullets of
    the frame are the other parts of [update]; none of them changes the
    flags this test reads. *)
Definition spawnOnUpdate (currentTime : Q) (d : NetworkManager.draw) (g : t)
    : t * list effect :=
  if isGameOver g || isPaused g then (g, [])
  else
    let activeShapes :=
      filter (fun e => negb (Shape.isLocked (snd e)) && Shape.isActive (snd e))
             (NetworkManager.shapes (networkManager g)) in
    if (List.length activeShapes =? 0)%nat
       && Qlt_bool (spawnInterval g) (currentTime - lastSpawnTime g)
    then
      (mk (networkManager g) (isGameOver g) (isPaused g) (spawnInterval g) currentTime,
       spawnShape d (networkManager g))
    else (g, []).

(** The patch fields of a position, each a number. *)
Definition positionPatch (v : Vector3.t) : PositionData.t :=
  PositionData.mk (Some (Vector3.x v)) (Some (Vector3.y v)) (Some (Vector3.z v)).

(** [if (shapeId) this.networkManager.updateShapeState(shapeId, patch)],
    where [shapeId] is the key the shape is cached under: the empty key is
    falsy. *)
Definition publish (shapeId : string) (patch : ShapeState.t) (now : Q)
    (n : NetworkManager.t) : NetworkManager.t * list effect :=
  if String.eqb shapeId "" then (n, [])
  else NetworkManager.updateShapeState shapeId (Some patch) now n.

Section WithThree.

Variable applyAxisAngle : AxisAngle.

(** The inner loop of [updateShapes]: some other cached shape is locked and
    collides with [shape].  Two objects of the cache are the same object
    exactly when they sit under the same key. *)
Definition meetsLocked (id : string) (shape : Shape.t) (entries : list (string * Shape.t))
    : bool :=
  existsb
    (fun e =>
       negb (String.eqb (fst e) id) && Shape.isLocked (snd e)
       && checkShapeCollision shape (snd e))
    entries.

(** The body of the loop of [updateShapes] for the shape cached under
    [id]. *)
Definition stepShape (currentTime now : Q) (acc : NetworkManager.t * list effect)
    (id : string) : NetworkManager.t * list effect :=
  let '(n, es) := acc in
  match JsMap.get String.eqb id (NetworkManager.shapes n) with
  | None => acc
  | Some shape =>
      if negb (Shape.isLocked shape) && Shape.isActive shape then
        let shape1 := Shape.update applyAxisAngle currentTime shape in
        let n1 :=
          NetworkManager.set_shapes n
            (JsMap.set String.eqb id shape1 (NetworkManager.shapes n)) in
        let '(n2, es2, shape2) :=
          if meetsLocked id shape1 (NetworkManager.shapes n1) then
            let shape2 := Shape.snapToGrid applyAxisAngle shape1 in
            let n2 :=
              NetworkManager.set_shapes n1
                (JsMap.set String.eqb id shape2 (NetworkManager.shapes n1)) in
            let '(n3, ws) :=
              publish id
                (ShapeState.mk (Some (positionPatch (Shape.position shape2)))
                   (Some true) (Some false) None None)
                now n2 in
            (n3, es ++ ws, shape2)
          else (n1, es, shape1) in
        let '(n4, ws) :=
          publish id
            (ShapeState.mk (Some (positionPatch (Shape.position shape2))) None None None None)
            now n2 in
        (n4, es2 ++ ws)
      else acc
  end.

(** [updateShapes(currentTime)], on the cache of the network manager. *)
Definition updateShapes (currentTime now : Q) (n : NetworkManager.t)
    : NetworkManager.t * list effect :=
  fold_left (stepShape currentTime now) (JsMap.keys (NetworkManager.shapes n)) (n, []).

(** [moveShapeInView(direction)]; [target] is the key of the shape the ray
    from the camera hits first, among the blocks of the active unlocked
    shapes, [None] when it hits none. *)
Definition moveShapeInView (direction : string) (target : option string) (now : Q)
    (n : NetworkManager.t) : NetworkManager.t * list effect :=
  match target with
  | None => (n, [])
  | Some id =>
      match JsMap.get String.eqb id (NetworkManager.shapes n) with
      | None => (n, [])
      | Some activeShape =>
          if Shape.isLocked activeShape then (n, [])
          else
            let isOnGround :=
              existsb (fun block => Qle_bool (Vector3.y (Block.position block)) 0)
                      (Shape.blocks activeShape) in
            if isOnGround then (n, [])
            else
              let moveAmount := if String.eqb direction "left" then - (1) else 1 in
              let newX := Vector3.x (Shape.position activeShape) + moveAmount in
              if Qle_bool (Math.abs newX) 5 then
                let moved :=
                  Shape.updateBlockPositions applyAxisAngle
                    (Shape.set_position activeShape
                       (Vector3.set_x (Shape.position activeShape) newX)) in
                let n1 :=
                  NetworkManager.set_shapes n
                    (JsMap.set String.eqb id moved (NetworkManager.shapes n)) in
                publish id
                  (ShapeState.mk (Some (positionPatch (Shape.position moved)))
                     None None None None)
                  now n1
              else (n, [])
      end
  end.

End WithThree.

End GameManager.


(** Two blocks in the same cell, and two blocks a whole number of cells
    apart on each axis, as the blocks of pieces on the grid are. *)
Definition sameCell (b1 b2 : Block.t) : Prop :=
  Vector3.eqv (Block.position b1) (Block.position b2).

Definition wholeCellsApart (b1 b2 : Block.t) : Prop :=
  exists i j k : Z,
    Vector3.x (Block.position b1) - Vector3.x (Block.position b2) == inject_Z i /\
    Vector3.y (Block.position b1) - Vector3.y (Block.position b2) == inject_Z j /\
    Vector3.z (Block.position b1) - Vector3.z (Block.position b2) == inject_Z k.

(** ** Vocabulary of the bullets *)

(** A bullet after [k] calls of [update]. *)
Fixpoint flown (k : nat) (b : Bullet.t) : Bullet.t :=
  match k with
  | O => b
  | S k' => Bullet.update (flown k' b)
  end.

(** A bullet lying on the floor with next to no vertical speed: the first
    of the two conditions [update] marks a bullet dead on. *)
Definition atRest (b : Bullet.t) : Prop :=
  Qabs (Vector3.y (Bullet.velocity b)) < 1 # 100 /\
  Vector3.y (Bullet.position b) <= Bullet.groundLevel b.

(** ** Vocabulary of the reconciliation *)

(** The stored offsets of a new piece of type [ty]. *)
Definition definitionOffsets (ty : string) : list (option Vector3.t) :=
  map (fun o => Some (Vector3.mk (fst o) (snd o) 0)) (Shape.getShapeDefinition ty).


(** ** game/NetworkManager.js: the scoreboard *)

Module Scoreboard.

(** [updateScores]: the map of scores is cleared and filled with the
    entries of the snapshot. *)
Definition updateScores (scores : list (string * ScoreData.t)) : list (string * ScoreData.t) :=
  fold_left (fun m e => JsMap.set String.eqb (fst e) (snd e) m) scores [].

(** The comparator [([, a], [, b]) => b.score - a.score]; a difference that
    is not a number counts as 0 in [sort]. *)
Definition compareScores (a b : string * ScoreData.t) : Q :=
  match ScoreData.score (snd b), ScoreData.score (snd a) with
  | Some sb, Some sa => sb - sa
  | _, _ => 0
  end.

(** [Array.prototype.sort], which is stable: an insertion sort that puts
    an element before the first one the comparator does not put it
    after. *)
Fixpoint insertSorted {A : Type} (cmp : A -> A -> Q) (a : A) (l : list A) : list A :=
  match l with
  | [] => [a]
  | b :: rest => if Qle_bool (cmp a b) 0 then a :: l else b :: insertSorted cmp a rest
  end.

Definition sort {A : Type} (cmp : A -> A -> Q) (l : list A) : list A :=
  fold_right (insertSorted cmp) [] l.

(** One line of the scoreboard: the values its markup is filled with. *)
Record line : Type := mkLine {
  rank : nat;
  nickname : option string;
  score : option Q;
  isCurrentPlayer : bool
}.

Fixpoint render (playerId : option string) (index : nat)
    (sortedPlayers : list (string * ScoreData.t)) : list line :=
  match sortedPlayers with
  | [] => []
  | (id, data) :: rest =>
      mkLine (index + 1) (ScoreData.nickname data) (ScoreData.score data)
             (match playerId with Some p => String.eqb id p | None => false end)
      :: render playerId (S index) rest
  end.

(** [updateScoreboard]: [None] when the page has no scoreboard element,
    else the lines written into it. *)
Definition updateScoreboard (scoreboardElement : bool) (scores : list (string * ScoreData.t))
    (playerId : option string) : option (list line) :=
  if negb scoreboardElement then None
  else
    let sortedPlayers := firstn 5 (sort compareScores scores) in
    Some (render playerId 0 sortedPlayers).

End Scoreboard.

(** ** game/NetworkManager.js: nicknames *)

Module Nicknames.

Section WithList.

(** The list exported by [utils/nicknames.js]. *)
Variable nicknames : list string.

(** [getTakenNicknames], from the listing of the players it reads. *)
Definition getTakenNicknames (players : list (string * PlayerData.t)) : list (option string) :=
  map (fun e => PlayerData.nickname (snd e)) players.

Definition includes (takenNicknames : list (option string)) (nickname : string) : bool :=
  existsb (fun t => match t with Some s => String.eqb s nickname | None => false end)
          takenNicknames.

(** [getRandomNickname]; [roll] is the result of the call of [Math.random]
    the branch taken makes. *)
Definition getRandomNickname (takenNicknames : list (option string)) (roll : Q)
    : option string :=
  let availableNicknames :=
    filter (fun nickname => negb (includes takenNicknames nickname)) nicknames in
  if (List.length availableNicknames =? 0)%nat then
    Some ("Player" ++ NilEmpty.string_of_int (Z.to_int (Qfloor (roll * 1000))))%string
  else NetworkManager.pick availableNicknames roll.

End WithList.

End Nicknames.

(** The scores of a list of entries, a missing one counting as 0 as it
    does for the comparator. *)
Definition scoreOf (e : string * ScoreData.t) : Q :=
  match ScoreData.score (snd e) with Some q => q | None => 0 end.

Definition hasScore (e : string * ScoreData.t) : Prop := ScoreData.score (snd e) <> None.

(** A player the listing shows offline, last seen more than 5000 ms before
    [now]. *)
Definition longGone (snapshot : list (string * PlayerData.t)) (now : Q) (id : string) : Prop :=
  exists data seen,
    JsMap.get String.eqb id snapshot = Some data /\
    PlayerData.online data = false /\
    PlayerData.lastSeen data = Some seen /\
    5000 < now - seen.

(** The deletion of the store record of a player, or of its score. *)
Definition deletes (id : string) (e : effect) : Prop :=
  e = Write (SetPlayer id None) \/ e = Write (SetScore id None).

(** ** game/Player.js: the body of a player *)

Module PlayerBody.

Record boundaries : Type := mkBoundaries { minX : Q; maxX : Q; minZ : Q; maxZ : Q }.

(** The fields [move] and [update] read and write.  [camera] is the
    position of the camera of the local player, [None] for a player
    without a camera. *)
Record t : Type := mk {
  position : Vector3.t;
  velocity : Vector3.t;
  moveSpeed : Q;
  jumpForce : Q;
  gravity : Q;
  isOnGround : bool;
  bounds : boundaries;
  camera : option Vector3.t
}.

(** [new Player(scene, camera, nickname)]: [x] and [z] are the coordinates
    the constructor draws at random, [cameraPosition] the position of the
    camera handed in, if any. *)
Definition new (x z : Q) (cameraPosition : option Vector3.t) : t :=
  let position := Vector3.mk x (7 # 10) z in
  mk position Vector3.zero (1 # 10) (2 # 10) (5 # 1000) true
     (mkBoundaries (- (49)) 49 (- (49)) 49)
     (match cameraPosition with
      | Some _ => Some (Vector3.mk x ((7 # 10) + (16 # 10)) z)
      | None => None
      end).

Definition inside (b : boundaries) (p : Vector3.t) : bool :=
  Qle_bool (minX b) (Vector3.x p) && Qle_bool (Vector3.x p) (maxX b)
  && Qle_bool (minZ b) (Vector3.z p) && Qle_bool (Vector3.z p) (maxZ b).

Definition addScaledVector (p v : Vector3.t) (s : Q) : Vector3.t :=
  Vector3.mk (Vector3.x p + Vector3.x v * s) (Vector3.y p + Vector3.y v * s)
             (Vector3.z p + Vector3.z v * s).

Inductive direction : Type := Forward | Backward | Left | Right | Jump.

(** [move(direction)]; [forward] and [right] are the horizontal unit
    vectors three.js derives from the quaternion of the camera.  The
    method reads [this.camera.quaternion] before it looks at the
    direction: on a player without a camera it throws a TypeError, which
    is [None]. *)
Definition move (forward right : Vector3.t) (d : direction) (p : t) : option t :=
  match camera p with
  | None => None
  | Some _ =>
      Some
        match d with
        | Jump =>
            if isOnGround p then
              mk (position p) (Vector3.set_y (velocity p) (jumpForce p)) (moveSpeed p)
                 (jumpForce p) (gravity p) false (bounds p) (camera p)
            else p
        | _ =>
            let newPosition :=
              match d with
              | Forward => addScaledVector (position p) forward (moveSpeed p)
              | Backward => addScaledVector (position p) forward (- moveSpeed p)
              | Left => addScaledVector (position p) right (- moveSpeed p)
              | _ => addScaledVector (position p) right (moveSpeed p)
              end in
            if inside (bounds p) newPosition then
              mk newPosition (velocity p) (moveSpeed p) (jumpForce p) (gravity p)
                 (isOnGround p) (bounds p) (camera p)
            else p
        end
  end.

(** [update()], the figure apart.  The sums are exact here;
    [Binary64.airStep] is the vertical part as the processor computes
    it. *)
Definition update (p : t) : t :=
  let v1 :=
    if negb (isOnGround p)
    then Vector3.set_y (velocity p) (Vector3.y (velocity p) - gravity p)
    else velocity p in
  let newPosition := Vector3.add (position p) v1 in
  let lands := Qlt_bool (Vector3.y newPosition) 2 in
  let newPosition1 := if lands then Vector3.set_y newPosition 2 else newPosition in
  let v2 := if lands then Vector3.set_y v1 0 else v1 in
  let onGround := if lands then true else isOnGround p in
  let v3 :=
    if negb onGround
    then Vector3.mk (Vector3.x v2 * (95 # 100)) (Vector3.y v2) (Vector3.z v2 * (95 # 100))
    else v2 in
  let position1 := if inside (bounds p) newPosition1 then newPosition1 else position p in
  mk position1 v3 (moveSpeed p) (jumpForce p) (gravity p) onGround (bounds p)
     (match camera p with
      | Some _ =>
          Some (Vector3.mk (Vector3.x position1) (Vector3.y position1 + (16 # 10))
                           (Vector3.z position1))
      | None => None
      end).

End PlayerBody.

(** A player with a camera standing still on the floor of the playground,
    as the constructor and a first [update] leave it. *)
Definition standing (p : PlayerBody.t) : Prop :=
  PlayerBody.camera p <> None /\
  PlayerBody.isOnGround p = true /\
  Vector3.y (PlayerBody.position p) == 2 /\
  Vector3.eqv (PlayerBody.velocity p) Vector3.zero /\
  PlayerBody.jumpForce p = 2 # 10 /\
  PlayerBody.gravity p = 5 # 1000 /\
  PlayerBody.inside (PlayerBody.bounds p) (PlayerBody.position p) = true.

(** A player after [k] calls of [update]. *)
Fixpoint afterCalls (k : nat) (p : PlayerBody.t) : PlayerBody.t :=
  match k with
  | O => p
  | S k' => PlayerBody.update (afterCalls k' p)
  end.

(** The height and the vertical speed [k] calls of [update] into a jump,
    when no sum rounds. *)
Definition jumpHeight (k : nat) : Q :=
  2 + (2 # 10) * inject_Z (Z.of_nat k)
  - (25 # 10000) * inject_Z (Z.of_nat k) * (inject_Z (Z.of_nat k) + 1).

Definition jumpSpeed (k : nat) : Q := (2 # 10) - (5 # 1000) * inject_Z (Z.of_nat k).

(** In the air: where a jump stands after [k] calls, for [k] up to 79. *)
Definition inJump (p0 : PlayerBody.t) (k : nat) (p : PlayerBody.t) : Prop :=
  PlayerBody.camera p <> None /\
  PlayerBody.isOnGround p = false /\
  PlayerBody.gravity p = 5 # 1000 /\
  PlayerBody.jumpForce p = 2 # 10 /\
  PlayerBody.bounds p = PlayerBody.bounds p0 /\
  Vector3.x (PlayerBody.position p) == Vector3.x (PlayerBody.position p0) /\
  Vector3.z (PlayerBody.position p) == Vector3.z (PlayerBody.position p0) /\
  Vector3.x (PlayerBody.velocity p) == 0 /\
  Vector3.z (PlayerBody.velocity p) == 0 /\
  Vector3.y (PlayerBody.velocity p) == jumpSpeed k /\
  Vector3.y (PlayerBody.position p) == jumpHeight k.

(** ** game/NetworkManager.js: firing a bullet *)

Module Bullets.

(** What [Number(value)] gives: a finite number, or NaN or an infinity. *)
Inductive number : Type :=
| Finite (q : Q)
| NotFinite.


Record vector : Type := mkVector { x : number; y : number; z : number }.

(** The argument of [addBullet]; an absent field is [None]. *)
Record data : Type := mkData {
  position : option vector;
  direction : option vector;
  velocity : option vector;
  rotation : option vector
}.





End Bullets.


(** ** game/Shape.js and game/Player.js: two sums in binary64 *)

(** The numbers of the program are binary64 floating-point numbers, and its
    additions round.  The two computations below are written with the
    operations of the processor, to tell where a property of the exact
    model stops at a rounding. *)
Module Binary64.

(** [block.position.copy(this.position).add(relativePos)], on the height
    of a block of a piece that is not rotating. *)
Definition blockHeight (baseY offsetY : float) : float := (baseY + offsetY)%float.

(** [snapToGrid] on the height of the base of a piece whose lowest block
    has the stored offset [offsetY]. *)
Definition snappedBase (groundLevel baseY offsetY : float) : float :=
  let lowestY := blockHeight baseY offsetY in
  if (lowestY <=? groundLevel)%float then
    let adjustment := (groundLevel - lowestY)%float in
    (baseY + adjustment)%float
  else baseY.

(** The height of that block when [snapToGrid] has placed the blocks
    again. *)
Definition snappedHeight (groundLevel baseY offsetY : float) : float :=
  blockHeight (snappedBase groundLevel baseY offsetY) offsetY.

(** The vertical speed and the height of a player in the air after one more
    call of [Player.update]: [velocity.y -= gravity] and
    [position.clone().add(velocity)]. *)
Definition airStep (gravity : float) (state : float * float) : float * float :=
  let '(velocityY, positionY) := state in
  let velocityY' := (velocityY - gravity)%float in
  (velocityY', (positionY + velocityY')%float).

Fixpoint airSteps (gravity : float) (k : nat) (state : float * float) : float * float :=
  match k with
  | O => state
  | S k' => airStep gravity (airSteps gravity k' state)
  end.

(** The doubles the literals [0.2] and [0.005] of the constructor of a
    player stand for, and the height of a jump after [k] calls: it starts
    from the floor, at height 2, with the speed [jumpForce]. *)
Definition jumpForce : float := 0x1.999999999999ap-3.

Definition gravity : float := 0x1.47ae147ae147bp-8.

Definition heightInJump (k : nat) : float := snd (airSteps gravity k (jumpForce, 2%float)).

End Binary64.

(** ** Further concrete inputs *)

(** A blue piece of type [ty] as the constructor leaves it, moved to
    [(x, y, 0)]. *)
Definition pieceAt (ty : string) (x y : Q) : Shape.t :=
  spawned chordAxisAngle ty 255 (Vector3.mk x y 0).

(** A piece whose two blocks carry no offset. *)
Definition rebuiltPiece : Shape.t :=
  Shape.set_blocks (Shape.set_position (Shape.new "I" 255 false) (Vector3.mk 0 3 0))
    [Block.mk (Vector3.mk 0 3 0) None; Block.mk (Vector3.mk 0 4 0) None].

Definition someCalls : list call :=
  [CallUpdate 1000; CallMoveSideways 1; CallHandleShot; CallUpdate 2000; CallSnapToGrid].

(** A cache holding an active "I" piece at height 4, and the same cache
    with a bullet beside one of its blocks. *)
Definition fallingCache : NetworkManager.t := seenAt5Then 4 false true.


(** A cache holding an "I" piece received locked at the floor. *)
Definition lockedAtFloor : NetworkManager.t :=
  fst (NetworkManager.updateShapes chordAxisAngle
         [("c"%string, shapeRecord "I" 0 0 true false)] 100 freshManager).

Definition twoScores : list (string * ScoreData.t) :=
  [("loits-player-a"%string, ScoreData.mk (Some "Ada"%string) (Some 10) 0);
   ("loits-player-b"%string, ScoreData.mk (Some "Bob"%string) (Some 30) 0)].

Definition twoNicknames : list string := ["Ada"%string; "Bob"%string].

(** The cache after a listing that shows Bob online. *)
Definition cacheWithBob : NetworkManager.t :=
  fst (NetworkManager.updatePlayers onlineListing 100 freshManager).

(** The same client while the store says that the shape "k3x8" was spawned
    at 3900 ms: nothing of that shape has reached the cache yet. *)
Definition besideBobInFlight : NetworkManager.t :=
  withGameState cacheWithBob (GameState.mk (IdString "k3x8") (Some 3900)).

(** The draws of a spawn written when the clock reads 4000. *)
Definition drawAt4000 : NetworkManager.draw :=
  NetworkManager.mkDraw 0 0 (1 # 2) "k3x9" 4000.

(** A player after the constructor and a first [update]. *)
Definition playerOnFloor : PlayerBody.t :=
  PlayerBody.update (PlayerBody.new 3 4 (Some Vector3.zero)).

(** A remote player, built without a camera. *)
Definition remotePlayer : PlayerBody.t := PlayerBody.update (PlayerBody.new 3 4 None).



(** The patch of a fall to height 3 and the patch of a lock at the floor. *)
Definition fallPatch : ShapeState.t :=
  ShapeState.mk (Some (GameManager.positionPatch (Vector3.mk 0 3 0))) None None None None.

Definition lockPatch : ShapeState.t :=
  ShapeState.mk (Some (GameManager.positionPatch (Vector3.mk 0 0 0)))
                (Some true) (Some false) None None.

(** * Properties *)

(** ** Numbers *)

Lemma Qlt_bool_iff (a b : Q) : Qlt_bool a b = true <-> a < b.
Proof.
  unfold Qlt_bool. rewrite negb_true_iff. split.
  - intros H. apply Qnot_le_lt. intros Hle. apply Qle_bool_iff in Hle. congruence.
  - intros H. destruct (Qle_bool b a) eqn:E; [|reflexivity].
    apply Qle_bool_iff in E. exfalso. apply (Qlt_not_le _ _ H E).
Qed.

Lemma Qlt_bool_false_iff (a b : Q) : Qlt_bool a b = false <-> b <= a.
Proof.
  unfold Qlt_bool. rewrite negb_false_iff. apply Qle_bool_iff.
Qed.

Lemma Qle_bool_false_iff (a b : Q) : Qle_bool a b = false <-> b < a.
Proof.
  rewrite <- Qlt_bool_iff. unfold Qlt_bool. rewrite negb_true_iff. reflexivity.
Qed.

Lemma PI_positive : 0 < Math.PI.
Proof. reflexivity. Qed.

Lemma round_of_integer (n : Z) : Math.round (inject_Z n) = inject_Z n.
Proof.
  unfold Math.round. f_equal.
  unfold Qfloor, Qplus, inject_Z. simpl.
  symmetry. apply (Z.div_unique_pos (n * 2 + 1) 2 n 1); lia.
Qed.

Lemma round_idempotent (q : Q) : Math.round (Math.round q) = Math.round q.
Proof. unfold Math.round at 2 3. apply round_of_integer. Qed.

(** ** The blocks of a piece *)

Section ShapeFacts.

Variable rot : AxisAngle.

Lemma updateBlockPositions_blocks (s : Shape.t) :
  Shape.blocks (Shape.updateBlockPositions rot s)
  = map (Shape.placeBlock rot s) (Shape.blocks s).
Proof.
  unfold Shape.updateBlockPositions.
  destruct (Shape.blocks s) eqn:E; [rewrite E|]; reflexivity.
Qed.

Lemma placeBlock_offset (s : Shape.t) (b : Block.t) :
  Block.initialOffset (Shape.placeBlock rot s b) = Block.initialOffset b.
Proof.
  unfold Shape.placeBlock. destruct (Block.initialOffset b) eqn:E; [reflexivity|exact E].
Qed.

Lemma offsets_updateBlockPositions (s : Shape.t) :
  offsets (Shape.updateBlockPositions rot s) = offsets s.
Proof.
  unfold offsets. rewrite updateBlockPositions_blocks, map_map.
  apply map_ext. intros b. apply placeBlock_offset.
Qed.

(** [updateBlockPositions] writes the blocks and the centre only. *)
Lemma updateBlockPositions_fields (s : Shape.t) :
  let s' := Shape.updateBlockPositions rot s in
  Shape.position s' = Shape.position s /\
  Shape.isLocked s' = Shape.isLocked s /\
  Shape.isActive s' = Shape.isActive s /\
  Shape.isRotating s' = Shape.isRotating s /\
  Shape.rotationAxis s' = Shape.rotationAxis s /\
  Shape.currentRotation s' = Shape.currentRotation s /\
  Shape.targetRotation s' = Shape.targetRotation s /\
  Shape.rotationSpeed s' = Shape.rotationSpeed s /\
  Shape.groundLevel s' = Shape.groundLevel s /\
  Shape.fallSpeed s' = Shape.fallSpeed s /\
  Shape.lastFallTime s' = Shape.lastFallTime s.
Proof.
  unfold Shape.updateBlockPositions.
  destruct (Shape.blocks s); repeat split; reflexivity.
Qed.

Lemma relativePos_ext (a b : Shape.t) (off : Vector3.t) :
  Shape.isRotating a = Shape.isRotating b ->
  Shape.rotationAxis a = Shape.rotationAxis b ->
  Shape.currentRotation a = Shape.currentRotation b ->
  Shape.relativePos rot a off = Shape.relativePos rot b off.
Proof.
  unfold Shape.relativePos. intros -> -> ->. reflexivity.
Qed.

Lemma newPositions_ext (a b : Shape.t) (bs : list Block.t) :
  Shape.position a = Shape.position b ->
  Shape.rotationAxis a = Shape.rotationAxis b ->
  Shape.targetRotation a = Shape.targetRotation b ->
  Shape.newPositions rot a bs = Shape.newPositions rot b bs.
Proof.
  intros Hp Ha Ht. induction bs as [|blk bs IH]; simpl; [reflexivity|].
  rewrite IH, Hp, Ha, Ht. reflexivity.
Qed.

(** When every block has an offset, [newPositions] lists the turned
    positions. *)
Lemma newPositions_defined (s : Shape.t) (bs : list Block.t) :
  Forall (fun b => Block.initialOffset b <> None) bs ->
  exists ps,
    Shape.newPositions rot s bs = Some ps /\
    Forall2 (fun b p =>
               exists off, Block.initialOffset b = Some off /\
                 p = Vector3.add (Shape.position s)
                       (rot off (Shape.rotationAxis s) (Shape.targetRotation s)))
            bs ps.
Proof.
  induction 1 as [|b bs Hb _ IH]; simpl.
  - exists []. split; [reflexivity|constructor].
  - destruct IH as (ps & -> & HF).
    destruct (Block.initialOffset b) as [off|] eqn:E; [|congruence].
    eexists. split; [reflexivity|].
    constructor; [|exact HF]. exists off. split; [exact E|reflexivity].
Qed.

(** ** Rejected rotation *)

Lemma rejected_rotation_state (clockwise : bool) (s : Shape.t) :
  Shape.isRotating s = false ->
  Forall (fun b => Block.initialOffset b <> None) (Shape.blocks s) ->
  Exists (leavesGrid rot clockwise s) (Shape.blocks s) ->
  Shape.startRotation rot clockwise s
  = (Returns false,
     Shape.set_currentRotation
       (Shape.set_targetRotation
          (Shape.set_rotationSpeed s (quarterSpeed clockwise))
          (quarterTarget clockwise))
       0).
Proof.
  intros Hrot Hoff Hout.
  unfold Shape.startRotation. rewrite Hrot.
  set (s4 := Shape.set_targetRotation _ _).
  destruct (newPositions_defined s4 (Shape.blocks s4)) as (ps & Hps & HF).
  { exact Hoff. }
  rewrite Hps.
  assert (Hinvalid :
    forallb (fun newPos => Qle_bool (Math.abs (Vector3.x newPos)) (10 / 2)) ps = false).
  { clear Hps Hoff. change (Shape.blocks s4) with (Shape.blocks s) in HF.
    revert Hout. induction HF as [|b p bs ps' Hbp _ IH]; intros Hout.
    - inversion Hout.
    - simpl. apply andb_false_iff.
      inversion Hout as [b' l' Hb|b' l' Hrest]; subst.
      + left. destruct Hb as (off & Hoff1 & Hfar).
        destruct Hbp as (off' & Hoff2 & ->).
        rewrite Hoff1 in Hoff2. injection Hoff2 as <-.
        apply Qle_bool_false_iff.
        change (10 / 2 < Qabs (Vector3.x (Shape.position s)
                  + Vector3.x (rot off (Shape.rotationAxis s) (quarterTarget clockwise)))).
        assert (E : 10 / 2 == 5) by reflexivity.
        rewrite E. exact Hfar.
      + right. apply IH. exact Hrest. }
  rewrite Hinvalid. simpl.
  destruct s; simpl in *; subst. destruct clockwise; reflexivity.
Qed.

(** ** Lowest block and placement *)

Lemma lowestY_from (bs : list Block.t) (acc : option Q) :
  match
    fold_left
      (fun lo b =>
         let blockY := Vector3.y (Block.position b) in
         match lo with
         | None => Some blockY
         | Some l => if Qlt_bool blockY l then Some blockY else Some l
         end) bs acc
  with
  | None => acc = None /\ bs = []
  | Some lo =>
      (acc = Some lo \/ exists b, In b bs /\ Vector3.y (Block.position b) = lo) /\
      (forall a, acc = Some a -> lo <= a) /\
      (forall b, In b bs -> lo <= Vector3.y (Block.position b))
  end.
Proof.
  revert acc. induction bs as [|b bs IH]; intros acc; simpl.
  - destruct acc as [a|]; [|split; reflexivity].
    split; [left; reflexivity|]. split.
    + intros a' [= <-]. apply Qle_refl.
    + intros b [].
  - match goal with |- context [fold_left ?f bs ?a] => specialize (IH a) end.
    match goal with |- context [fold_left ?f bs ?a] => destruct (fold_left f bs a) as [lo|] end.
    + destruct IH as (Hwit & Hacc & Hall).
      destruct acc as [a|].
      * destruct (Qlt_bool (Vector3.y (Block.position b)) a) eqn:E.
        -- apply Qlt_bool_iff in E. repeat split.
           ++ destruct Hwit as [[= <-]|(b' & Hin & Hb')].
              ** right. exists b. split; [left; reflexivity|reflexivity].
              ** right. exists b'. split; [right; exact Hin|exact Hb'].
           ++ intros a' [= <-]. apply Qle_trans with (Vector3.y (Block.position b)).
              ** apply Hacc. reflexivity.
              ** apply Qlt_le_weak. exact E.
           ++ intros b' [<-|Hin]; [apply Hacc; reflexivity|apply Hall; exact Hin].
        -- apply Qlt_bool_false_iff in E. repeat split.
           ++ destruct Hwit as [Heq|(b' & Hin & Hb')].
              ** left. exact Heq.
              ** right. exists b'. split; [right; exact Hin|exact Hb'].
           ++ intros a' [= <-]. apply Hacc. reflexivity.
           ++ intros b' [<-|Hin]; [|apply Hall; exact Hin].
              apply Qle_trans with a; [apply Hacc; reflexivity|exact E].
      * repeat split.
        -- destruct Hwit as [[= <-]|(b' & Hin & Hb')].
           ++ right. exists b. split; [left; reflexivity|reflexivity].
           ++ right. exists b'. split; [right; exact Hin|exact Hb'].
        -- intros a' [=].
        -- intros b' [<-|Hin]; [apply Hacc; reflexivity|apply Hall; exact Hin].
    + destruct IH as (Hacc & _). destruct acc as [a|]; [|discriminate].
      destruct (Qlt_bool (Vector3.y (Block.position b)) a); discriminate.
Qed.

(** [lowestY] is the least of the block heights, and none when there is no
    block. *)
Lemma lowestY_spec (bs : list Block.t) :
  match Shape.lowestY bs with
  | None => bs = []
  | Some lo =>
      (exists b, In b bs /\ Vector3.y (Block.position b) = lo) /\
      (forall b, In b bs -> lo <= Vector3.y (Block.position b))
  end.
Proof.
  unfold Shape.lowestY. pose proof (lowestY_from bs None) as H.
  match goal with |- context [fold_left ?f bs None] => destruct (fold_left f bs None) as [lo|] end.
  - destruct H as (Hwit & _ & Hall). split; [|exact Hall].
    destruct Hwit as [[=]|Hw]. exact Hw.
  - apply H.
Qed.



Lemma placed_hasOffset (s : Shape.t) :
  placed rot s -> Forall hasOffset (Shape.blocks s).
Proof.
  unfold placed. apply Forall_impl. intros b (off & E & _).
  unfold hasOffset. congruence.
Qed.

Lemma eqv_refl (v : Vector3.t) : Vector3.eqv v v.
Proof. repeat split; apply Qeq_refl. Qed.

(** Blocks with offsets are in place after [updateBlockPositions]. *)
Lemma placed_updateBlockPositions (s : Shape.t) :
  Forall hasOffset (Shape.blocks s) -> placed rot (Shape.updateBlockPositions rot s).
Proof.
  intros H. unfold placed. rewrite updateBlockPositions_blocks.
  apply Forall_map. revert H. apply Forall_impl. intros b Hb.
  unfold hasOffset in Hb. unfold placedAt, Shape.placeBlock.
  destruct (Block.initialOffset b) as [off|] eqn:E; [|congruence].
  exists off. split; [reflexivity|]. simpl.
  destruct (updateBlockPositions_fields s) as (-> & _ & _ & Hr & Ha & Hc & _).
  rewrite (relativePos_ext (Shape.updateBlockPositions rot s) s off Hr Ha Hc).
  apply eqv_refl.
Qed.

Lemma placeBlock_ext (a b : Shape.t) (blk : Block.t) :
  Shape.position a = Shape.position b ->
  Shape.isRotating a = Shape.isRotating b ->
  Shape.rotationAxis a = Shape.rotationAxis b ->
  Shape.currentRotation a = Shape.currentRotation b ->
  Shape.placeBlock rot a blk = Shape.placeBlock rot b blk.
Proof.
  intros Hp Hr Ha Hc. unfold Shape.placeBlock.
  destruct (Block.initialOffset blk) as [off|]; [|reflexivity].
  rewrite Hp, (relativePos_ext a b off Hr Ha Hc). reflexivity.
Qed.


(** ** [snapToGrid] *)

(** The piece [snapToGrid] places the blocks of: [s] with the column
    rounded and the height lifted. *)
Lemma snapToGrid_unfold (s : Shape.t) :
  exists s2,
    Shape.snapToGrid rot s = Shape.updateBlockPositions rot s2 /\
    Shape.blocks s2 = Shape.blocks s /\
    Vector3.x (Shape.position s2) = Math.round (Vector3.x (Shape.position s)) /\
    Vector3.y (Shape.position s2) == Vector3.y (Shape.position s) + lift s /\
    Vector3.z (Shape.position s2) = Vector3.z (Shape.position s) /\
    Shape.isLocked s2 = Shape.isLocked s /\
    Shape.isActive s2 = Shape.isActive s /\
    Shape.isRotating s2 = Shape.isRotating s /\
    Shape.rotationAxis s2 = Shape.rotationAxis s /\
    Shape.currentRotation s2 = Shape.currentRotation s /\
    Shape.targetRotation s2 = Shape.targetRotation s /\
    Shape.rotationSpeed s2 = Shape.rotationSpeed s /\
    Shape.groundLevel s2 = Shape.groundLevel s /\
    Shape.fallSpeed s2 = Shape.fallSpeed s /\
    Shape.lastFallTime s2 = Shape.lastFallTime s.
Proof.
  unfold Shape.snapToGrid, lift. cbn [Shape.blocks Shape.set_position Shape.groundLevel].
  destruct (Shape.lowestY (Shape.blocks s)) as [lo|].
  - destruct (Qle_bool lo (Shape.groundLevel s)).
    + eexists. split; [reflexivity|]. cbn. repeat split; try reflexivity.
    + eexists. split; [reflexivity|]. cbn. repeat split; try reflexivity.
      rewrite Qplus_0_r. reflexivity.
  - eexists. split; [reflexivity|]. cbn. repeat split; try reflexivity.
    rewrite Qplus_0_r. reflexivity.
Qed.

Lemma Forall2_map_same {A B : Type} (P : A -> B -> Prop) (f : A -> B) (l : list A) :
  Forall (fun a => P a (f a)) l -> Forall2 P l (map f l).
Proof. induction 1; simpl; constructor; assumption. Qed.


(** After [snapToGrid] every block of a placed piece has moved up by
    [lift]. *)
Lemma snapToGrid_heights (s : Shape.t) :
  placed rot s ->
  Forall2
    (fun b b' =>
       Block.initialOffset b' = Block.initialOffset b /\
       Vector3.y (Block.position b') == Vector3.y (Block.position b) + lift s)
    (Shape.blocks s) (Shape.blocks (Shape.snapToGrid rot s)).
Proof.
  intros Hpl.
  destruct (snapToGrid_unfold s)
    as (s2 & -> & Hb & _ & Hy & _ & _ & _ & Hr & Ha & Hc & _).
  rewrite updateBlockPositions_blocks, Hb.
  apply Forall2_map_same. revert Hpl. apply Forall_impl.
  intros b (off & Hoff & _ & Hby & _).
  split; [apply placeBlock_offset|].
  unfold Shape.placeBlock. rewrite Hoff. cbn [Block.position].
  rewrite (relativePos_ext s2 s off Hr Ha Hc).
  cbn [Vector3.add Vector3.y] in *. rewrite Hy, Hby. ring.
Qed.

Lemma Forall2_In_l {A B : Type} (P : A -> B -> Prop) (l : list A) (l' : list B) (a : A) :
  Forall2 P l l' -> In a l -> exists b, In b l' /\ P a b.
Proof.
  induction 1 as [|x y l l' Hxy _ IH]; intros Hin; [destruct Hin|].
  destruct Hin as [<-|Hin].
  - exists y. split; [left; reflexivity|exact Hxy].
  - destruct (IH Hin) as (b & Hb & HP). exists b. split; [right; exact Hb|exact HP].
Qed.

Lemma Forall2_In_r {A B : Type} (P : A -> B -> Prop) (l : list A) (l' : list B) (b : B) :
  Forall2 P l l' -> In b l' -> exists a, In a l /\ P a b.
Proof.
  induction 1 as [|x y l l' Hxy _ IH]; intros Hin; [destruct Hin|].
  destruct Hin as [<-|Hin].
  - exists x. split; [left; reflexivity|exact Hxy].
  - destruct (IH Hin) as (a & Ha & HP). exists a. split; [right; exact Ha|exact HP].
Qed.

(** The lowest block of a list whose heights are those of another list
    plus a constant. *)
Lemma lowestY_shifted (bs bs' : list Block.t) (c lo : Q) :
  Forall2 (fun b b' => Vector3.y (Block.position b') == Vector3.y (Block.position b) + c)
          bs bs' ->
  Shape.lowestY bs = Some lo ->
  exists lo', Shape.lowestY bs' = Some lo' /\ lo' == lo + c.
Proof.
  intros HF Hlo.
  pose proof (lowestY_spec bs) as Hs. rewrite Hlo in Hs.
  destruct Hs as ((bw & Hbw & Hyw) & Hall).
  pose proof (lowestY_spec bs') as Hs'.
  destruct (Shape.lowestY bs') as [lo'|].
  - exists lo'. split; [reflexivity|].
    destruct Hs' as ((bw' & Hbw' & Hyw') & Hall').
    apply Qle_antisym.
    + destruct (Forall2_In_l _ _ _ _ HF Hbw) as (b' & Hb' & Hy).
      rewrite <- Hyw, <- Hy. apply Hall'. exact Hb'.
    + destruct (Forall2_In_r _ _ _ _ HF Hbw') as (b & Hb & Hy).
      rewrite <- Hyw', Hy. apply Qplus_le_l. apply Hall. exact Hb.
  - subst bs'. inversion HF; subst. discriminate.
Qed.

(** ** Gravity *)


Lemma lift_reaches_ground (s : Shape.t) (b : Block.t) :
  In b (Shape.blocks s) ->
  Shape.groundLevel s <= Vector3.y (Block.position b) + lift s.
Proof.
  intros Hin. unfold lift.
  pose proof (lowestY_spec (Shape.blocks s)) as Hs.
  destruct (Shape.lowestY (Shape.blocks s)) as [lo|].
  - destruct Hs as (_ & Hall). specialize (Hall b Hin).
    destruct (Qle_bool lo (Shape.groundLevel s)) eqn:E.
    + lra.
    + apply Qle_bool_false_iff in E. lra.
  - rewrite Hs in Hin. destruct Hin.
Qed.


(** ** The rotation step *)

Lemma snapToGrid_fields (s : Shape.t) :
  let s' := Shape.snapToGrid rot s in
  Shape.isLocked s' = Shape.isLocked s /\
  Shape.isActive s' = Shape.isActive s /\
  Shape.isRotating s' = Shape.isRotating s /\
  Shape.rotationAxis s' = Shape.rotationAxis s /\
  Shape.currentRotation s' = Shape.currentRotation s /\
  Shape.targetRotation s' = Shape.targetRotation s /\
  Shape.rotationSpeed s' = Shape.rotationSpeed s /\
  Shape.groundLevel s' = Shape.groundLevel s /\
  Shape.fallSpeed s' = Shape.fallSpeed s /\
  Shape.lastFallTime s' = Shape.lastFallTime s /\
  Vector3.x (Shape.position s') = Math.round (Vector3.x (Shape.position s)) /\
  offsets s' = offsets s.
Proof.
  cbv zeta.
  destruct (snapToGrid_unfold s)
    as (s2 & -> & Hb & Hx & _ & _ & H1 & H2 & H3 & H4 & H5 & H6 & H7 & H8 & H9 & H10).
  destruct (updateBlockPositions_fields s2)
    as (Hp & -> & -> & -> & -> & -> & -> & -> & -> & -> & ->).
  rewrite Hp, offsets_updateBlockPositions. unfold offsets. rewrite Hb.
  repeat split; assumption.
Qed.



Lemma rotationStep_idle (s : Shape.t) :
  Shape.isRotating s = false -> Shape.rotationStep rot s = s.
Proof. intros H. unfold Shape.rotationStep. rewrite H. reflexivity. Qed.

Lemma rotationStep_fields (s : Shape.t) :
  let s' := Shape.rotationStep rot s in
  Shape.isLocked s' = Shape.isLocked s /\
  Shape.isActive s' = Shape.isActive s /\
  Shape.rotationAxis s' = Shape.rotationAxis s /\
  Shape.groundLevel s' = Shape.groundLevel s /\
  Shape.fallSpeed s' = Shape.fallSpeed s /\
  Shape.lastFallTime s' = Shape.lastFallTime s /\
  (Vector3.x (Shape.position s') = Vector3.x (Shape.position s) \/
   Vector3.x (Shape.position s') = Math.round (Vector3.x (Shape.position s))).
Proof.
  cbv zeta. unfold Shape.rotationStep.
  destruct (Shape.isRotating s); [|repeat split; try reflexivity; left; reflexivity].
  match goal with |- context [Shape.updateBlockPositions rot ?a] =>
    destruct (updateBlockPositions_fields a)
      as (-> & -> & -> & _ & -> & _ & _ & _ & -> & -> & ->) end.
  destruct (Qle_bool _ _).
  - match goal with |- context [Shape.snapToGrid rot ?a] =>
      destruct (snapToGrid_fields a)
        as (-> & -> & _ & -> & _ & _ & _ & -> & -> & -> & -> & _) end.
    cbn. repeat split; try reflexivity. right. reflexivity.
  - cbn. repeat split; try reflexivity. left. reflexivity.
Qed.


Lemma update_unlocked (t : Q) (s : Shape.t) :
  Shape.isLocked s = false ->
  Shape.update rot t s = Shape.gravityStep rot t (Shape.rotationStep rot s).
Proof. intros H. unfold Shape.update. rewrite H. reflexivity. Qed.

Lemma update_locked (t : Q) (s : Shape.t) :
  Shape.isLocked s = true -> Shape.update rot t s = s.
Proof. intros H. unfold Shape.update. rewrite H. reflexivity. Qed.

Lemma lift_nonneg (s : Shape.t) : 0 <= lift s.
Proof.
  unfold lift. destruct (Shape.lowestY (Shape.blocks s)) as [lo|]; [|lra].
  destruct (Qle_bool lo (Shape.groundLevel s)) eqn:E; [|lra].
  apply Qle_bool_iff in E. lra.
Qed.

Lemma lift_clear (s : Shape.t) : clearOfGround s -> lift s = 0.
Proof.
  unfold clearOfGround, lift. intros H.
  pose proof (lowestY_spec (Shape.blocks s)) as Hs.
  destruct (Shape.lowestY (Shape.blocks s)) as [lo|]; [|reflexivity].
  destruct Hs as ((b & Hb & Hy) & _).
  rewrite Forall_forall in H. specialize (H b Hb). rewrite Hy in H.
  destruct (Qle_bool lo (Shape.groundLevel s)) eqn:E; [|reflexivity].
  apply Qle_bool_iff in E. lra.
Qed.




(** ** The fall of the "I" piece *)


Lemma run_locked (ts : list Q) (s : Shape.t) :
  Shape.isLocked s = true -> run rot ts s = s.
Proof.
  intros H. induction ts as [|t ts IH]; [reflexivity|].
  simpl. rewrite (update_locked t s H). exact IH.
Qed.





End ShapeFacts.

(** ** Lengths and quarter turns *)

Lemma norm_le_iff (v : Vector3.t) (r : Q) : Vector3.norm v <= r <-> within r v.
Proof.
  unfold Vector3.norm, within. rewrite !Q.max_lub_iff. tauto.
Qed.

Lemma within_norm (v : Vector3.t) : within (Vector3.norm v) v.
Proof. apply norm_le_iff. apply Qle_refl. Qed.

Lemma norm_nonneg (v : Vector3.t) : 0 <= Vector3.norm v.
Proof.
  unfold Vector3.norm.
  apply Qle_trans with (Qabs (Vector3.x v)); [apply Qabs_nonneg|apply Q.le_max_l].
Qed.

Lemma within_exactTurn (cw : bool) (r : Q) (v : Vector3.t) :
  within r v -> within r (exactTurn cw v).
Proof.
  unfold within, exactTurn, quarterTurn. intros (Hx & Hy & Hz).
  destruct cw; cbn [Vector3.x Vector3.y Vector3.z]; rewrite ?Qabs_opp; auto.
Qed.

Lemma within_turns_exact (cw : bool) (r : Q) (k : nat) (v : Vector3.t) :
  within r v -> within r (turns (exactTurn cw) k v).
Proof.
  intros H. induction k as [|k IH]; [exact H|]. simpl. apply within_exactTurn. exact IH.
Qed.

Lemma abs_bound (a r : Q) : Qabs a <= r <-> - r <= a /\ a <= r.
Proof. apply Qabs_Qle_condition. Qed.

(** One more turn: the error of [k] turns grows by [eps] times the length
    reached. *)
Lemma turn_error_step (cw : bool) (R : Vector3.t -> Vector3.t) (eps n e : Q)
    (w w' : Vector3.t) :
  0 <= eps -> 0 <= n -> 0 <= e ->
  (forall v, Vector3.norm (Vector3.sub (R v) (exactTurn cw v)) <= eps * Vector3.norm v) ->
  within n w' ->
  within (e * n) (Vector3.sub w w') ->
  within ((eps * (1 + e) + e) * n) (Vector3.sub (R w) (exactTurn cw w')).
Proof.
  intros Heps Hn He Hacc Hw' Hd.
  assert (Hw : Vector3.norm w <= (1 + e) * n).
  { apply norm_le_iff. destruct Hw' as (Hx & Hy & Hz), Hd as (Dx & Dy & Dz).
    unfold within. cbn [Vector3.sub Vector3.x Vector3.y Vector3.z] in *.
    repeat match goal with H : Qabs _ <= _ |- _ => apply abs_bound in H end.
    repeat split; apply abs_bound; lra. }
  assert (Hprod : eps * Vector3.norm w <= eps * ((1 + e) * n)).
  { rewrite (Qmult_comm eps (Vector3.norm w)), (Qmult_comm eps ((1 + e) * n)).
    apply Qmult_le_compat_r; assumption. }
  pose proof (Hacc w) as Hrw. apply norm_le_iff in Hrw.
  destruct Hrw as (Rx & Ry & Rz), Hd as (Dx & Dy & Dz).
  unfold within, exactTurn, quarterTurn in *.
  destruct cw; cbn [Vector3.sub Vector3.x Vector3.y Vector3.z] in *;
    repeat match goal with H : Qabs _ <= _ |- _ => apply abs_bound in H end;
    repeat split; apply abs_bound; lra.
Qed.

Lemma turnError_nonneg (eps : Q) (k : nat) : 0 <= eps -> 0 <= turnError eps k.
Proof.
  intros Heps. induction k as [|k IH]; simpl; [apply Qle_refl|].
  assert (0 <= eps * (1 + turnError eps k)).
  { apply Qmult_le_0_compat; [exact Heps|lra]. }
  lra.
Qed.

Lemma turns_error (cw : bool) (R : Vector3.t -> Vector3.t) (eps : Q) (k : nat)
    (v : Vector3.t) :
  0 <= eps ->
  (forall v, Vector3.norm (Vector3.sub (R v) (exactTurn cw v)) <= eps * Vector3.norm v) ->
  within (turnError eps k * Vector3.norm v)
         (Vector3.sub (turns R k v) (turns (exactTurn cw) k v)).
Proof.
  intros Heps Hacc. induction k as [|k IH].
  - simpl. unfold within. cbn [Vector3.sub Vector3.x Vector3.y Vector3.z].
    assert (E : forall a, Qabs (a - a) <= 0 * Vector3.norm v).
    { intros a. setoid_replace (a - a) with 0 by ring. rewrite Qmult_0_l. apply Qle_refl. }
    repeat split; apply E.
  - simpl. apply turn_error_step.
    + exact Heps.
    + apply norm_nonneg.
    + apply turnError_nonneg. exact Heps.
    + exact Hacc.
    + apply within_turns_exact. apply within_norm.
    + exact IH.
Qed.

Lemma four_exact_turns (cw : bool) (v : Vector3.t) :
  Vector3.eqv (turns (exactTurn cw) 4 v) v.
Proof.
  destruct v as [a b c]. destruct cw; simpl; unfold Vector3.eqv; simpl;
    repeat split; ring.
Qed.

Lemma turnError_four (eps : Q) : turnError eps 4 == (1 + eps) ^ 4 - 1.
Proof. simpl. ring. Qed.

(** Four turns, each within [eps] of the exact quarter turn, bring a vector
    back within [(1 + eps)^4 - 1] of itself. *)
Lemma four_turns_close (cw : bool) (R : Vector3.t -> Vector3.t) (eps : Q) (v : Vector3.t) :
  0 <= eps ->
  (forall v, Vector3.norm (Vector3.sub (R v) (exactTurn cw v)) <= eps * Vector3.norm v) ->
  Vector3.norm (Vector3.sub (turns R 4 v) v) <= ((1 + eps) ^ 4 - 1) * Vector3.norm v.
Proof.
  intros Heps Hacc. apply norm_le_iff.
  pose proof (turns_error cw R eps 4 v Heps Hacc) as H.
  destruct (four_exact_turns cw v) as (Ex & Ey & Ez).
  unfold within in *. cbn [Vector3.sub Vector3.x Vector3.y Vector3.z] in *.
  rewrite <- (turnError_four eps).
  rewrite Ex, Ey, Ez in H. exact H.
Qed.

(** ** Rotations run to their end *)

Section RotationFacts.

Variable rot : AxisAngle.

Lemma startRotation_accepted (cw : bool) (s : Shape.t) :
  fst (Shape.startRotation rot cw s) = Returns true ->
  rotationOf rot cw s (snd (Shape.startRotation rot cw s)).
Proof.
  unfold Shape.startRotation.
  destruct (Shape.isRotating s); [discriminate|].
  match goal with |- context [Shape.newPositions rot ?a ?b] =>
    destruct (Shape.newPositions rot a b) as [ps|]; [|discriminate] end.
  destruct (negb _); [discriminate|].
  intros _. cbn [snd]. unfold rotationOf.
  match goal with |- context [Shape.updateBlockPositions rot ?a] =>
    destruct (updateBlockPositions_fields rot a)
      as (_ & _ & _ & -> & -> & _ & -> & _);
    rewrite (offsets_updateBlockPositions rot a) end.
  split; [reflexivity|]. left. repeat split.
Qed.

Lemma gravityStep_keeps (t : Q) (s : Shape.t) :
  let s' := Shape.gravityStep rot t s in
  Shape.isRotating s' = Shape.isRotating s /\
  Shape.targetRotation s' = Shape.targetRotation s /\
  Shape.rotationAxis s' = Shape.rotationAxis s /\
  offsets s' = offsets s.
Proof.
  cbv zeta. unfold Shape.gravityStep.
  destruct (Qle_bool _ _); [|repeat split; reflexivity].
  match goal with |- context [Shape.updateBlockPositions rot ?a] =>
    destruct (updateBlockPositions_fields rot a)
      as (_ & _ & _ & -> & -> & _ & -> & _);
    rewrite (offsets_updateBlockPositions rot a) end.
  destruct (Shape.wouldCollide _ _ _).
  - destruct (snapToGrid_fields rot s)
      as (_ & _ & Hr & Ha & _ & Ht & _ & _ & _ & _ & _ & Ho).
    cbn. unfold offsets in *. cbn. repeat split; assumption.
  - repeat split; reflexivity.
Qed.

Lemma offsets_baked (s : Shape.t) (a : Q) (bs : list Block.t) :
  map Block.initialOffset (map (Shape.bakeOffset rot s a) bs)
  = map (option_map (fun v => rot v (Shape.rotationAxis s) a)) (map Block.initialOffset bs).
Proof.
  rewrite !map_map. apply map_ext. intros b. unfold Shape.bakeOffset.
  destruct (Block.initialOffset b) eqn:E; cbn; [reflexivity|exact E].
Qed.

Lemma rotationStep_rotationOf (cw : bool) (s0 a : Shape.t) :
  rotationOf rot cw s0 a -> rotationOf rot cw s0 (Shape.rotationStep rot a).
Proof.
  intros (Hax & Hstate). unfold Shape.rotationStep.
  destruct (Shape.isRotating a) eqn:Erot.
  - destruct Hstate as [(_ & Htarget & Hoff)|(Hr & _)]; [|congruence].
    match goal with |- context [Shape.updateBlockPositions rot ?x] =>
      unfold rotationOf;
      destruct (updateBlockPositions_fields rot x)
        as (_ & _ & _ & -> & -> & _ & -> & _);
      rewrite (offsets_updateBlockPositions rot x) end.
    destruct (Qle_bool _ _).
    + match goal with |- context [Shape.snapToGrid rot ?x] =>
        destruct (snapToGrid_fields rot x)
          as (_ & _ & -> & -> & _ & _ & _ & _ & _ & _ & _ & ->) end.
      cbn. split; [exact Hax|]. right. split; [reflexivity|].
      unfold offsets. cbn. rewrite offsets_baked. cbn.
      fold (offsets a). rewrite Hoff, Htarget, Hax. reflexivity.
    + cbn. split; [exact Hax|]. left.
      split; [exact Erot|]. split; [exact Htarget|exact Hoff].
  - unfold rotationOf. rewrite Erot. exact (conj Hax Hstate).
Qed.

Lemma update_rotationOf (cw : bool) (s0 a : Shape.t) (t : Q) :
  rotationOf rot cw s0 a -> rotationOf rot cw s0 (Shape.update rot t a).
Proof.
  intros H. unfold Shape.update. destruct (Shape.isLocked a); [exact H|].
  apply rotationStep_rotationOf in H. revert H.
  generalize (Shape.rotationStep rot a). intros b H.
  destruct (gravityStep_keeps t b) as (Hr & Ht & Ha & Ho).
  unfold rotationOf in *. rewrite Hr, Ht, Ha, Ho. exact H.
Qed.

Lemma run_rotationOf (cw : bool) (s0 : Shape.t) (ts : list Q) :
  forall a, rotationOf rot cw s0 a -> rotationOf rot cw s0 (run rot ts a).
Proof.
  induction ts as [|t ts IH]; intros a H; [exact H|].
  simpl. apply IH. apply update_rotationOf. exact H.
Qed.

(** A completed rotation turns every stored offset once. *)
Lemma completedRotation_offsets (cw : bool) (s s' : Shape.t) :
  completedRotation rot cw s s' ->
  Shape.rotationAxis s' = Shape.rotationAxis s /\
  offsets s' = map (option_map (turnBy rot s cw)) (offsets s).
Proof.
  intros (Hacc & ts & -> & Hdone).
  pose proof (run_rotationOf cw s ts _ (startRotation_accepted cw s Hacc)) as (Hax & Hst).
  split; [exact Hax|].
  destruct Hst as [(Hr & _)|(_ & Ho)]; [congruence|exact Ho].
Qed.

Lemma turns_shift (f : Vector3.t -> Vector3.t) (k : nat) (v : Vector3.t) :
  turns f k (f v) = f (turns f k v).
Proof. induction k as [|k IH]; simpl; [reflexivity|]. rewrite IH. reflexivity. Qed.

Lemma completedRotations_offsets (cw : bool) (k : nat) :
  forall s s',
    completedRotations rot cw k s s' ->
    Shape.rotationAxis s' = Shape.rotationAxis s /\
    offsets s' = map (option_map (turns (turnBy rot s cw) k)) (offsets s).
Proof.
  induction k as [|k IH]; intros s s' H; simpl in H.
  - subst s'. split; [reflexivity|].
    rewrite <- (map_id (offsets s)) at 1. apply map_ext. intros [v|]; reflexivity.
  - destruct H as (mid & Hone & Hrest).
    destruct (completedRotation_offsets cw s mid Hone) as (Hax & Ho).
    destruct (IH mid s' Hrest) as (Hax' & Ho').
    split; [congruence|].
    rewrite Ho', Ho, map_map. apply map_ext. intros [v|]; [|reflexivity].
    cbn. f_equal. unfold turnBy at 1 3. rewrite Hax.
    fold (turnBy rot s cw). apply (turns_shift (turnBy rot s cw) k v).
Qed.

(** C6.  Four rotations in the same direction, each accepted by
    [startRotation] and brought to its end by calls of [update], return
    every stored offset to its original value within tolerance: when the
    quarter turn of the library is within [eps] (relative to the length of
    the vector) of the exact one, every offset ends within
    [(1 + eps)^4 - 1] times its length from where it started; blocks without
    a stored offset stay without one.  This holds for every piece, hence for
    the five types. *)
Theorem C6_four_rotations_restore_offsets (cw : bool) (eps : Q) (s s' : Shape.t) :
  0 <= eps ->
  (forall v,
      Vector3.norm
        (Vector3.sub (rot v (Shape.rotationAxis s) (finalRotation cw)) (exactTurn cw v))
      <= eps * Vector3.norm v) ->
  completedRotations rot cw 4 s s' ->
  Forall2 (offsetWithin ((1 + eps) ^ 4 - 1)) (offsets s) (offsets s').
Proof.
  intros Heps Hacc Hfour.
  destruct (completedRotations_offsets cw 4 s s' Hfour) as (_ & ->).
  apply Forall2_map_same. apply Forall_forall. intros [v|] _; [|exact I].
  cbn [option_map offsetWithin].
  apply (four_turns_close cw (turnBy rot s cw) eps v Heps Hacc).
Qed.

(** *** Twenty calls of [update] end a rotation *)

Lemma target_reached (cw : bool) (j : nat) :
  (j < 20)%nat ->
  Qle_bool (Math.abs (quarterTarget cw)) (Math.abs (angleAfter cw j + quarterSpeed cw))
  = negb (j <? 19)%nat.
Proof.
  intros Hj.
  do 20 (destruct j as [|j]; [destruct cw; vm_compute; reflexivity|]). lia.
Qed.

Lemma gravityStep_keeps_angle (t : Q) (s : Shape.t) :
  Shape.currentRotation (Shape.gravityStep rot t s) = Shape.currentRotation s /\
  Shape.rotationSpeed (Shape.gravityStep rot t s) = Shape.rotationSpeed s.
Proof.
  unfold Shape.gravityStep.
  destruct (Qle_bool _ _); [|split; reflexivity].
  match goal with |- context [Shape.updateBlockPositions rot ?a] =>
    destruct (updateBlockPositions_fields rot a)
      as (_ & _ & _ & _ & _ & -> & _ & -> & _) end.
  destruct (Shape.wouldCollide _ _ _).
  - destruct (snapToGrid_fields rot s)
      as (_ & _ & _ & _ & Hc & _ & Hs & _).
    cbn. split; assumption.
  - split; reflexivity.
Qed.

Lemma update_turning (cw : bool) (j : nat) (t : Q) (a : Shape.t) :
  (j < 20)%nat ->
  Shape.isLocked a = false ->
  turning cw j a ->
  if (j <? 19)%nat then turning cw (S j) (Shape.update rot t a)
  else Shape.isRotating (Shape.update rot t a) = false.
Proof.
  intros Hj Hun (Hr & Hc & Hs & Ht).
  rewrite (update_unlocked rot t a Hun).
  destruct (gravityStep_keeps t (Shape.rotationStep rot a)) as (Er & Et & _ & _).
  destruct (gravityStep_keeps_angle t (Shape.rotationStep rot a)) as (Ec & Es).
  unfold turning. rewrite Er, Et, Ec, Es. clear Er Et Ec Es.
  unfold Shape.rotationStep. rewrite Hr.
  match goal with |- context [Shape.updateBlockPositions rot ?x] =>
    destruct (updateBlockPositions_fields rot x)
      as (_ & _ & _ & -> & _ & -> & -> & -> & _) end.
  cbn [Shape.targetRotation Shape.currentRotation Shape.set_currentRotation].
  rewrite Ht, Hc, Hs, (target_reached cw j Hj).
  destruct (j <? 19)%nat; cbn [negb].
  - cbn. repeat split; assumption.
  - match goal with |- context [Shape.snapToGrid rot ?x] =>
      destruct (snapToGrid_fields rot x) as (_ & _ & -> & _) end.
    reflexivity.
Qed.

Lemma run_idle (ts : list Q) :
  forall a, Shape.isRotating a = false -> Shape.isRotating (run rot ts a) = false.
Proof.
  induction ts as [|t ts IH]; intros a H; [exact H|].
  simpl. apply IH. unfold Shape.update.
  destruct (Shape.isLocked a); [exact H|].
  rewrite (rotationStep_idle rot a H).
  destruct (gravityStep_keeps t a) as (-> & _). exact H.
Qed.

Lemma run_turning (cw : bool) (ts : list Q) :
  forall (j : nat) (a : Shape.t),
    (j < 20)%nat ->
    (20 <= j + List.length ts)%nat ->
    turning cw j a ->
    Shape.isLocked (run rot ts a) = false ->
    Shape.isRotating (run rot ts a) = false.
Proof.
  induction ts as [|t ts IH]; intros j a Hj Hlen Hturn Hun.
  - simpl in Hlen. lia.
  - simpl in *.
    destruct (Shape.isLocked a) eqn:Ea.
    { rewrite (update_locked rot t a Ea), (run_locked rot ts a Ea) in Hun. congruence. }
    pose proof (update_turning cw j t a Hj Ea Hturn) as Hstep.
    destruct (j <? 19)%nat eqn:Ej.
    + apply Nat.ltb_lt in Ej. apply (IH (S j)); [lia|lia|exact Hstep|exact Hun].
    + apply run_idle. exact Hstep.
Qed.

(** An accepted rotation is over after twenty calls of [update], at any
    times, provided the piece has not locked meanwhile. *)
Lemma rotation_completes (cw : bool) (s : Shape.t) (ts : list Q) :
  fst (Shape.startRotation rot cw s) = Returns true ->
  (20 <= List.length ts)%nat ->
  Shape.isLocked (run rot ts (snd (Shape.startRotation rot cw s))) = false ->
  completedRotation rot cw s (run rot ts (snd (Shape.startRotation rot cw s))).
Proof.
  intros Hacc Hlen Hun. split; [exact Hacc|]. exists ts. split; [reflexivity|].
  apply (run_turning cw ts 0); [lia|lia| |exact Hun].
  revert Hacc. unfold Shape.startRotation.
  destruct (Shape.isRotating s); [discriminate|].
  match goal with |- context [Shape.newPositions rot ?a ?b] =>
    destruct (Shape.newPositions rot a b) as [ps|]; [|discriminate] end.
  destruct (negb _); [discriminate|].
  intros _. cbn [snd]. unfold turning.
  match goal with |- context [Shape.updateBlockPositions rot ?a] =>
    destruct (updateBlockPositions_fields rot a)
      as (_ & _ & _ & -> & _ & -> & -> & -> & _) end.
  cbn. repeat split.
Qed.

End RotationFacts.

(** ** Maps keyed by strings *)

Section StringMaps.

Context {V : Type}.
Implicit Types (m : list (string * V)) (k : string).

Lemma get_set_same k (v : V) m : JsMap.get String.eqb k (JsMap.set String.eqb k v m) = Some v.
Proof.
  induction m as [|[k' v'] m IH]; simpl.
  - rewrite String.eqb_refl. reflexivity.
  - destruct (String.eqb k k') eqn:E; simpl; rewrite E; [reflexivity|exact IH].
Qed.

Lemma get_set_other k k' (v : V) m :
  k <> k' -> JsMap.get String.eqb k (JsMap.set String.eqb k' v m) = JsMap.get String.eqb k m.
Proof.
  intros Hne. induction m as [|[k2 v2] m IH]; simpl.
  - apply String.eqb_neq in Hne. rewrite Hne. reflexivity.
  - destruct (String.eqb k' k2) eqn:E; simpl.
    + apply String.eqb_eq in E. subst k2.
      apply String.eqb_neq in Hne. rewrite Hne. reflexivity.
    + rewrite IH. reflexivity.
Qed.

Lemma get_delete_same k m : JsMap.get String.eqb k (JsMap.delete String.eqb k m) = None.
Proof.
  induction m as [|[k' v'] m IH]; simpl; [reflexivity|].
  destruct (String.eqb k k') eqn:E; simpl; [exact IH|]. rewrite E. exact IH.
Qed.

Lemma get_delete_other k k' m :
  k <> k' ->
  JsMap.get String.eqb k (JsMap.delete String.eqb k' m) = JsMap.get String.eqb k m.
Proof.
  intros Hne. induction m as [|[k2 v2] m IH]; simpl; [reflexivity|].
  destruct (String.eqb k' k2) eqn:E; simpl.
  - apply String.eqb_eq in E. subst k2.
    apply String.eqb_neq in Hne. rewrite Hne. exact IH.
  - rewrite IH. reflexivity.
Qed.

Lemma get_none_iff k m : JsMap.get String.eqb k m = None <-> ~ In k (JsMap.keys m).
Proof.
  induction m as [|[k' v'] m IH]; simpl.
  - tauto.
  - destruct (String.eqb k k') eqn:E.
    + apply String.eqb_eq in E. subst. split; [discriminate|]. intros H. exfalso. auto.
    + apply String.eqb_neq in E. rewrite IH. split.
      * intros H [Heq|Hin]; [congruence|auto].
      * intros H Hin. apply H. right. exact Hin.
Qed.

Lemma get_in k (v : V) m : JsMap.get String.eqb k m = Some v -> In (k, v) m.
Proof.
  induction m as [|[k' v'] m IH]; simpl; [discriminate|].
  destruct (String.eqb k k') eqn:E.
  - apply String.eqb_eq in E. subst. intros [= ->]. left. reflexivity.
  - intros H. right. apply IH. exact H.
Qed.

Lemma in_get k (v : V) m : NoDup (JsMap.keys m) -> In (k, v) m -> JsMap.get String.eqb k m = Some v.
Proof.
  induction m as [|[k' v'] m IH]; simpl; intros Hnd Hin; [destruct Hin|].
  inversion Hnd as [|? ? Hnotin Hnd']; subst.
  destruct Hin as [[= -> ->]|Hin].
  - rewrite String.eqb_refl. reflexivity.
  - destruct (String.eqb k k') eqn:E.
    + apply String.eqb_eq in E. subst. exfalso. apply Hnotin.
      apply (in_map fst) in Hin. exact Hin.
    + apply IH; assumption.
Qed.

Lemma keys_set_present k (v : V) m :
  In k (JsMap.keys m) -> JsMap.keys (JsMap.set String.eqb k v m) = JsMap.keys m.
Proof.
  induction m as [|[k' v'] m IH]; simpl; intros Hin; [destruct Hin|].
  destruct (String.eqb k k') eqn:E; simpl; [reflexivity|].
  f_equal. apply IH. destruct Hin as [Heq|Hin]; [|exact Hin].
  apply String.eqb_neq in E. congruence.
Qed.

Lemma keys_set k (v : V) m k2 :
  In k2 (JsMap.keys (JsMap.set String.eqb k v m)) <-> k2 = k \/ In k2 (JsMap.keys m).
Proof.
  induction m as [|[k' v'] m IH]; simpl.
  - split; [intros [H|[]]; left; congruence|intros [H|[]]; left; congruence].
  - destruct (String.eqb k k') eqn:E; simpl.
    + apply String.eqb_eq in E. subst. intuition congruence.
    + rewrite IH. intuition congruence.
Qed.

Lemma keys_delete k m k2 :
  In k2 (JsMap.keys (JsMap.delete String.eqb k m)) -> In k2 (JsMap.keys m).
Proof.
  induction m as [|[k' v'] m IH]; simpl; [auto|].
  destruct (String.eqb k k'); simpl; [auto|]. intros [H|H]; auto.
Qed.

End StringMaps.

Lemma existsb_eqb_in (k : string) (l : list string) :
  existsb (String.eqb k) l = true <-> In k l.
Proof.
  rewrite existsb_exists. split.
  - intros (x & Hin & E). apply String.eqb_eq in E. subst. exact Hin.
  - intros Hin. exists k. split; [exact Hin|apply String.eqb_refl].
Qed.

(** ** Reconciliation of the shapes *)

Section ReconcileFacts.

Variable rot : AxisAngle.

Lemma dropShapes_get (ids : list string) (id : string) :
  forall (l m : list (string * Shape.t)) (es : list effect),
    get id (fst (fold_left (NetworkManager.dropShape ids) l (m, es)))
    = if existsb (String.eqb id) ids then get id m
      else if existsb (String.eqb id) (JsMap.keys l) then None
      else get id m.
Proof.
  induction l as [|[k s] l IH]; intros m es; simpl.
  - destruct (existsb (String.eqb id) ids); reflexivity.
  - destruct (existsb (String.eqb k) ids) eqn:Ek.
    + rewrite IH. destruct (existsb (String.eqb id) ids) eqn:Eid; [reflexivity|].
      destruct (String.eqb id k) eqn:E; [|reflexivity].
      apply String.eqb_eq in E. subst. congruence.
    + rewrite IH. destruct (String.eqb id k) eqn:E.
      * apply String.eqb_eq in E. subst. rewrite Ek, get_delete_same.
        simpl. destruct (existsb _ (JsMap.keys l)); reflexivity.
      * apply String.eqb_neq in E. rewrite (get_delete_other _ _ _ E). reflexivity.
Qed.


Lemma dropShapes_keys (ids : list string) :
  forall (l m : list (string * Shape.t)) (es : list effect) (k : string),
    In k (JsMap.keys (fst (fold_left (NetworkManager.dropShape ids) l (m, es)))) ->
    In k (JsMap.keys m).
Proof.
  induction l as [|[k0 s] l IH]; intros m es k; simpl; [auto|].
  destruct (existsb (String.eqb k0) ids).
  - apply IH.
  - intros H. apply IH in H. apply keys_delete in H. exact H.
Qed.

Lemma placed_if_active (x : Shape.t) :
  let x' := if Shape.isActive x then Shape.updateBlockPositions rot x else x in
  Shape.position x' = Shape.position x /\
  Shape.isLocked x' = Shape.isLocked x /\
  Shape.isActive x' = Shape.isActive x.
Proof.
  cbv zeta. destruct (Shape.isActive x) eqn:E.
  - destruct (updateBlockPositions_fields rot x) as (-> & -> & -> & _).
    rewrite E. repeat split.
  - rewrite E. repeat split.
Qed.

(** The flags and the position [applyRecord] leaves. *)
Lemma applyRecord_flags (now : Q) (id : string) (data : ShapeData.t) (s : Shape.t) :
  Shape.isLocked (fst (NetworkManager.applyRecord rot now id data s))
    = ShapeData.isLocked data /\
  Shape.isActive (fst (NetworkManager.applyRecord rot now id data s))
    = ShapeData.isActive data.
Proof.
  unfold NetworkManager.applyRecord.
  match goal with |- context [Shape.set_isRotating ?a ?b] => set (s2 := Shape.set_isRotating a b) end.
  assert (H2 : Shape.isLocked s2 = ShapeData.isLocked data /\
               Shape.isActive s2 = ShapeData.isActive data) by (split; reflexivity).
  clearbody s2.
  destruct (ShapeData.currentRotation data), (ShapeData.blocks data); cbn [fst];
    match goal with |- context [if Shape.isActive ?x then _ else _] =>
      destruct (placed_if_active x) as (_ & -> & ->) end;
    exact H2.
Qed.

Lemma applyRecord_position (now : Q) (id : string) (data : ShapeData.t) (s : Shape.t) :
  Shape.position (fst (NetworkManager.applyRecord rot now id data s))
  = remotePosition data s.
Proof.
  unfold NetworkManager.applyRecord, remotePosition.
  match goal with |- context [Shape.set_isRotating (Shape.set_isActive (Shape.set_isLocked ?a _) _) _] =>
    set (s1 := a) end.
  assert (H1 : Shape.position s1 =
    match ShapeData.position data with
    | Some p =>
        if negb (Shape.isLocked s) then
          match PositionData.y p with
          | Some newY =>
              if Qle_bool newY (Vector3.y (Shape.position s)) then
                Vector3.mk
                  (NetworkManager.numberOr (PositionData.x p) (Vector3.x (Shape.position s)))
                  newY
                  (NetworkManager.numberOr (PositionData.z p) (Vector3.z (Shape.position s)))
              else Shape.position s
          | None => Shape.position s
          end
        else Shape.position s
    | None => Shape.position s
    end).
  { unfold s1. destruct (ShapeData.position data) as [p|]; [|reflexivity].
    destruct (negb (Shape.isLocked s)); [|reflexivity].
    destruct (PositionData.y p) as [newY|]; [|reflexivity].
    destruct (Qle_bool newY _); reflexivity. }
  rewrite <- H1. clearbody s1.
  destruct (ShapeData.currentRotation data), (ShapeData.blocks data); cbn [fst];
    match goal with |- context [if Shape.isActive ?x then _ else _] =>
      destruct (placed_if_active x) as (-> & _) end;
    reflexivity.
Qed.

Lemma addOrUpdateShape_other (now : Q) (id id' : string) (data' : ShapeData.t)
    (cache : list (string * Shape.t)) (es : list effect) :
  id <> id' ->
  get id (fst (NetworkManager.addOrUpdateShape rot now (cache, es) (id', data')))
  = get id cache.
Proof.
  intros Hne. unfold NetworkManager.addOrUpdateShape.
  destruct (get id' cache) as [shape|].
  - destruct (NetworkManager.applyRecord rot now id' data' shape) as [shape' es'].
    cbn. apply get_set_other. exact Hne.
  - destruct (NetworkManager.creatable data'); [|reflexivity].
    destruct (ShapeData.type data'); [|reflexivity].
    destruct (ShapeData.color data'); [|reflexivity].
    destruct (ShapeData.position data'); [|reflexivity].
    destruct (Qlt_bool 20 _); [reflexivity|].
    match goal with |- context [NetworkManager.applyRecord rot now id' data' ?a] =>
      destruct (NetworkManager.applyRecord rot now id' data' a) as [shape' es'] end.
    cbn. apply get_set_other. exact Hne.
Qed.

Lemma addOrUpdateShapes_absent (now : Q) (id : string) :
  forall (snapshot : list (string * ShapeData.t)) (acc : list (string * Shape.t) * list effect),
    ~ In id (JsMap.keys snapshot) ->
    get id (fst (fold_left (NetworkManager.addOrUpdateShape rot now) snapshot acc))
    = get id (fst acc).
Proof.
  induction snapshot as [|[id' data'] snapshot IH]; intros [cache es] Hnotin; simpl;
    [reflexivity|].
  rewrite IH.
  - apply addOrUpdateShape_other. intros ->. apply Hnotin. left. reflexivity.
  - intros Hin. apply Hnotin. right. exact Hin.
Qed.

Lemma addOrUpdateShapes_existing (now : Q) (id : string) (s : Shape.t) (data : ShapeData.t) :
  forall (snapshot : list (string * ShapeData.t)) (acc : list (string * Shape.t) * list effect),
    NoDup (JsMap.keys snapshot) ->
    get id (fst acc) = Some s ->
    get id snapshot = Some data ->
    get id (fst (fold_left (NetworkManager.addOrUpdateShape rot now) snapshot acc))
    = Some (fst (NetworkManager.applyRecord rot now id data s)).
Proof.
  induction snapshot as [|[id' data'] snapshot IH]; intros [cache es] Hnd Hs Hd; simpl in *;
    [discriminate|].
  inversion Hnd as [|? ? Hnotin Hnd']; subst.
  destruct (String.eqb id id') eqn:E.
  - apply String.eqb_eq in E. subst id'. injection Hd as ->.
    rewrite addOrUpdateShapes_absent by exact Hnotin.
    unfold NetworkManager.addOrUpdateShape. rewrite Hs.
    destruct (NetworkManager.applyRecord rot now id data s) as [shape' es'].
    cbn. apply get_set_same.
  - apply String.eqb_neq in E. apply IH; [exact Hnd'| |exact Hd].
    etransitivity; [apply (addOrUpdateShape_other now id id' data' cache es E)|exact Hs].
Qed.

(** A cached shape with a record in the snapshot ends as [applyRecord]
    leaves it. *)
Lemma updateShapes_existing (snapshot : list (string * ShapeData.t)) (now : Q)
    (n : NetworkManager.t) (id : string) (s : Shape.t) (data : ShapeData.t) :
  NetworkManager.scene n = true ->
  NoDup (JsMap.keys snapshot) ->
  get id (NetworkManager.shapes n) = Some s ->
  get id snapshot = Some data ->
  get id (NetworkManager.shapes (fst (NetworkManager.updateShapes rot snapshot now n)))
  = Some (fst (NetworkManager.applyRecord rot now id data s)).
Proof.
  intros Hscene Hnd Hs Hd. unfold NetworkManager.updateShapes. rewrite Hscene. cbn [negb].
  pose proof (dropShapes_get (JsMap.keys snapshot) id (NetworkManager.shapes n)
                (NetworkManager.shapes n) []) as HA.
  destruct (fold_left (NetworkManager.dropShape (JsMap.keys snapshot)) _ _) as [cache1 es1].
  pose proof (addOrUpdateShapes_existing now id s data snapshot (cache1, es1) Hnd) as HB.
  destruct (fold_left (NetworkManager.addOrUpdateShape rot now) snapshot (cache1, es1))
    as [cache2 es2].
  cbn in *. apply HB; [|exact Hd].
  rewrite HA.
  assert (Hin : existsb (String.eqb id) (JsMap.keys snapshot) = true).
  { apply existsb_eqb_in. apply get_in in Hd. apply (in_map fst) in Hd. exact Hd. }
  rewrite Hin. exact Hs.
Qed.

End ReconcileFacts.

(** ** Remote updates *)

Section RemoteUpdates.

Variable rot : AxisAngle.

(** C10.  A snapshot whose height for a cached, unlocked shape is above the
    height the shape has leaves the position of the shape as it is; the
    position changes only when the height of the record is at most the
    current one. *)
Theorem C10_remote_never_lifts (snapshot : list (string * ShapeData.t)) (now : Q)
    (n : NetworkManager.t) (id : string) (s : Shape.t) (data : ShapeData.t)
    (p : PositionData.t) (newY : Q) :
  NoDup (JsMap.keys snapshot) ->
  get id (NetworkManager.shapes n) = Some s ->
  Shape.isLocked s = false ->
  get id snapshot = Some data ->
  ShapeData.position data = Some p ->
  PositionData.y p = Some newY ->
  exists s',
    get id (NetworkManager.shapes (fst (NetworkManager.updateShapes rot snapshot now n)))
      = Some s' /\
    (Vector3.y (Shape.position s) < newY -> Shape.position s' = Shape.position s) /\
    (Shape.position s' <> Shape.position s -> newY <= Vector3.y (Shape.position s)).
Proof.
  intros Hnd Hs Hun Hd Hp Hy.
  destruct (NetworkManager.scene n) eqn:Hscene.
  - exists (fst (NetworkManager.applyRecord rot now id data s)).
    split; [apply updateShapes_existing; assumption|].
    rewrite applyRecord_position. unfold remotePosition.
    rewrite Hp, Hun, Hy. cbn [negb].
    destruct (Qle_bool newY (Vector3.y (Shape.position s))) eqn:E.
    + apply Qle_bool_iff in E. split.
      * intros Hlt. exfalso. apply (Qlt_not_le _ _ Hlt E).
      * intros _. exact E.
    + split; [reflexivity|]. intros Hne. exfalso. apply Hne. reflexivity.
  - exists s. unfold NetworkManager.updateShapes. rewrite Hscene. cbn.
    split; [exact Hs|]. split; [reflexivity|].
    intros Hne. exfalso. apply Hne. reflexivity.
Qed.

Lemma startRotation_flags (cw : bool) (s : Shape.t) :
  Shape.isLocked (snd (Shape.startRotation rot cw s)) = Shape.isLocked s /\
  Shape.isActive (snd (Shape.startRotation rot cw s)) = Shape.isActive s.
Proof.
  unfold Shape.startRotation.
  destruct (Shape.isRotating s); [split; reflexivity|].
  match goal with |- context [Shape.newPositions rot ?a ?b] =>
    destruct (Shape.newPositions rot a b) as [ps|]; [|split; reflexivity] end.
  destruct (negb _); [split; reflexivity|].
  cbn [snd].
  match goal with |- context [Shape.updateBlockPositions rot ?a] =>
    destruct (updateBlockPositions_fields rot a) as (_ & -> & -> & _) end.
  split; reflexivity.
Qed.

Lemma moveSideways_flags (direction : Q) (s : Shape.t) :
  Shape.isLocked (snd (Shape.moveSideways rot direction s)) = Shape.isLocked s /\
  Shape.isActive (snd (Shape.moveSideways rot direction s)) = Shape.isActive s.
Proof.
  unfold Shape.moveSideways.
  destruct (Qle_bool _ _); [|split; reflexivity].
  cbn [snd].
  match goal with |- context [Shape.updateBlockPositions rot ?a] =>
    destruct (updateBlockPositions_fields rot a) as (_ & -> & -> & _) end.
  split; reflexivity.
Qed.

Lemma updateShapeState_shapes (shapeId : string) (state : option ShapeState.t) (now : Q)
    (n : NetworkManager.t) :
  NetworkManager.shapes (fst (NetworkManager.updateShapeState shapeId state now n))
  = NetworkManager.shapes n.
Proof.
  unfold NetworkManager.updateShapeState.
  destruct state as [st|]; [|reflexivity].
  destruct (String.eqb shapeId ""); [reflexivity|].
  destruct (get shapeId (NetworkManager.shapes n)) as [shape|]; [|reflexivity].
  destruct (negb (Shape.isActive shape) && _); [reflexivity|].
  destruct (Qlt_bool _ _); reflexivity.
Qed.

(** C2, in the form the code satisfies.
    Once a shape is locked, [update] returns it unchanged,
    [startRotation] and [moveSideways] leave its two flags as they are and
    [updateShapeState] does not touch the cache; [updateShapes] gives a
    cached shape the flags of its record in the snapshot, whatever the flags
    of the shape were. *)
Theorem C2_lock_outlives_local_operations (s : Shape.t) (t direction now : Q)
    (clockwise : bool) (shapeId id : string) (state : option ShapeState.t)
    (n : NetworkManager.t) (snapshot : list (string * ShapeData.t)) (data : ShapeData.t) :
  Shape.isLocked s = true ->
  Shape.update rot t s = s /\
  (Shape.isLocked (snd (Shape.startRotation rot clockwise s)) = true /\
   Shape.isActive (snd (Shape.startRotation rot clockwise s)) = Shape.isActive s) /\
  (Shape.isLocked (snd (Shape.moveSideways rot direction s)) = true /\
   Shape.isActive (snd (Shape.moveSideways rot direction s)) = Shape.isActive s) /\
  NetworkManager.shapes (fst (NetworkManager.updateShapeState shapeId state now n))
    = NetworkManager.shapes n /\
  (NetworkManager.scene n = true ->
   NoDup (JsMap.keys snapshot) ->
   get id (NetworkManager.shapes n) = Some s ->
   get id snapshot = Some data ->
   exists s',
     get id (NetworkManager.shapes (fst (NetworkManager.updateShapes rot snapshot now n)))
       = Some s' /\
     Shape.isLocked s' = ShapeData.isLocked data /\
     Shape.isActive s' = ShapeData.isActive data).
Proof.
  intros Hlocked.
  split; [apply update_locked; exact Hlocked|].
  split.
  { destruct (startRotation_flags clockwise s) as (-> & ->). split; [exact Hlocked|reflexivity]. }
  split.
  { destruct (moveSideways_flags direction s) as (-> & ->). split; [exact Hlocked|reflexivity]. }
  split; [apply updateShapeState_shapes|].
  intros Hscene Hnd Hs Hd.
  exists (fst (NetworkManager.applyRecord rot now id data s)).
  split; [apply updateShapes_existing; assumption|].
  apply applyRecord_flags.
Qed.

End RemoteUpdates.

(** ** Spawn arbitration *)

Lemma cleanup_fold_keeps (ids : list string) :
  forall (acc : NetworkManager.t * list effect),
    let r :=
      fold_left
        (fun (acc : NetworkManager.t * list effect) id =>
           let '(m, es) := acc in
           match JsMap.get String.eqb id (NetworkManager.shapes m) with
           | Some _ =>
               (NetworkManager.set_shapes m
                  (JsMap.delete String.eqb id (NetworkManager.shapes m)),
                es ++ [Dispose (AShape id); Write (SetShape id None)])
           | None => acc
           end)
        ids acc in
    NetworkManager.players (fst r) = NetworkManager.players (fst acc) /\
    NetworkManager.playerId (fst r) = NetworkManager.playerId (fst acc) /\
    (existsb isSpawnWrite (snd acc) = false -> existsb isSpawnWrite (snd r) = false).
Proof.
  induction ids as [|id ids IH]; intros [m es]; cbv zeta; simpl.
  - auto.
  - destruct (JsMap.get String.eqb id (NetworkManager.shapes m)).
    + match goal with |- context [fold_left ?f ids ?a] =>
        destruct (IH a) as (Hp & Hi & He) end.
      cbn in Hp, Hi, He. rewrite Hp, Hi. repeat split.
      intros Hes. apply He. rewrite existsb_app, Hes. reflexivity.
    + apply (IH (m, es)).
Qed.

Lemma cleanupFloatingShapes_keeps (n : NetworkManager.t) :
  NetworkManager.players (fst (NetworkManager.cleanupFloatingShapes n))
    = NetworkManager.players n /\
  NetworkManager.playerId (fst (NetworkManager.cleanupFloatingShapes n))
    = NetworkManager.playerId n /\
  existsb isSpawnWrite (snd (NetworkManager.cleanupFloatingShapes n)) = false.
Proof.
  unfold NetworkManager.cleanupFloatingShapes.
  match goal with |- context [fold_left ?f ?ids (n, [])] =>
    destruct (cleanup_fold_keeps ids (n, [])) as (Hp & Hi & He) end.
  cbn in Hp, Hi, He. rewrite Hp, Hi. repeat split. apply He. reflexivity.
Qed.

(** X27.  When the handling of a game state update commits a
    spawn (writes a shape record), then no shape left in the cache by the
    cleanup of floating shapes is active and unlocked, [currentShapeId] is
    [null], more than 1000 ms have passed since [lastSpawnTime], the list of
    cached players is empty or starts with the local id, and the sentinel
    ["spawning"] is written before the shape record. *)
Theorem handler_spawn_guard (now : Q) (d : NetworkManager.draw) (n : NetworkManager.t) :
  commitsSpawn (snd (NetworkManager.handleGameStateUpdate now d n)) ->
  (forall id s,
      In (id, s) (NetworkManager.shapes (fst (NetworkManager.handleGameStateUpdate now d n))) ->
      activeUnlocked s = false) /\
  (exists gs t,
      NetworkManager.gameState n = Some gs /\
      GameState.currentShapeId gs = IdNull /\
      GameState.lastSpawnTime gs = Some t /\
      1000 < now - t) /\
  (JsMap.keys (NetworkManager.players n) = [] \/ localIsFirst n) /\
  (exists pre post,
      snd (NetworkManager.handleGameStateUpdate now d n) = pre ++ sentinelWrite now :: post /\
      existsb isSpawnWrite pre = false /\
      existsb isSpawnWrite post = true).
Proof.
  unfold commitsSpawn, NetworkManager.handleGameStateUpdate.
  destruct (NetworkManager.gameState n) as [gs|]; [|discriminate].
  destruct (cleanupFloatingShapes_keeps n) as (Hp & Hi & He).
  destruct (NetworkManager.cleanupFloatingShapes n) as [n1 es1]. cbn [fst snd] in *.
  destruct (existsb _ (NetworkManager.shapes n1)) eqn:Eactive;
    cbn [negb andb]; [intros H; cbn in H; congruence|].
  destruct (GameState.currentShapeId gs) eqn:Ecur;
    cbn [negb andb]; try (intros H; cbn in H; congruence).
  destruct (GameState.lastSpawnTime gs) as [t|] eqn:Elast;
    [|intros H; cbn in H; congruence].
  destruct (Qlt_bool 1000 (now - t)) eqn:Ecool; [|intros H; cbn in H; congruence].
  apply Qlt_bool_iff in Ecool.
  destruct (match JsMap.keys (NetworkManager.players n1) with
            | [] => true
            | first :: _ => NetworkManager.isLocalId n1 first
            end) eqn:Efirst; [|intros H; cbn in H; congruence].
  intros _. cbn [fst snd]. repeat split.
  - intros id s Hin.
    rewrite <- not_true_iff_false. intros Hact.
    assert (Hex : existsb (fun e => Shape.isActive (snd e) && negb (Shape.isLocked (snd e)))
                    (NetworkManager.shapes n1) = true).
    { apply existsb_exists. exists (id, s). split; [exact Hin|exact Hact]. }
    congruence.
  - exists gs, t. repeat split; assumption.
  - rewrite Hp in Efirst.
    destruct (JsMap.keys (NetworkManager.players n)) as [|first rest] eqn:Ek; [left; reflexivity|].
    right. unfold NetworkManager.isLocalId in Efirst. rewrite Hi in Efirst.
    destruct (NetworkManager.playerId n) as [p|] eqn:Epid; [|discriminate].
    apply String.eqb_eq in Efirst. subst first.
    exists p. split; [exact Epid|rewrite Ek; reflexivity].
  - exists es1. eexists. split; [reflexivity|]. split; [exact He|reflexivity].
Qed.

(** ** Row completion *)

Lemma splice_at_length {A : Type} (pre : list A) (a : A) (l : list A) :
  NetworkManager.splice (List.length pre) (pre ++ a :: l) = pre ++ l.
Proof. induction pre as [|p pre IH]; simpl; [reflexivity|]. rewrite IH. reflexivity. Qed.

Lemma blocksToRemove_bounds (y : Q) (bs : list Block.t) :
  forall i j, In j (NetworkManager.blocksToRemove y i bs) -> (i <= j)%nat.
Proof.
  induction bs as [|b bs IH]; intros i j; simpl; [intros []|].
  destruct (NetworkManager.atRow y b).
  - intros [<-|H]; [lia|]. apply IH in H. lia.
  - intros H. apply IH in H. lia.
Qed.

Lemma insertDescending_smallest (a : nat) (l : list nat) :
  (forall b, In b l -> (a < b)%nat) -> NetworkManager.insertDescending a l = l ++ [a].
Proof.
  induction l as [|b l IH]; intros H; simpl; [reflexivity|].
  assert (Hb : (a < b)%nat) by (apply H; left; reflexivity).
  destruct (b <=? a)%nat eqn:E; [apply Nat.leb_le in E; lia|].
  rewrite IH; [reflexivity|]. intros c Hc. apply H. right. exact Hc.
Qed.

(** The indices come out of [forEach] in increasing order, so sorting them
    in descending order reverses the list. *)
Lemma sortDescending_blocksToRemove (y : Q) (bs : list Block.t) :
  forall i,
    NetworkManager.sortDescending (NetworkManager.blocksToRemove y i bs)
    = rev (NetworkManager.blocksToRemove y i bs).
Proof.
  induction bs as [|b bs IH]; intros i; simpl; [reflexivity|].
  destruct (NetworkManager.atRow y b); [|apply IH].
  simpl. unfold NetworkManager.sortDescending in *. rewrite IH.
  apply insertDescending_smallest. intros j Hj. apply in_rev in Hj.
  apply blocksToRemove_bounds in Hj. lia.
Qed.

Lemma splices_filter (y : Q) (bs : list Block.t) :
  forall pre,
    fold_right (fun index l => NetworkManager.splice index l) (pre ++ bs)
               (NetworkManager.blocksToRemove y (List.length pre) bs)
    = pre ++ keepOtherRows y bs.
Proof.
  induction bs as [|b bs IH]; intros pre; simpl; [reflexivity|].
  specialize (IH (pre ++ [b])).
  rewrite length_app, Nat.add_1_r, <- app_assoc in IH. simpl in IH.
  destruct (NetworkManager.atRow y b); simpl.
  - rewrite IH, <- app_assoc. simpl. apply splice_at_length.
  - rewrite IH, <- app_assoc. reflexivity.
Qed.

(** Removing the indexed blocks from the highest index down leaves exactly
    the blocks at other rows. *)
Lemma removed_blocks (y : Q) (bs : list Block.t) :
  fold_left (fun l index => NetworkManager.splice index l)
            (NetworkManager.sortDescending (NetworkManager.blocksToRemove y 0 bs)) bs
  = keepOtherRows y bs.
Proof.
  rewrite sortDescending_blocksToRemove.
  rewrite <- (fold_left_rev_right (fun index l => NetworkManager.splice index l)).
  rewrite rev_involutive.
  apply (splices_filter y bs []).
Qed.

Lemma blocksToRemove_none (y : Q) (bs : list Block.t) :
  forall i,
    NetworkManager.blocksToRemove y i bs = [] <-> existsb (NetworkManager.atRow y) bs = false.
Proof.
  induction bs as [|b bs IH]; intros i; simpl; [tauto|].
  destruct (NetworkManager.atRow y b); simpl.
  - split; discriminate.
  - apply IH.
Qed.

Section RowFacts.

Variable rot : AxisAngle.

Lemma clearRow_step (y : Q) (cache : list (string * Shape.t)) (ids : list string)
    (id : string) (s : Shape.t) :
  NetworkManager.clearRow rot y (cache, ids) (id, s)
  = if touched y s then (JsMap.set String.eqb id (rowCleared rot y s) cache, ids ++ [id])
    else (cache, ids).
Proof.
  unfold NetworkManager.clearRow, touched, rowCleared, touched.
  destruct (Shape.isLocked s); [|reflexivity]. cbn [andb].
  pose proof (blocksToRemove_none y (Shape.blocks s) 0%nat) as Hnone.
  pose proof (removed_blocks y (Shape.blocks s)) as Hrem.
  destruct (NetworkManager.blocksToRemove y 0 (Shape.blocks s)) as [|i idx].
  - destruct Hnone as (-> & _); reflexivity.
  - destruct (existsb (NetworkManager.atRow y) (Shape.blocks s)).
    + rewrite Hrem. reflexivity.
    + destruct Hnone as (_ & H). discriminate H. reflexivity.
Qed.

Lemma clearRows_fold (y : Q) :
  forall (l cache : list (string * Shape.t)) (ids : list string),
    NoDup (JsMap.keys l) ->
    (forall k s, In (k, s) l -> get k cache = Some s) ->
    let r := fold_left (NetworkManager.clearRow rot y) l (cache, ids) in
    JsMap.keys (fst r) = JsMap.keys cache /\
    (forall k, ~ In k (JsMap.keys l) -> get k (fst r) = get k cache) /\
    (forall k s, In (k, s) l -> get k (fst r) = Some (rowCleared rot y s)) /\
    snd r = ids ++ map fst (filter (fun e => touched y (snd e)) l).
Proof.
  induction l as [|[id s] l IH]; intros cache ids Hnd Hget; cbv zeta.
  - simpl. rewrite app_nil_r. repeat split; try reflexivity. intros k s [].
  - cbn [fold_left]. rewrite clearRow_step.
    inversion Hnd as [|? ? Hnotin Hnd']; subst.
    assert (Hs : get id cache = Some s) by (apply Hget; left; reflexivity).
    set (cache1 := if touched y s then JsMap.set String.eqb id (rowCleared rot y s) cache
                   else cache).
    set (ids1 := if touched y s then ids ++ [id] else ids).
    assert (Hacc : (if touched y s
                    then (JsMap.set String.eqb id (rowCleared rot y s) cache, ids ++ [id])
                    else (cache, ids)) = (cache1, ids1)).
    { unfold cache1, ids1. destruct (touched y s); reflexivity. }
    rewrite Hacc.
    assert (Hkeys1 : JsMap.keys cache1 = JsMap.keys cache).
    { unfold cache1. destruct (touched y s); [|reflexivity].
      apply keys_set_present. apply get_in in Hs. apply (in_map fst) in Hs. exact Hs. }
    assert (Hother : forall k, k <> id -> get k cache1 = get k cache).
    { intros k Hk. unfold cache1. destruct (touched y s); [|reflexivity].
      apply get_set_other. exact Hk. }
    assert (Hself : get id cache1 = Some (rowCleared rot y s)).
    { unfold cache1, rowCleared. destruct (touched y s) eqn:E.
      - apply get_set_same.
      - exact Hs. }
    destruct (IH cache1 ids1 Hnd') as (Hk & Hout & Hin & Hids).
    { intros k s' Hks. rewrite Hother.
      - apply Hget. right. exact Hks.
      - intros ->. apply Hnotin. apply (in_map fst) in Hks. exact Hks. }
    split; [rewrite Hk; exact Hkeys1|]. split; [|split].
    + intros k Hk'. rewrite Hout.
      * apply Hother. intros ->. apply Hk'. left. reflexivity.
      * intros H. apply Hk'. right. exact H.
    + intros k s' [[= -> ->]|Hks].
      * rewrite Hout; [exact Hself|exact Hnotin].
      * apply Hin. exact Hks.
    + rewrite Hids. unfold ids1. simpl. destruct (touched y s); simpl.
      * rewrite <- app_assoc. reflexivity.
      * reflexivity.
Qed.

Lemma publications (y now : Q) (cache : list (string * Shape.t)) :
  forall (l : list (string * Shape.t)),
    (forall k s, In (k, s) l -> get k cache = Some (rowCleared rot y s)) ->
    flat_map (NetworkManager.publishBlocks now cache)
             (map fst (filter (fun e => touched y (snd e)) l))
    = flat_map (publication rot y now) l.
Proof.
  induction l as [|[id s] l IH]; intros Hget; simpl; [reflexivity|].
  unfold publication at 1. cbn [fst snd].
  destruct (touched y s) eqn:E.
  - simpl. unfold NetworkManager.publishBlocks at 1.
    rewrite (Hget id s (or_introl eq_refl)). simpl. f_equal.
    apply IH. intros k s' H. apply Hget. right. exact H.
  - simpl. apply IH. intros k s' H. apply Hget. right. exact H.
Qed.

(** The blocks of a cleared shape: those at other rows, each with the offset
    it had; and unmoved when the shape was in place. *)
Lemma rowCleared_blocks (y : Q) (s : Shape.t) :
  touched y s = true ->
  Shape.blocks (rowCleared rot y s)
    = map (Shape.placeBlock rot s) (keepOtherRows y (Shape.blocks s)) /\
  (inPlace rot s -> Shape.blocks (rowCleared rot y s) = keepOtherRows y (Shape.blocks s)).
Proof.
  intros Ht. unfold rowCleared. rewrite Ht.
  rewrite updateBlockPositions_blocks. cbn [Shape.blocks Shape.set_blocks].
  assert (E : map (Shape.placeBlock rot (Shape.set_blocks s (keepOtherRows y (Shape.blocks s))))
                  (keepOtherRows y (Shape.blocks s))
              = map (Shape.placeBlock rot s) (keepOtherRows y (Shape.blocks s))).
  { apply map_ext. intros b. apply placeBlock_ext; reflexivity. }
  rewrite E. split; [reflexivity|].
  intros Hin. rewrite <- (map_id (keepOtherRows y (Shape.blocks s))) at 2.
  apply map_ext_in. intros b Hb. unfold keepOtherRows in Hb. apply filter_In in Hb.
  unfold inPlace in Hin. rewrite Forall_forall in Hin. apply Hin. apply Hb.
Qed.

(** C7, in the form the code satisfies.
    With distinct keys in the cache, [handleRowCompletion(y)]
    leaves every shape that is unlocked or has no block at row [y] as it is;
    of a locked shape with a block at row [y] it keeps exactly the blocks at
    other rows, in order, and places them again at base position plus stored
    offset, which moves none of them when the shape was in place.  It
    publishes the block list of every changed shape, then the completed row,
    and, when the local player id is set, writes the stored score of the
    local player plus 10, and no other score. *)
Theorem C7_row_completion (y : Q) (stored : option ScoreData.t) (now : Q)
    (n : NetworkManager.t) :
  NoDup (JsMap.keys (NetworkManager.shapes n)) ->
  (forall id s,
      In (id, s) (NetworkManager.shapes n) ->
      get id (NetworkManager.shapes (fst (NetworkManager.handleRowCompletion rot y stored now n)))
        = Some (rowCleared rot y s) /\
      (touched y s = false -> rowCleared rot y s = s) /\
      (touched y s = true ->
       Shape.blocks (rowCleared rot y s)
         = map (Shape.placeBlock rot s) (keepOtherRows y (Shape.blocks s)) /\
       (inPlace rot s ->
        Shape.blocks (rowCleared rot y s) = keepOtherRows y (Shape.blocks s)))) /\
  JsMap.keys (NetworkManager.shapes (fst (NetworkManager.handleRowCompletion rot y stored now n)))
    = JsMap.keys (NetworkManager.shapes n) /\
  snd (NetworkManager.handleRowCompletion rot y stored now n)
    = flat_map (publication rot y now) (NetworkManager.shapes n)
      ++ [Write (SetLastRowCompletion y now)]
      ++ NetworkManager.addPoints 10 stored now n /\
  (forall pid,
      NetworkManager.playerId n = Some pid -> pid <> ""%string ->
      NetworkManager.addPoints 10 stored now n
      = [Write (SetScore pid
                  (Some (ScoreData.mk (NetworkManager.nickname n)
                           (Some (storedScore stored + 10)) now)))]).
Proof.
  intros Hnd. unfold NetworkManager.handleRowCompletion.
  destruct (clearRows_fold y (NetworkManager.shapes n) (NetworkManager.shapes n) [] Hnd)
    as (Hk & _ & Hin & Hids).
  { intros k s H. apply in_get; assumption. }
  destruct (fold_left (NetworkManager.clearRow rot y) _ _) as [cache ids].
  cbn [fst snd] in *. repeat split.
  - apply Hin. assumption.
  - intros Ht. unfold rowCleared. rewrite Ht. reflexivity.
  - apply rowCleared_blocks. assumption.
  - apply rowCleared_blocks. assumption.
  - exact Hk.
  - rewrite Hids. simpl app. rewrite (publications y now cache _ Hin). reflexivity.
  - intros pid Hpid Hne. unfold NetworkManager.addPoints. rewrite Hpid.
    apply String.eqb_neq in Hne. rewrite Hne. reflexivity.
Qed.

End RowFacts.

(** ** Reconciliation twice *)


Section TwiceShapes.

Variable rot : AxisAngle.


(** The four ways the second loop treats a record. *)
Lemma addOrUpdateShape_cases (now : Q) (cache : list (string * Shape.t)) (es : list effect)
    (id : string) (data : ShapeData.t) :
  let r := NetworkManager.addOrUpdateShape rot now (cache, es) (id, data) in
  (exists s, get id cache = Some s /\
     r = (JsMap.set String.eqb id (fst (NetworkManager.applyRecord rot now id data s)) cache,
          es ++ snd (NetworkManager.applyRecord rot now id data s))) \/
  (get id cache = None /\ NetworkManager.creatable data = true /\ tooHigh data = false /\
   exists s', fst r = JsMap.set String.eqb id s' cache) \/
  (get id cache = None /\ rebuilt data = true /\ r = (cache, es ++ [New (AShape id)])) \/
  (get id cache = None /\ NetworkManager.creatable data = false /\ r = (cache, es)).
Proof.
  cbv zeta. unfold NetworkManager.addOrUpdateShape, rebuilt, tooHigh.
  destruct (get id cache) as [s|].
  - left. exists s. split; [reflexivity|].
    destruct (NetworkManager.applyRecord rot now id data s); reflexivity.
  - right. destruct (NetworkManager.creatable data) eqn:Ec.
    + unfold NetworkManager.creatable in Ec.
      destruct (ShapeData.type data); [|discriminate].
      destruct (ShapeData.color data); [|rewrite andb_false_r in Ec; discriminate].
      destruct (ShapeData.position data) as [p|]; [|rewrite andb_false_r in Ec; discriminate].
      destruct (Qlt_bool 20 _).
      * right. left. repeat split.
      * left. repeat split.
        match goal with |- context [NetworkManager.applyRecord rot now id data ?a] =>
          destruct (NetworkManager.applyRecord rot now id data a) as [shape' es'] end.
        eexists. reflexivity.
    + right. right. repeat split.
Qed.

Lemma addOrUpdateShape_keys (now : Q) (cache : list (string * Shape.t)) (es : list effect)
    (id : string) (data : ShapeData.t) (k : string) :
  (In k (JsMap.keys cache) ->
   In k (JsMap.keys (fst (NetworkManager.addOrUpdateShape rot now (cache, es) (id, data))))) /\
  (In k (JsMap.keys (fst (NetworkManager.addOrUpdateShape rot now (cache, es) (id, data)))) ->
   k = id \/ In k (JsMap.keys cache)).
Proof.
  destruct (addOrUpdateShape_cases now cache es id data)
    as [(s & _ & ->)|[(_ & _ & _ & s' & ->)|[(_ & _ & ->)|(_ & _ & ->)]]];
    cbn [fst]; rewrite ?keys_set; tauto.
Qed.

Lemma addOrUpdateShapes_keys (now : Q) :
  forall (snapshot : list (string * ShapeData.t)) (acc : list (string * Shape.t) * list effect)
         (k : string),
    (In k (JsMap.keys (fst acc)) ->
     In k (JsMap.keys (fst (fold_left (NetworkManager.addOrUpdateShape rot now) snapshot acc)))) /\
    (In k (JsMap.keys (fst (fold_left (NetworkManager.addOrUpdateShape rot now) snapshot acc))) ->
     In k (JsMap.keys snapshot) \/ In k (JsMap.keys (fst acc))).
Proof.
  induction snapshot as [|[id d] snapshot IH]; intros [cache es] k;
    cbn [fold_left JsMap.keys map fst In].
  - tauto.
  - destruct (IH (NetworkManager.addOrUpdateShape rot now (cache, es) (id, d)) k) as (H1 & H2).
    destruct (addOrUpdateShape_keys now cache es id d k) as (H3 & H4).
    split.
    + intros H. apply H1, H3, H.
    + intros H. apply H2 in H. destruct H as [H|H]; [tauto|].
      apply H4 in H. destruct H as [->|H]; tauto.
Qed.

(** After one pass, every record a shape is kept from has its shape. *)
Lemma addOrUpdateShapes_present (now : Q) :
  forall (snapshot : list (string * ShapeData.t)) (acc : list (string * Shape.t) * list effect)
         (id : string) (d : ShapeData.t),
    In (id, d) snapshot ->
    NetworkManager.creatable d = true ->
    tooHigh d = false ->
    In id (JsMap.keys (fst (fold_left (NetworkManager.addOrUpdateShape rot now) snapshot acc))).
Proof.
  induction snapshot as [|[id' d'] snapshot IH]; intros [cache es] id d Hin Hc Hh;
    cbn [fold_left]; [destruct Hin|].
  destruct Hin as [[= -> ->]|Hin].
  - apply addOrUpdateShapes_keys.
    destruct (addOrUpdateShape_cases now cache es id d)
      as [(s & _ & ->)|[(_ & _ & _ & s' & ->)|[(_ & Hr & _)|(_ & Hn & _)]]].
    + cbn [fst]. apply keys_set. left. reflexivity.
    + apply keys_set. left. reflexivity.
    + unfold rebuilt in Hr. rewrite Hc, Hh in Hr. discriminate.
    + congruence.
  - apply (IH _ id d); assumption.
Qed.



End TwiceShapes.

Section TwicePlayers.

Variable snapshot : list (string * PlayerData.t).



(** The ways the second loop treats a listed player. *)
Lemma addOrUpdatePlayer_cases (n : NetworkManager.t) (cache : list (string * Player.t))
    (es : list effect) (id : string) (d : PlayerData.t) :
  let r := NetworkManager.addOrUpdatePlayer n (cache, es) (id, d) in
  (NetworkManager.isLocalId n id = true /\ r = (cache, es)) \/
  (NetworkManager.isLocalId n id = false /\
   exists p', fst r = JsMap.set String.eqb id p' cache /\
     snd r = es ++ (match get id cache with
                    | Some _ => []
                    | None => [New (APlayer id)]
                    end)
                ++ labelOf n (id, d)).
Proof.
  cbv zeta. unfold NetworkManager.addOrUpdatePlayer, labelOf. cbn [fst snd].
  destruct (NetworkManager.isLocalId n id); [left; split; reflexivity|].
  right. split; [reflexivity|].
  destruct (get id cache) as [p|];
    destruct (NetworkManager.truthyString (PlayerData.nickname d));
    eexists; (split; [reflexivity|]); cbn [snd app];
    rewrite <- ?app_assoc, ?app_nil_r; reflexivity.
Qed.






End TwicePlayers.


(** ** The claims on concrete inputs *)

(** C9.  The code at three bullets fired at time 0.  A bullet in the air,
    with a lifetime count of 16 and far from every shape, is removed and
    disposed of by [updateBullets] at 6000 ms: the cut-off is 5000 ms of
    wall-clock age, not the 8000 ms of [maxLifetime].  A bullet whose
    lifetime count has passed 8000, and a bullet at rest on the floor, are
    marked [isDead] by [Bullet.update] and stay in the cache: [isDead] is
    never read. *)
Theorem C9_bullet_lifetime_is_5000 :
  (* a bullet 6000 ms old, one call old in its own count, in the air, no
     shape around: removed and disposed *)
  bulletsAfter 6000 (holding youngBullet)
    = ([], [Dispose (ABullet ("loits-player-a"%string, 0%Z))]) /\
  Bullet.lifetime (Bullet.update youngBullet) = 16 /\
  Bullet.isDead (Bullet.update youngBullet) = false /\
  (* a bullet past its own 8000 ms, 4000 ms after it was fired: kept *)
  bulletsAfter 4000 (holding spentBullet) = ([("loits-player-a"%string, 0%Z)], []) /\
  Bullet.isDead (Bullet.update spentBullet) = true /\
  (* a bullet at rest on the floor, 1000 ms after it was fired: kept *)
  bulletsAfter 1000 (holding restingBullet) = ([("loits-player-a"%string, 0%Z)], []) /\
  Bullet.isDead (Bullet.update restingBullet) = true.
Proof. repeat split; vm_compute; reflexivity. Qed.

(** C1.  The code at a frame of the game loop.  A client beside another
    player, while the store names a current shape spawned 100 ms ago:
    [handleGameStateUpdate] commits no spawn there, as its three tests and
    its comments say.  [GameManager.update], called for the frame at
    4000 ms, spawns all the same: its own test reads the cache of shapes and
    the clock of the frame only, and it writes the shape record and the game
    state of [addShape] with no sentinel before them. *)
Theorem C1_frame_spawns_unguarded :
  (* the state: a current shape in the store, a spawn 100 ms ago, another
     player first in the list *)
  NetworkManager.gameState besideBobInFlight
    = Some (GameState.mk (IdString "k3x8") (Some 3900)) /\
  ~ 1000 < 4000 - 3900 /\
  JsMap.keys (NetworkManager.players besideBobInFlight) = ["loits-player-b"%string] /\
  ~ localIsFirst besideBobInFlight /\
  (* the handler does not spawn *)
  snd (NetworkManager.handleGameStateUpdate 4000 drawAt4000 besideBobInFlight) = [] /\
  (* the frame does, and without the sentinel *)
  commitsSpawn
    (snd (GameManager.spawnOnUpdate 4000 drawAt4000 (GameManager.new besideBobInFlight))) /\
  snd (GameManager.spawnOnUpdate 4000 drawAt4000 (GameManager.new besideBobInFlight))
    = NetworkManager.spawnNewShape drawAt4000 besideBobInFlight /\
  ~ In (sentinelWrite 4000)
       (snd (GameManager.spawnOnUpdate 4000 drawAt4000 (GameManager.new besideBobInFlight))) /\
  In (Write (UpdateGameState (Some true) (IdString "k3x9") 4000))
     (snd (GameManager.spawnOnUpdate 4000 drawAt4000 (GameManager.new besideBobInFlight))).
Proof.
  split; [reflexivity|].
  split; [intros H; vm_compute in H; discriminate H|].
  split; [reflexivity|].
  split; [intros (p & Hp & Hfirst); vm_compute in Hp, Hfirst; congruence|].
  split; [vm_compute; reflexivity|].
  split; [vm_compute; reflexivity|].
  split; [vm_compute; reflexivity|].
  split.
  - intros H. vm_compute in H. destruct H as [H|[H|[]]]; discriminate H.
  - vm_compute. right. left. reflexivity.
Qed.

Lemma handler_spawns_without_players :
  commitsSpawn
    (snd (NetworkManager.handleGameStateUpdate 2000 someDraw
            (withGameState freshManager idleGame))) /\
  ~ localIsFirst (withGameState freshManager idleGame) /\
  commitsSpawn (snd (NetworkManager.handleGameStateUpdate 2000 someDraw cacheWithHighPiece)) /\
  existsb (fun e => activeUnlocked (snd e)) (NetworkManager.shapes cacheWithHighPiece) = true.
Proof.
  split; [reflexivity|]. split; [|split; reflexivity].
  intros (p & _ & H). discriminate H.
Qed.

Lemma handler_spawn_guard_witness :
  commitsSpawn
    (snd (NetworkManager.handleGameStateUpdate 2000 someDraw
            (withGameState freshManager idleGame))) /\
  (JsMap.keys (NetworkManager.players (withGameState freshManager idleGame)) = [] \/
   localIsFirst (withGameState freshManager idleGame)).
Proof.
  assert (H : commitsSpawn
    (snd (NetworkManager.handleGameStateUpdate 2000 someDraw
            (withGameState freshManager idleGame)))) by reflexivity.
  split; [exact H|].
  exact (proj1 (proj2 (proj2 (handler_spawn_guard 2000 someDraw _ H)))).
Defined.

Lemma C2_counterexample :
  Shape.isLocked landedPiece = true /\
  Shape.isActive landedPiece = false /\
  exists s',
    JsMap.get String.eqb "a"%string
      (NetworkManager.shapes
         (fst (NetworkManager.updateShapes chordAxisAngle staleRecord 2000 cacheWithLanded)))
      = Some s' /\
    Shape.isLocked s' = false /\ Shape.isActive s' = true.
Proof.
  split; [reflexivity|]. split; [reflexivity|].
  eexists. split; [vm_compute; reflexivity|]. split; reflexivity.
Qed.

Lemma C2_witness :
  Shape.isLocked landedPiece = true /\
  Shape.update chordAxisAngle 2000 landedPiece = landedPiece.
Proof.
  assert (H : Shape.isLocked landedPiece = true) by reflexivity.
  split; [exact H|].
  exact (proj1 (C2_lock_outlives_local_operations chordAxisAngle landedPiece 2000 1 2000 true
                  "a"%string "a"%string None cacheWithLanded staleRecord
                  (shapeRecord "I" 0 1 false true) H)).
Defined.

(** In binary64 the lift of [snapToGrid] can leave the lowest block below
    the ground: for an "I" piece with its base at the double nearest to
    -0.997, whose lowest block has the offset -0.5, the block is at
    -1.4969999999999999, the base is lifted to 0.4999999999999999 and the
    block is placed again at -2^-53. *)
Lemma lift_rounds_below_ground :
  Binary64.blockHeight (-0x1.fe76c8b439581p-1) (-0x1p-1) = (-0x1.7f3b645a1cacp+0)%float /\
  Binary64.snappedBase 0 (-0x1.fe76c8b439581p-1) (-0x1p-1) = 0x1.ffffffffffffep-2%float /\
  Binary64.snappedHeight 0 (-0x1.fe76c8b439581p-1) (-0x1p-1) = (-0x1p-53)%float /\
  (Binary64.snappedHeight 0 (-0x1.fe76c8b439581p-1) (-0x1p-1) <? 0)%float = true.
Proof. repeat split; vm_compute; reflexivity. Qed.


Lemma spawned_placed (rot : AxisAngle) (ty : string) (col : Z) (pos : Vector3.t) :
  placed rot (spawned rot ty col pos).
Proof.
  unfold spawned. apply placed_updateBlockPositions.
  cbn [Shape.blocks Shape.set_position Shape.new]. unfold Shape.generateBlocks.
  apply Forall_map. apply Forall_forall. intros o _. discriminate.
Qed.





(** C5, in the form the code satisfies.
    A piece that is not rotating, whose blocks all have a
    stored offset, and one of whose blocks the quarter turn would take more
    than 5 from the middle of the grid: [startRotation] returns [false] and
    leaves every field as it was but three, [rotationSpeed] and
    [targetRotation], which hold the values of the refused turn, and
    [currentRotation], which is 0. *)
Theorem C5_rejected_rotation (rot : AxisAngle) (clockwise : bool) (s : Shape.t) :
  Shape.isRotating s = false ->
  Forall hasOffset (Shape.blocks s) ->
  Exists (leavesGrid rot clockwise s) (Shape.blocks s) ->
  Shape.startRotation rot clockwise s
  = (Returns false,
     Shape.set_currentRotation
       (Shape.set_targetRotation
          (Shape.set_rotationSpeed s (quarterSpeed clockwise))
          (quarterTarget clockwise))
       0).
Proof. apply rejected_rotation_state. Qed.

Lemma leftmostI_leaves :
  Exists (leavesGrid chordAxisAngle true (spawned chordAxisAngle "I" 255 (Vector3.mk (-5) 15 0)))
         (Shape.blocks (spawned chordAxisAngle "I" 255 (Vector3.mk (-5) 15 0))).
Proof.
  apply Exists_cons_tl, Exists_cons_hd. eexists. split; [reflexivity|].
  vm_compute. reflexivity.
Qed.

Lemma C5_counterexample :
  Shape.isActive (spawned chordAxisAngle "I" 255 (Vector3.mk (-5) 15 0)) = true /\
  Shape.isRotating (spawned chordAxisAngle "I" 255 (Vector3.mk (-5) 15 0)) = false /\
  Shape.isLocked (spawned chordAxisAngle "I" 255 (Vector3.mk (-5) 15 0)) = false /\
  Exists (leavesGrid chordAxisAngle true (spawned chordAxisAngle "I" 255 (Vector3.mk (-5) 15 0)))
         (Shape.blocks (spawned chordAxisAngle "I" 255 (Vector3.mk (-5) 15 0))) /\
  fst (Shape.startRotation chordAxisAngle true
         (spawned chordAxisAngle "I" 255 (Vector3.mk (-5) 15 0))) = Returns false /\
  Shape.rotationSpeed (spawned chordAxisAngle "I" 255 (Vector3.mk (-5) 15 0)) = 1 # 10 /\
  Shape.rotationSpeed
    (snd (Shape.startRotation chordAxisAngle true
            (spawned chordAxisAngle "I" 255 (Vector3.mk (-5) 15 0)))) = Math.PI / 40 /\
  Shape.targetRotation (spawned chordAxisAngle "I" 255 (Vector3.mk (-5) 15 0)) = 0 /\
  Shape.targetRotation
    (snd (Shape.startRotation chordAxisAngle true
            (spawned chordAxisAngle "I" 255 (Vector3.mk (-5) 15 0)))) = Math.PI / 2 /\
  snd (Shape.startRotation chordAxisAngle true
         (spawned chordAxisAngle "I" 255 (Vector3.mk (-5) 15 0)))
    <> spawned chordAxisAngle "I" 255 (Vector3.mk (-5) 15 0).
Proof.
  split; [reflexivity|]. split; [reflexivity|]. split; [reflexivity|].
  split; [apply leftmostI_leaves|].
  split; [vm_compute; reflexivity|]. split; [reflexivity|].
  split; [vm_compute; reflexivity|]. split; [reflexivity|].
  split; [vm_compute; reflexivity|].
  intros H. apply (f_equal Shape.targetRotation) in H. vm_compute in H. discriminate H.
Qed.

Lemma C5_witness :
  Shape.isRotating (spawned chordAxisAngle "I" 255 (Vector3.mk (-5) 15 0)) = false /\
  fst (Shape.startRotation chordAxisAngle true
         (spawned chordAxisAngle "I" 255 (Vector3.mk (-5) 15 0))) = Returns false.
Proof.
  split; [reflexivity|].
  rewrite (C5_rejected_rotation chordAxisAngle true
             (spawned chordAxisAngle "I" 255 (Vector3.mk (-5) 15 0))).
  - reflexivity.
  - reflexivity.
  - apply placed_hasOffset with (rot := chordAxisAngle). apply spawned_placed.
  - apply leftmostI_leaves.
Defined.


Lemma chord_at_quarter (cw : bool) :
  let u := Qred (2 * finalRotation cw / Math.PI) in
  Qred ((1 - u * u) / (1 + u * u)) == 0 /\
  Qred ((2 * u) / (1 + u * u)) == (if cw then 1 else - (1)).
Proof. destruct cw; split; vm_compute; reflexivity. Qed.

(** The rational stand-in is the exact quarter turn at the angle [update]
    bakes. *)
Lemma chord_quarter_turn (cw : bool) (v axis : Vector3.t) :
  Vector3.eqv (chordAxisAngle v axis (finalRotation cw)) (exactTurn cw v).
Proof.
  pose proof (chord_at_quarter cw) as H. cbv zeta in H. destruct H as (Hc & Hs).
  unfold chordAxisAngle, Vector3.eqv, exactTurn, quarterTurn. cbv zeta.
  destruct cw; cbn [Vector3.x Vector3.y Vector3.z]; rewrite Hc, Hs, !Qred_correct;
    repeat split; ring.
Qed.

Lemma chord_exact (cw : bool) (axis v : Vector3.t) :
  Vector3.norm (Vector3.sub (chordAxisAngle v axis (finalRotation cw)) (exactTurn cw v))
  <= 0 * Vector3.norm v.
Proof.
  destruct (chord_quarter_turn cw v axis) as (Hx & Hy & Hz).
  apply norm_le_iff. unfold within. cbn [Vector3.sub Vector3.x Vector3.y Vector3.z].
  rewrite Hx, Hy, Hz, Qmult_0_l.
  assert (E : forall a, Qabs (a - a) <= 0).
  { intros a. setoid_replace (a - a) with 0 by ring. apply Qle_refl. }
  repeat split; apply E.
Qed.

Lemma twenty_calls : (20 <= List.length (repeat 0 20))%nat.
Proof. rewrite repeat_length. apply le_n. Qed.

(** Under the rational stand-in the fresh pieces of the five types, at
    (0, 15, 0), complete four rotations of twenty calls each. *)
Lemma fresh_piece_rotates (ty : string) :
  In ty ["I"; "O"; "T"; "L"; "S"]%string ->
  completedRotations chordAxisAngle true 4
    (spawned chordAxisAngle ty 255 (Vector3.mk 0 15 0))
    (rotatedFourTimes chordAxisAngle true (spawned chordAxisAngle ty 255 (Vector3.mk 0 15 0))).
Proof.
  intros Hin. cbn [In] in Hin.
  repeat (destruct Hin as [<-|Hin]; [
    repeat (eexists; split;
            [apply (fun s Ha Hl =>
                      rotation_completes chordAxisAngle true s (repeat 0 20) Ha twenty_calls Hl);
             vm_compute; reflexivity|]);
    reflexivity |]).
  destruct Hin.
Qed.

Lemma C6_witness :
  completedRotations chordAxisAngle true 4
    (spawned chordAxisAngle "T" 255 (Vector3.mk 0 15 0))
    (rotatedFourTimes chordAxisAngle true (spawned chordAxisAngle "T" 255 (Vector3.mk 0 15 0))) /\
  Forall2 (offsetWithin ((1 + 0) ^ 4 - 1))
    (offsets (spawned chordAxisAngle "T" 255 (Vector3.mk 0 15 0)))
    (offsets (rotatedFourTimes chordAxisAngle true
                (spawned chordAxisAngle "T" 255 (Vector3.mk 0 15 0)))).
Proof.
  assert (H : completedRotations chordAxisAngle true 4
    (spawned chordAxisAngle "T" 255 (Vector3.mk 0 15 0))
    (rotatedFourTimes chordAxisAngle true (spawned chordAxisAngle "T" 255 (Vector3.mk 0 15 0)))).
  { apply fresh_piece_rotates. cbn [In]. tauto. }
  split; [exact H|].
  apply (C6_four_rotations_restore_offsets chordAxisAngle true 0 _ _ (Qle_refl 0)).
  - intros v. apply chord_exact.
  - exact H.
Defined.

Lemma C7_counterexample :
  (* the block at row 5 goes and the three others move down by 4 *)
  Shape.isLocked (cached "c" (seenAt5Then 1 true false)) = true /\
  heights (Shape.blocks (cached "c" (seenAt5Then 1 true false)))
    = [9 # 2; 11 # 2; 13 # 2; 15 # 2] /\
  heights (keepOtherRows 5 (Shape.blocks (cached "c" (seenAt5Then 1 true false))))
    = [11 # 2; 13 # 2; 15 # 2] /\
  heights (Shape.blocks
             (cached "c"
                (fst (NetworkManager.handleRowCompletion chordAxisAngle 5 None 100
                        (seenAt5Then 1 true false)))))
    = [3 # 2; 5 # 2; 7 # 2] /\
  (* no local player id: no score is written *)
  existsb (fun e => match e with Write (SetScore _ _) => true | _ => false end)
    (snd (NetworkManager.handleRowCompletion chordAxisAngle 5 None 100
            (withoutPlayerId (seenAt5Then 1 true false)))) = false.
Proof. repeat split; vm_compute; reflexivity. Qed.

Lemma C7_witness :
  NoDup (JsMap.keys (NetworkManager.shapes (seenAt5Then 1 true false))) /\
  JsMap.keys
    (NetworkManager.shapes
       (fst (NetworkManager.handleRowCompletion chordAxisAngle 5 None 100
               (seenAt5Then 1 true false))))
  = JsMap.keys (NetworkManager.shapes (seenAt5Then 1 true false)).
Proof.
  assert (H : NoDup (JsMap.keys (NetworkManager.shapes (seenAt5Then 1 true false)))).
  { change (NoDup ["c"%string]). constructor; [intros []|constructor]. }
  split; [exact H|].
  exact (proj1 (proj2 (C7_row_completion chordAxisAngle 5 None 100 _ H))).
Defined.



Lemma C10_witness :
  exists s',
    JsMap.get String.eqb "c"%string
      (NetworkManager.shapes
         (fst (NetworkManager.updateShapes chordAxisAngle
                 [("c"%string, shapeRecord "I" 3 9 false true)] 100
                 (seenAt5Then 4 false true))))
      = Some s' /\
    Shape.position s' = Shape.position (cached "c" (seenAt5Then 4 false true)).
Proof.
  destruct (C10_remote_never_lifts chordAxisAngle
              [("c"%string, shapeRecord "I" 3 9 false true)] 100
              (seenAt5Then 4 false true) "c"%string (cached "c" (seenAt5Then 4 false true))
              (shapeRecord "I" 3 9 false true)
              (PositionData.mk (Some 3) (Some 9) (Some 0)) 9)
    as (s' & Hget & Hkeep & _).
  - constructor; [intros []|constructor].
  - vm_compute. reflexivity.
  - reflexivity.
  - reflexivity.
  - reflexivity.
  - reflexivity.
  - exists s'. split; [exact Hget|]. apply Hkeep. vm_compute. reflexivity.
Defined.

(** * Further properties *)

(** ** Calls on a piece, in any order *)

Section CallFacts.

Variable rot : AxisAngle.

Lemma updateBlockPositions_constants (s : Shape.t) :
  let s' := Shape.updateBlockPositions rot s in
  Shape.gridSize s' = Shape.gridSize s /\
  Shape.fallSpeed s' = Shape.fallSpeed s /\
  Shape.lastFallTime s' = Shape.lastFallTime s /\
  Shape.position s' = Shape.position s.
Proof.
  unfold Shape.updateBlockPositions. destruct (Shape.blocks s); simpl; auto.
Qed.

Lemma snapToGrid_constants (s : Shape.t) :
  let s' := Shape.snapToGrid rot s in
  Shape.gridSize s' = Shape.gridSize s /\
  Shape.fallSpeed s' = Shape.fallSpeed s /\
  Shape.lastFallTime s' = Shape.lastFallTime s /\
  Vector3.x (Shape.position s') = Math.round (Vector3.x (Shape.position s)) /\
  Vector3.y (Shape.position s') == Vector3.y (Shape.position s) + lift s.
Proof.
  cbv zeta. unfold Shape.snapToGrid.
  match goal with
  | |- context [Shape.updateBlockPositions rot ?a] =>
      destruct (updateBlockPositions_constants a) as (Hg & Hf & Hl & Hp);
      rewrite Hg, Hf, Hl, Hp; clear Hg Hf Hl Hp
  end.
  unfold lift. cbn [Shape.blocks Shape.set_position].
  destruct (Shape.lowestY (Shape.blocks s)) as [lo|].
  - cbn [Shape.groundLevel Shape.set_position].
    destruct (Qle_bool lo (Shape.groundLevel s)); cbn; repeat split; try reflexivity; lra.
  - cbn. repeat split; try reflexivity; lra.
Qed.

Lemma rotationStep_constants (s : Shape.t) :
  let s' := Shape.rotationStep rot s in
  Shape.gridSize s' = Shape.gridSize s /\
  Shape.fallSpeed s' = Shape.fallSpeed s /\
  Shape.lastFallTime s' = Shape.lastFallTime s /\
  (Vector3.x (Shape.position s') = Vector3.x (Shape.position s) \/
   Vector3.x (Shape.position s') = Math.round (Vector3.x (Shape.position s))) /\
  Vector3.y (Shape.position s) <= Vector3.y (Shape.position s').
Proof.
  cbv zeta. unfold Shape.rotationStep.
  destruct (Shape.isRotating s).
  - match goal with
    | |- context [Shape.updateBlockPositions rot ?a] =>
        destruct (updateBlockPositions_constants a) as (Hg & Hf & Hl & Hp);
        rewrite Hg, Hf, Hl, Hp; clear Hg Hf Hl Hp
    end.
    match goal with
    | |- context [if ?c then _ else _] => destruct c
    end.
    + match goal with
      | |- context [Shape.snapToGrid rot ?a] =>
          pose proof (snapToGrid_constants a) as H;
          pose proof (lift_nonneg a) as Hn;
          assert (Hp : Shape.position a = Shape.position s) by reflexivity;
          assert (Hg0 : Shape.gridSize a = Shape.gridSize s) by reflexivity;
          assert (Hf0 : Shape.fallSpeed a = Shape.fallSpeed s) by reflexivity;
          assert (Hl0 : Shape.lastFallTime a = Shape.lastFallTime s) by reflexivity;
          set (A := a) in *
      end.
      cbv zeta in H. destruct H as (Hg & Hf & Hl & Hx & Hy).
      rewrite Hg, Hf, Hl, Hx, Hg0, Hf0, Hl0, Hp. rewrite Hp in Hy.
      repeat split; try reflexivity; [right; reflexivity|].
      rewrite Hy. lra.
    + cbn. repeat split; try reflexivity; [left; reflexivity|lra].
  - repeat split; try reflexivity; [left; reflexivity|lra].
Qed.

Lemma gravityStep_constants (t : Q) (s : Shape.t) :
  let s' := Shape.gravityStep rot t s in
  Shape.gridSize s' = Shape.gridSize s /\
  Shape.fallSpeed s' = Shape.fallSpeed s /\
  (Vector3.x (Shape.position s') = Vector3.x (Shape.position s) \/
   Vector3.x (Shape.position s') = Math.round (Vector3.x (Shape.position s))) /\
  ((Shape.lastFallTime s' = Shape.lastFallTime s /\
    Vector3.y (Shape.position s) <= Vector3.y (Shape.position s')) \/
   (1000 <= t - Shape.lastFallTime s /\
    Shape.lastFallTime s' = t /\
    Vector3.y (Shape.position s') = Vector3.y (Shape.position s) - Shape.fallSpeed s)).
Proof.
  cbv zeta. unfold Shape.gravityStep.
  destruct (Qle_bool 1000 (t - Shape.lastFallTime s)) eqn:Hdue.
  - apply Qle_bool_iff in Hdue.
    match goal with
    | |- context [Shape.updateBlockPositions rot ?a] =>
        destruct (updateBlockPositions_constants a) as (Hg & Hf & Hl & Hp);
        rewrite Hg, Hf, Hl, Hp; clear Hg Hf Hl Hp
    end.
    destruct (Shape.wouldCollide rot s _).
    + destruct (snapToGrid_constants s) as (Hg & Hf & Hl & Hx & Hy).
      pose proof (lift_nonneg s) as Hn.
      cbn. rewrite Hg, Hf, Hl, Hx. repeat split; try reflexivity; [right; reflexivity|].
      left. split; [reflexivity|]. rewrite Hy. lra.
    + cbn. repeat split; try reflexivity; [left; reflexivity|].
      right. repeat split; try reflexivity. exact Hdue.
  - repeat split; try reflexivity; [left; reflexivity|].
    left. split; [reflexivity|lra].
Qed.

Lemma startRotation_constants (cw : bool) (s : Shape.t) :
  let s' := snd (Shape.startRotation rot cw s) in
  Shape.gridSize s' = Shape.gridSize s /\
  Shape.fallSpeed s' = Shape.fallSpeed s /\
  Shape.lastFallTime s' = Shape.lastFallTime s /\
  Shape.position s' = Shape.position s.
Proof.
  cbv zeta. unfold Shape.startRotation.
  destruct (Shape.isRotating s); [cbn; auto|].
  match goal with
  | |- context [match ?x with Some _ => _ | None => _ end] => destruct x
  end; [|cbn; auto].
  match goal with
  | |- context [if ?c then _ else _] => destruct c
  end; [cbn; auto|].
  cbn [snd].
  match goal with
  | |- context [Shape.updateBlockPositions rot ?a] =>
      destruct (updateBlockPositions_constants a) as (Hg & Hf & Hl & Hp);
      rewrite Hg, Hf, Hl, Hp; clear Hg Hf Hl Hp
  end.
  cbn. auto.
Qed.

Lemma fallenWithin_refl (s : Shape.t) : fallenWithin s s.
Proof. unfold fallenWithin. repeat split; lra. Qed.

Lemma fallenWithin_trans (a b c : Shape.t) :
  0 <= Shape.fallSpeed a -> fallenWithin a b -> fallenWithin b c -> fallenWithin a c.
Proof.
  unfold fallenWithin. intros Hpos (Hf & Hl & Hy) (Hf' & Hl' & Hy').
  rewrite Hf in Hf', Hy'. repeat split; [congruence|lra|].
  assert (E : Shape.fallSpeed a * (Shape.lastFallTime c - Shape.lastFallTime a)
              == Shape.fallSpeed a * (Shape.lastFallTime c - Shape.lastFallTime b)
                 + Shape.fallSpeed a * (Shape.lastFallTime b - Shape.lastFallTime a))
    by ring.
  rewrite E. lra.
Qed.

Lemma fallenWithin_level (s s' : Shape.t) :
  0 <= Shape.fallSpeed s ->
  Shape.fallSpeed s' = Shape.fallSpeed s ->
  Shape.lastFallTime s' = Shape.lastFallTime s ->
  Vector3.y (Shape.position s) <= Vector3.y (Shape.position s') ->
  fallenWithin s s'.
Proof.
  unfold fallenWithin. intros Hpos Hf Hl Hy. rewrite Hl.
  repeat split; [exact Hf|lra|].
  assert (E : Shape.fallSpeed s * (Shape.lastFallTime s - Shape.lastFallTime s) == 0) by ring.
  rewrite E. lra.
Qed.

Lemma update_fallenWithin (t : Q) (s : Shape.t) :
  0 <= Shape.fallSpeed s -> fallenWithin s (Shape.update rot t s).
Proof.
  intros Hpos. unfold Shape.update. destruct (Shape.isLocked s); [apply fallenWithin_refl|].
  destruct (rotationStep_constants s) as (_ & Hf & Hl & _ & Hy).
  apply fallenWithin_trans with (b := Shape.rotationStep rot s); [exact Hpos| |].
  - apply fallenWithin_level; auto.
  - destruct (gravityStep_constants t (Shape.rotationStep rot s))
      as (_ & Hf' & _ & [[Hl' Hy']|(Hdue & Hl' & Hy')]).
    + apply fallenWithin_level; auto. rewrite Hf. exact Hpos.
    + unfold fallenWithin. rewrite Hf', Hl', Hy'. repeat split; [lra|].
      set (F := Shape.fallSpeed (Shape.rotationStep rot s)) in *.
      set (L := Shape.lastFallTime (Shape.rotationStep rot s)) in *.
      assert (E : 1000 * (Vector3.y (Shape.position (Shape.rotationStep rot s))
                          - (Vector3.y (Shape.position (Shape.rotationStep rot s)) - F))
                  == F * 1000) by ring.
      rewrite E.
      assert (HF : 0 <= F) by (rewrite Hf; exact Hpos).
      assert (H0 : 0 <= F * ((t - L) - 1000)) by (apply Qmult_le_0_compat; lra).
      lra.
Qed.

Lemma moveSideways_constants (direction : Q) (s : Shape.t) :
  let s' := snd (Shape.moveSideways rot direction s) in
  Shape.gridSize s' = Shape.gridSize s /\
  Shape.fallSpeed s' = Shape.fallSpeed s /\
  Shape.lastFallTime s' = Shape.lastFallTime s /\
  Vector3.y (Shape.position s') = Vector3.y (Shape.position s) /\
  (Shape.position s' = Shape.position s \/
   (Vector3.x (Shape.position s') = Vector3.x (Shape.position s) + direction /\
    Qabs (Vector3.x (Shape.position s) + direction) <= Shape.gridSize s / 2)).
Proof.
  cbv zeta. unfold Shape.moveSideways.
  destruct (Qle_bool _ _) eqn:E; cbn [snd]; [|repeat split; auto].
  apply Qle_bool_iff in E.
  match goal with
  | |- context [Shape.updateBlockPositions rot ?a] =>
      destruct (updateBlockPositions_constants a) as (Hg & Hf & Hl & Hp);
      rewrite Hg, Hf, Hl, Hp; clear Hg Hf Hl Hp
  end.
  cbn. repeat split; try reflexivity. right. split; [reflexivity|exact E].
Qed.

Lemma handleShot_constants (s : Shape.t) :
  let s' := snd (Shape.handleShot rot s) in
  Shape.gridSize s' = Shape.gridSize s /\
  Shape.fallSpeed s' = Shape.fallSpeed s /\
  Shape.lastFallTime s' = Shape.lastFallTime s /\
  Shape.position s' = Shape.position s.
Proof.
  cbv zeta. unfold Shape.handleShot.
  destruct (Shape.isLocked s || negb (Shape.isActive s)); cbn [snd]; [auto|].
  apply startRotation_constants.
Qed.

Lemma perform_fallenWithin (c : call) (s : Shape.t) :
  0 <= Shape.fallSpeed s -> fallenWithin s (perform rot s c).
Proof.
  intros Hpos. destruct c as [t|d|cw| |]; cbn [perform].
  - apply update_fallenWithin. exact Hpos.
  - destruct (moveSideways_constants d s) as (_ & Hf & Hl & Hy & _).
    apply fallenWithin_level; auto. rewrite Hy. lra.
  - destruct (startRotation_constants cw s) as (_ & Hf & Hl & Hp).
    apply fallenWithin_level; auto. rewrite Hp. lra.
  - destruct (handleShot_constants s) as (_ & Hf & Hl & Hp).
    apply fallenWithin_level; auto. rewrite Hp. lra.
  - destruct (snapToGrid_constants s) as (_ & Hf & Hl & _ & Hy).
    apply fallenWithin_level; auto. rewrite Hy. pose proof (lift_nonneg s). lra.
Qed.

Lemma round_in_grid (q : Q) : Qabs q <= 5 -> Qabs (Math.round q) <= 5.
Proof.
  intros H. apply Qabs_Qle_condition in H. destruct H as [Hlo Hhi].
  apply Qabs_Qle_condition. unfold Math.round.
  change 5 with (inject_Z 5). change (- inject_Z 5) with (inject_Z (-5)).
  rewrite <- !Zle_Qle. split.
  - change (-5)%Z with (Qfloor (inject_Z (-5))). apply Qfloor_resp_le.
    change (inject_Z (-5)) with (-5). lra.
  - change 5%Z with (Qfloor (inject_Z 5 + (1 # 2))). apply Qfloor_resp_le.
    change (inject_Z 5) with 5. lra.
Qed.

Lemma update_column (t : Q) (s : Shape.t) :
  Shape.gridSize (Shape.update rot t s) = Shape.gridSize s /\
  (Vector3.x (Shape.position (Shape.update rot t s)) = Vector3.x (Shape.position s) \/
   Vector3.x (Shape.position (Shape.update rot t s))
   = Math.round (Vector3.x (Shape.position s))).
Proof.
  unfold Shape.update. destruct (Shape.isLocked s); [auto|].
  destruct (rotationStep_constants s) as (Hg & _ & _ & Hx & _).
  destruct (gravityStep_constants t (Shape.rotationStep rot s)) as (Hg' & _ & Hx' & _).
  split; [congruence|].
  destruct Hx as [Hx|Hx], Hx' as [Hx'|Hx']; rewrite Hx', Hx; auto.
  right. apply round_idempotent.
Qed.

Lemma perform_inGrid (c : call) (s : Shape.t) : inGrid s -> inGrid (perform rot s c).
Proof.
  unfold inGrid. intros [Hg Hx]. destruct c as [t|d|cw| |]; cbn [perform].
  - destruct (update_column t s) as (Hg' & [E|E]); rewrite Hg', E; split; auto.
    apply round_in_grid. exact Hx.
  - destruct (moveSideways_constants d s) as (Hg' & _ & _ & _ & [E|[E Hb]]);
      rewrite Hg'; split; auto.
    + rewrite E. exact Hx.
    + rewrite E. rewrite Hg in Hb. assert (E5 : 10 / 2 == 5) by reflexivity.
      rewrite E5 in Hb. exact Hb.
  - destruct (startRotation_constants cw s) as (Hg' & _ & _ & Hp).
    rewrite Hg', Hp. auto.
  - destruct (handleShot_constants s) as (Hg' & _ & _ & Hp).
    rewrite Hg', Hp. auto.
  - destruct (snapToGrid_constants s) as (Hg' & _ & _ & E & _).
    rewrite Hg', E. split; auto. apply round_in_grid. exact Hx.
Qed.

(** X1.  However a piece is called, it comes down at most [fallSpeed] for
    every full second between its fall time stamps: its height has dropped
    by no more than [fallSpeed * (lastFallTime' - lastFallTime) / 1000].  A
    call of [update] on a piece that is not rotating, less than 1000 ms
    after its last fall, changes nothing. *)
Theorem fall_is_paced (cs : list call) (s : Shape.t) (t : Q) :
  0 <= Shape.fallSpeed s ->
  fallenWithin s (performAll rot cs s) /\
  (Shape.isRotating s = false -> t - Shape.lastFallTime s < 1000 ->
   Shape.update rot t s = s).
Proof.
  intros Hpos. split.
  - unfold performAll. revert s Hpos.
    induction cs as [|c cs IH]; intros s Hpos; cbn [fold_left].
    + apply fallenWithin_refl.
    + pose proof (perform_fallenWithin c s Hpos) as Hc.
      apply fallenWithin_trans with (b := perform rot s c); [exact Hpos|exact Hc|].
      apply IH. destruct Hc as (Hf & _). rewrite Hf. exact Hpos.
  - intros Hrot Hearly. unfold Shape.update.
    destruct (Shape.isLocked s); [reflexivity|].
    rewrite (rotationStep_idle rot s Hrot). unfold Shape.gravityStep.
    destruct (Qle_bool 1000 (t - Shape.lastFallTime s)) eqn:E; [|reflexivity].
    apply Qle_bool_iff in E. lra.
Qed.

(** X2.  The base of a piece that is over the ten cells of the grid stays
    over them, however the piece is called: [moveSideways] refuses to leave
    them and rounding the column, which is all that [update] and
    [snapToGrid] do to it, keeps within them. *)
Theorem base_stays_in_grid (cs : list call) (s : Shape.t) :
  inGrid s -> inGrid (performAll rot cs s).
Proof.
  unfold performAll. revert s.
  induction cs as [|c cs IH]; intros s H; cbn [fold_left]; [exact H|].
  apply IH. apply perform_inGrid. exact H.
Qed.

End CallFacts.

Section PieceFacts.

Variable rot : AxisAngle.

(** ** Sideways and back *)

Lemma eqv_trans (a b c : Vector3.t) : Vector3.eqv a b -> Vector3.eqv b c -> Vector3.eqv a c.
Proof.
  unfold Vector3.eqv. intros (H1 & H2 & H3) (H4 & H5 & H6).
  repeat split; etransitivity; eassumption.
Qed.

Lemma eqv_sym (a b : Vector3.t) : Vector3.eqv a b -> Vector3.eqv b a.
Proof.
  unfold Vector3.eqv. intros (H1 & H2 & H3). repeat split; symmetry; assumption.
Qed.

Lemma eqv_add (a b c : Vector3.t) :
  Vector3.eqv a b -> Vector3.eqv (Vector3.add a c) (Vector3.add b c).
Proof.
  unfold Vector3.eqv, Vector3.add. cbn. intros (H1 & H2 & H3).
  rewrite H1, H2, H3. repeat split; reflexivity.
Qed.

(** Placing again the blocks of a piece whose blocks are in place, from a
    piece with the same base and the same angle, moves none of them. *)
Lemma replaced_blocks (s s' : Shape.t) (bs : list Block.t) :
  Forall (placedAt rot s) bs ->
  Vector3.eqv (Shape.position s') (Shape.position s) ->
  Shape.isRotating s' = Shape.isRotating s ->
  Shape.rotationAxis s' = Shape.rotationAxis s ->
  Shape.currentRotation s' = Shape.currentRotation s ->
  Forall2
    (fun b b' =>
       Block.initialOffset b' = Block.initialOffset b /\
       Vector3.eqv (Block.position b') (Block.position b))
    bs (map (Shape.placeBlock rot s') bs).
Proof.
  intros Hpl Hp Hr Ha Hc. apply Forall2_map_same.
  eapply Forall_impl; [|exact Hpl]. intros b (off & Hoff & Hb).
  split; [apply placeBlock_offset|].
  unfold Shape.placeBlock. rewrite Hoff. cbn [Block.position].
  rewrite (relativePos_ext rot s' s off Hr Ha Hc).
  apply eqv_trans with (b := Vector3.add (Shape.position s) (Shape.relativePos rot s off)).
  - apply eqv_add. exact Hp.
  - apply eqv_sym. exact Hb.
Qed.

Lemma sideways_and_back (d : Q) (s : Shape.t) :
  placed rot s ->
  Qabs (Vector3.x (Shape.position s)) <= Shape.gridSize s / 2 ->
  fst (Shape.moveSideways rot d s) = true ->
  fst (Shape.moveSideways rot (- d) (snd (Shape.moveSideways rot d s))) = true /\
  Vector3.eqv
    (Shape.position (snd (Shape.moveSideways rot (- d) (snd (Shape.moveSideways rot d s)))))
    (Shape.position s) /\
  Forall2
    (fun b b' =>
       Block.initialOffset b' = Block.initialOffset b /\
       Vector3.eqv (Block.position b') (Block.position b))
    (Shape.blocks s)
    (Shape.blocks (snd (Shape.moveSideways rot (- d) (snd (Shape.moveSideways rot d s))))).
Proof.
  intros Hpl Hin Hacc.
  unfold Shape.moveSideways in Hacc |- * at 2 4 6.
  destruct (Qle_bool (Math.abs (Vector3.x (Shape.position s) + d)) (Shape.gridSize s / 2));
    [|discriminate].
  cbn [snd]. clear Hacc.
  set (s0 := Shape.set_position s
               (Vector3.set_x (Shape.position s) (Vector3.x (Shape.position s) + d))).
  set (s1 := Shape.updateBlockPositions rot s0).
  destruct (updateBlockPositions_fields rot s0)
    as (Hp1 & _ & _ & Hr1 & Ha1 & Hc1 & _).
  destruct (updateBlockPositions_constants rot s0) as (Hg1 & _).
  fold s1 in Hp1, Hr1, Ha1, Hc1, Hg1.
  assert (Hx : Vector3.x (Shape.position s1) + - d == Vector3.x (Shape.position s)).
  { rewrite Hp1. cbn. ring. }
  unfold Shape.moveSideways.
  assert (Hok : Qle_bool (Math.abs (Vector3.x (Shape.position s1) + - d))
                         (Shape.gridSize s1 / 2) = true).
  { apply Qle_bool_iff. unfold Math.abs. rewrite Hx, Hg1. exact Hin. }
  rewrite Hok. cbn [fst snd]. split; [reflexivity|].
  set (s2 := Shape.set_position s1
               (Vector3.set_x (Shape.position s1) (Vector3.x (Shape.position s1) + - d))).
  destruct (updateBlockPositions_fields rot s2) as (Hp3 & _).
  assert (Hp2 : Vector3.eqv (Shape.position s2) (Shape.position s)).
  { unfold s2. cbn [Shape.position Shape.set_position Vector3.set_x].
    unfold Vector3.eqv. cbn [Vector3.x Vector3.y Vector3.z]. rewrite Hp1.
    split; [|split; reflexivity]. rewrite <- Hx, Hp1. reflexivity. }
  split; [rewrite Hp3; exact Hp2|].
  rewrite updateBlockPositions_blocks.
  change (Shape.blocks s2) with (Shape.blocks s1). unfold s1.
  rewrite updateBlockPositions_blocks. change (Shape.blocks s0) with (Shape.blocks s).
  rewrite map_map.
  assert (E : map (fun b => Shape.placeBlock rot s2 (Shape.placeBlock rot s0 b)) (Shape.blocks s)
              = map (Shape.placeBlock rot s2) (Shape.blocks s)).
  { apply map_ext_in. intros b Hb. unfold placed in Hpl.
    rewrite Forall_forall in Hpl. destruct (Hpl b Hb) as (off & Hoff & _).
    unfold Shape.placeBlock. rewrite Hoff. cbn [Block.initialOffset]. reflexivity. }
  rewrite E. apply replaced_blocks with (s := s); auto.
Qed.

(** X3.  On the grid of the constructor, a step of a whole number of cells
    that [moveSideways] accepts on a piece in a whole column can be taken
    back: the opposite step is accepted too, and the base and every block
    of a piece whose blocks were in place are back where they were.  (The
    columns and the steps of the game are whole numbers; for others the
    two sums need not cancel.) *)
Theorem moveSideways_round_trip (d : Q) (s : Shape.t) :
  placed rot s ->
  inGrid s ->
  whole (Vector3.x (Shape.position s)) ->
  whole d ->
  fst (Shape.moveSideways rot d s) = true ->
  fst (Shape.moveSideways rot (- d) (snd (Shape.moveSideways rot d s))) = true /\
  Vector3.eqv
    (Shape.position (snd (Shape.moveSideways rot (- d) (snd (Shape.moveSideways rot d s)))))
    (Shape.position s) /\
  Forall2
    (fun b b' =>
       Block.initialOffset b' = Block.initialOffset b /\
       Vector3.eqv (Block.position b') (Block.position b))
    (Shape.blocks s)
    (Shape.blocks (snd (Shape.moveSideways rot (- d) (snd (Shape.moveSideways rot d s))))).
Proof.
  intros Hpl [Hg Hx] _ _ Hacc. apply sideways_and_back; [exact Hpl| |exact Hacc].
  rewrite Hg. assert (E : 10 / 2 == 5) by reflexivity. rewrite E. exact Hx.
Qed.

(** ** [snapToGrid] twice *)

Lemma lift_ext (a b : Shape.t) :
  Shape.blocks a = Shape.blocks b -> Shape.groundLevel a = Shape.groundLevel b ->
  lift a = lift b.
Proof. unfold lift. intros -> ->. reflexivity. Qed.

(** After [snapToGrid] no block of a piece whose blocks were in place is
    left at or below the ground level for a second call to lift. *)
Lemma lift_after_snapToGrid (s : Shape.t) :
  placed rot s -> lift (Shape.snapToGrid rot s) == 0.
Proof.
  intros Hpl.
  pose proof (snapToGrid_heights rot s Hpl) as Hh.
  destruct (snapToGrid_fields rot s) as (_ & _ & _ & _ & _ & _ & _ & Hg & _).
  unfold lift at 1. rewrite Hg.
  destruct (Shape.lowestY (Shape.blocks s)) as [lo|] eqn:Hlo.
  - destruct (lowestY_shifted (Shape.blocks s) (Shape.blocks (Shape.snapToGrid rot s))
                (lift s) lo) as (lo' & Hlo' & Elo'); [|exact Hlo|].
    { eapply Forall2_impl; [|exact Hh]. intros b b' [_ H]. exact H. }
    rewrite Hlo'. unfold lift in Elo'. rewrite Hlo in Elo'.
    destruct (Qle_bool lo (Shape.groundLevel s)) eqn:E.
    + assert (E' : Qle_bool lo' (Shape.groundLevel s) = true)
        by (apply Qle_bool_iff; rewrite Elo'; lra).
      rewrite E'. rewrite Elo'. ring.
    + apply Qle_bool_false_iff in E.
      assert (E' : Qle_bool lo' (Shape.groundLevel s) = false)
        by (apply Qle_bool_false_iff; rewrite Elo'; lra).
      rewrite E'. reflexivity.
  - pose proof (lowestY_spec (Shape.blocks s)) as Hs. rewrite Hlo in Hs.
    rewrite Hs in Hh. inversion Hh as [E1 E2|]. cbn. reflexivity.
Qed.

Lemma placed_snapToGrid (s : Shape.t) :
  Forall hasOffset (Shape.blocks s) -> placed rot (Shape.snapToGrid rot s).
Proof.
  intros Hoff. destruct (snapToGrid_unfold rot s) as (s2 & E & Hb & _).
  rewrite E. apply placed_updateBlockPositions. rewrite Hb. exact Hoff.
Qed.

Lemma snapToGrid_again (s : Shape.t) :
  placed rot s ->
  Vector3.eqv (Shape.position (Shape.snapToGrid rot (Shape.snapToGrid rot s)))
              (Shape.position (Shape.snapToGrid rot s)) /\
  Forall2
    (fun b b' =>
       Block.initialOffset b' = Block.initialOffset b /\
       Vector3.eqv (Block.position b') (Block.position b))
    (Shape.blocks (Shape.snapToGrid rot s))
    (Shape.blocks (Shape.snapToGrid rot (Shape.snapToGrid rot s))).
Proof.
  intros Hpl.
  pose proof (lift_after_snapToGrid s Hpl) as Hlift.
  pose proof (placed_snapToGrid s (placed_hasOffset rot s Hpl)) as Hpl1.
  set (once := Shape.snapToGrid rot s) in *.
  destruct (snapToGrid_fields rot s) as (_ & _ & _ & _ & _ & _ & _ & _ & _ & _ & Hx1 & _).
  fold once in Hx1.
  destruct (snapToGrid_unfold rot once)
    as (t2 & E & Hb & Hx & Hy & Hz & _ & _ & Hr & Ha & Hc & _).
  destruct (updateBlockPositions_fields rot t2) as (Hp & _).
  assert (Hpos : Vector3.eqv (Shape.position t2) (Shape.position once)).
  { unfold Vector3.eqv. rewrite Hx, Hy, Hz, Hx1, round_idempotent, Hlift.
    repeat split; try reflexivity. ring. }
  rewrite E. split; [rewrite Hp; exact Hpos|].
  rewrite updateBlockPositions_blocks, Hb.
  apply replaced_blocks with (s := once); auto.
Qed.

(** X4.  [snapToGrid] is idempotent on a piece whose blocks are in place
    and above the ground level: a second call moves neither the base nor
    a block.  (A piece that the first call has to lift is left out: the
    lift brings it to the ground level up to the rounding of its sums,
    and a second call may lift it again.) *)
Theorem snapToGrid_idempotent (s : Shape.t) :
  placed rot s ->
  clearOfGround s ->
  Vector3.eqv (Shape.position (Shape.snapToGrid rot (Shape.snapToGrid rot s)))
              (Shape.position (Shape.snapToGrid rot s)) /\
  Vector3.y (Shape.position (Shape.snapToGrid rot s)) == Vector3.y (Shape.position s) /\
  Forall2
    (fun b b' =>
       Block.initialOffset b' = Block.initialOffset b /\
       Vector3.eqv (Block.position b') (Block.position b))
    (Shape.blocks (Shape.snapToGrid rot s))
    (Shape.blocks (Shape.snapToGrid rot (Shape.snapToGrid rot s))).
Proof.
  intros Hpl Hclear. destruct (snapToGrid_again s Hpl) as [Hpos Hblocks].
  split; [exact Hpos|]. split; [|exact Hblocks].
  destruct (snapToGrid_unfold rot s) as (s2 & E & _ & _ & Hy & _).
  destruct (updateBlockPositions_fields rot s2) as (Hp & _).
  rewrite E, Hp, Hy, (lift_clear s Hclear). ring.
Qed.

(** ** Pieces whose blocks have no stored offset *)

Lemma placeBlock_withoutOffset (s : Shape.t) (bs : list Block.t) :
  Forall withoutOffset bs -> map (Shape.placeBlock rot s) bs = bs.
Proof.
  induction 1 as [|b bs Hb _ IH]; [reflexivity|].
  cbn [map]. rewrite IH. unfold Shape.placeBlock. rewrite Hb. reflexivity.
Qed.

Lemma updateBlockPositions_withoutOffset (s : Shape.t) :
  Forall withoutOffset (Shape.blocks s) ->
  Shape.blocks (Shape.updateBlockPositions rot s) = Shape.blocks s.
Proof.
  intros H. rewrite updateBlockPositions_blocks. apply placeBlock_withoutOffset. exact H.
Qed.

Lemma snapToGrid_withoutOffset (s : Shape.t) :
  Forall withoutOffset (Shape.blocks s) ->
  Shape.blocks (Shape.snapToGrid rot s) = Shape.blocks s.
Proof.
  intros H. destruct (snapToGrid_unfold rot s) as (s2 & E & Hb & _).
  rewrite E, updateBlockPositions_withoutOffset; rewrite Hb; auto.
Qed.

Lemma rotationStep_withoutOffset (s : Shape.t) :
  Forall withoutOffset (Shape.blocks s) ->
  Shape.blocks (Shape.rotationStep rot s) = Shape.blocks s.
Proof.
  intros H. unfold Shape.rotationStep. destruct (Shape.isRotating s); [|reflexivity].
  assert (Hbake : forall a q, map (Shape.bakeOffset rot a q) (Shape.blocks s) = Shape.blocks s).
  { intros a q. clear -H. induction H as [|b bs Hb _ IH]; [reflexivity|].
    cbn [map]. rewrite IH. unfold Shape.bakeOffset. rewrite Hb. reflexivity. }
  match goal with
  | |- context [if ?c then _ else _] => destruct c
  end.
  - rewrite updateBlockPositions_withoutOffset;
      rewrite snapToGrid_withoutOffset; cbn [Shape.blocks Shape.set_currentRotation
        Shape.set_isRotating Shape.set_blocks]; rewrite ?Hbake; auto.
  - rewrite updateBlockPositions_withoutOffset; cbn; auto.
Qed.

Lemma wouldCollide_withoutOffset (s : Shape.t) (nextY : Q) :
  Forall withoutOffset (Shape.blocks s) -> Shape.wouldCollide rot s nextY = false.
Proof.
  unfold Shape.wouldCollide. induction 1 as [|b bs Hb _ IH]; [reflexivity|].
  cbn [existsb]. rewrite Hb, IH. reflexivity.
Qed.

Lemma update_withoutOffset (t : Q) (s : Shape.t) :
  Forall withoutOffset (Shape.blocks s) ->
  Shape.isLocked s = false ->
  Shape.isLocked (Shape.update rot t s) = false /\
  Shape.blocks (Shape.update rot t s) = Shape.blocks s.
Proof.
  intros H Hl. rewrite (update_unlocked rot t s Hl).
  pose proof (rotationStep_withoutOffset s H) as Hb.
  destruct (rotationStep_fields rot s) as (Hl1 & _).
  set (s1 := Shape.rotationStep rot s) in *.
  assert (H1 : Forall withoutOffset (Shape.blocks s1)) by (rewrite Hb; exact H).
  unfold Shape.gravityStep.
  destruct (Qle_bool 1000 (t - Shape.lastFallTime s1)); [|split; congruence].
  rewrite (wouldCollide_withoutOffset s1 _ H1).
  destruct (updateBlockPositions_fields rot
              (Shape.set_lastFallTime
                 (Shape.set_position s1
                    (Vector3.set_y (Shape.position s1)
                       (Vector3.y (Shape.position s1) - Shape.fallSpeed s1))) t))
    as (_ & Hl2 & _).
  rewrite Hl2, updateBlockPositions_withoutOffset; cbn; [|exact H1].
  split; congruence.
Qed.

(** X5.  A piece none of whose blocks has a stored offset (a piece whose
    blocks were rebuilt from a store record, or one without blocks) is
    never locked by [update]: the floor test passes over every block, so
    the base falls by [fallSpeed] at every due call while the blocks stay
    where they are. *)
Theorem pieces_without_offsets_never_land (ts : list Q) (t : Q) (s : Shape.t) :
  Forall withoutOffset (Shape.blocks s) ->
  Shape.isLocked s = false ->
  Shape.isLocked (run rot ts s) = false /\
  Shape.blocks (run rot ts s) = Shape.blocks s /\
  (Shape.isRotating s = false ->
   1000 <= t - Shape.lastFallTime s ->
   Vector3.y (Shape.position (Shape.update rot t s))
   = Vector3.y (Shape.position s) - Shape.fallSpeed s).
Proof.
  intros H Hl. split; [|split].
  - revert s H Hl. unfold run.
    induction ts as [|t0 ts IH]; intros s H Hl; cbn [fold_left]; [exact Hl|].
    destruct (update_withoutOffset t0 s H Hl) as [Hl' Hb'].
    apply IH; [rewrite Hb'; exact H|exact Hl'].
  - revert s H Hl. unfold run.
    induction ts as [|t0 ts IH]; intros s H Hl; cbn [fold_left]; [reflexivity|].
    destruct (update_withoutOffset t0 s H Hl) as [Hl' Hb'].
    rewrite IH; [exact Hb'|rewrite Hb'; exact H|exact Hl'].
  - intros Hrot Hdue. rewrite (update_unlocked rot t s Hl), (rotationStep_idle rot s Hrot).
    unfold Shape.gravityStep.
    apply Qle_bool_iff in Hdue. rewrite Hdue.
    rewrite (wouldCollide_withoutOffset s _ H).
    match goal with
    | |- context [Shape.updateBlockPositions rot ?a] =>
        destruct (updateBlockPositions_fields rot a) as (Hp & _); rewrite Hp
    end.
    reflexivity.
Qed.

(** ** A rotation in progress *)

Lemma startRotation_again (cw : bool) (s : Shape.t) :
  snd (Shape.startRotation rot cw (snd (Shape.startRotation rot cw s)))
  = snd (Shape.startRotation rot cw s).
Proof.
  unfold Shape.startRotation at 2 3.
  destruct (Shape.isRotating s) eqn:Hr.
  - cbn [snd]. unfold Shape.startRotation. rewrite Hr. reflexivity.
  - set (s4 := Shape.set_targetRotation _ _).
    destruct (Shape.newPositions rot s4 (Shape.blocks s4)) as [ps|] eqn:Hps.
    + destruct (negb (forallb _ ps)) eqn:Hv; cbn [snd].
      * unfold Shape.startRotation.
        cbn [Shape.isRotating Shape.set_currentRotation Shape.set_isRotating].
        match goal with
        | |- context [Shape.newPositions rot ?a ?b] =>
            replace (Shape.newPositions rot a b) with (Some ps)
        end.
        rewrite Hv. reflexivity.
      * unfold Shape.startRotation.
        destruct (updateBlockPositions_fields rot s4) as (_ & _ & _ & Hr4 & _).
        rewrite Hr4. reflexivity.
    + cbn [snd]. unfold Shape.startRotation. reflexivity.
Qed.

Lemma startRotation_running (cw cw' : bool) (s : Shape.t) :
  fst (Shape.startRotation rot cw s) = Returns true ->
  Shape.startRotation rot cw' (snd (Shape.startRotation rot cw s))
  = (ReturnsUndefined, snd (Shape.startRotation rot cw s)).
Proof.
  intros Hacc. unfold Shape.startRotation in Hacc |- * at 2 3.
  destruct (Shape.isRotating s) eqn:Hr; [discriminate|].
  set (s4 := Shape.set_targetRotation _ _) in *.
  destruct (Shape.newPositions rot s4 (Shape.blocks s4)) as [ps|]; [|discriminate].
  destruct (negb (forallb _ ps)); [discriminate|]. cbn [snd].
  unfold Shape.startRotation.
  destruct (updateBlockPositions_fields rot s4) as (_ & _ & _ & Hr4 & _).
  rewrite Hr4. reflexivity.
Qed.

(** X6.  [startRotation] is idempotent: calling it a second time in the
    same direction leaves the piece as the first call left it.  Once a
    turn is accepted, a further call in either direction returns nothing
    and changes nothing until [update] has ended the turn. *)
Theorem startRotation_idempotent (cw cw' : bool) (s : Shape.t) :
  snd (Shape.startRotation rot cw (snd (Shape.startRotation rot cw s)))
  = snd (Shape.startRotation rot cw s) /\
  (fst (Shape.startRotation rot cw s) = Returns true ->
   Shape.startRotation rot cw' (snd (Shape.startRotation rot cw s))
   = (ReturnsUndefined, snd (Shape.startRotation rot cw s))).
Proof.
  split; [apply startRotation_again|apply startRotation_running].
Qed.

End PieceFacts.

(** ** Collision of two pieces *)

Lemma existsb_swap {A B : Type} (f : A -> B -> bool) (la : list A) (lb : list B) :
  existsb (fun a => existsb (fun b => f a b) lb) la
  = existsb (fun b => existsb (fun a => f a b) la) lb.
Proof.
  apply eq_true_iff_eq. rewrite !existsb_exists. split.
  - intros (a & Ha & H). apply existsb_exists in H. destruct H as (b & Hb & H).
    exists b. split; [exact Hb|]. apply existsb_exists. exists a. auto.
  - intros (b & Hb & H). apply existsb_exists in H. destruct H as (a & Ha & H).
    exists a. split; [exact Ha|]. apply existsb_exists. exists b. auto.
Qed.

Lemma existsb_same {A : Type} (f g : A -> bool) (l : list A) :
  (forall a, f a = g a) -> existsb f l = existsb g l.
Proof.
  intros H. induction l as [|a l IH]; [reflexivity|]. cbn. rewrite H, IH. reflexivity.
Qed.

Lemma Qlt_bool_ext (a a' b : Q) : a == a' -> Qlt_bool a b = Qlt_bool a' b.
Proof.
  intros E. apply eq_true_iff_eq. rewrite !Qlt_bool_iff, E. reflexivity.
Qed.

Lemma overlap_sym (b1 b2 : Block.t) :
  ShapeCollision.overlap b1 b2 = ShapeCollision.overlap b2 b1.
Proof.
  unfold ShapeCollision.overlap, Math.abs. cbv zeta.
  rewrite (Qabs_Qminus (Vector3.x (Block.position b1))),
          (Qabs_Qminus (Vector3.y (Block.position b1))),
          (Qabs_Qminus (Vector3.z (Block.position b1))).
  reflexivity.
Qed.

Lemma near_whole (q : Q) (i : Z) :
  q == inject_Z i -> (Qlt_bool (Math.abs q) (9 # 10) = true <-> q == 0).
Proof.
  intros E. rewrite Qlt_bool_iff. unfold Math.abs. rewrite E. split.
  - intros H. destruct (Z.eq_dec i 0) as [->|Hne]; [reflexivity|exfalso].
    assert (H1 : 1 <= Qabs (inject_Z i)).
    { change 1 with (inject_Z 1). unfold Qabs, inject_Z. cbn.
      unfold Qle. cbn. lia. }
    lra.
  - intros H. rewrite H. reflexivity.
Qed.

Lemma overlap_on_grid (b1 b2 : Block.t) :
  wholeCellsApart b1 b2 -> (ShapeCollision.overlap b1 b2 = true <-> sameCell b1 b2).
Proof.
  intros (i & j & k & Hx & Hy & Hz).
  unfold ShapeCollision.overlap, sameCell, Vector3.eqv. cbv zeta.
  rewrite !andb_true_iff, (near_whole _ i Hx), (near_whole _ j Hy), (near_whole _ k Hz).
  split.
  - intros ((H1 & H2) & H3). repeat split; lra.
  - intros (H1 & H2 & H3). repeat split; lra.
Qed.

(** X7.  [Shape.checkCollision] on another piece and
    [GameManager.checkShapeCollision] are the same test, and the test is
    symmetric; a piece never collides with itself or with nothing.  On
    pieces whose blocks are whole cells apart the test holds exactly when a
    block of one is in the cell of a block of the other: blocks in
    neighbouring cells do not collide. *)
Theorem collision_is_sharing_a_cell (a b : Shape.t) :
  ShapeCollision.checkCollision a (ShapeCollision.Another b)
  = GameManager.checkShapeCollision a b /\
  GameManager.checkShapeCollision a b = GameManager.checkShapeCollision b a /\
  ShapeCollision.checkCollision a ShapeCollision.Itself = false /\
  ShapeCollision.checkCollision a ShapeCollision.Nothing = false /\
  ((forall b1 b2, In b1 (Shape.blocks a) -> In b2 (Shape.blocks b) -> wholeCellsApart b1 b2) ->
   (GameManager.checkShapeCollision a b = true <->
    exists b1 b2, In b1 (Shape.blocks a) /\ In b2 (Shape.blocks b) /\ sameCell b1 b2)).
Proof.
  split; [reflexivity|]. split.
  - change (GameManager.checkShapeCollision a b)
      with (existsb (fun b1 => existsb (fun b2 => ShapeCollision.overlap b1 b2)
                                       (Shape.blocks b)) (Shape.blocks a)).
    change (GameManager.checkShapeCollision b a)
      with (existsb (fun b2 => existsb (fun b1 => ShapeCollision.overlap b2 b1)
                                       (Shape.blocks a)) (Shape.blocks b)).
    rewrite existsb_swap.
    apply existsb_same. intros b2. apply existsb_same. intros b1. apply overlap_sym.
  - split; [reflexivity|]. split; [reflexivity|].
    intros Hgrid.
    change (GameManager.checkShapeCollision a b)
      with (existsb (fun b1 => existsb (fun b2 => ShapeCollision.overlap b1 b2)
                                       (Shape.blocks b)) (Shape.blocks a)).
    rewrite existsb_exists. split.
    + intros (b1 & H1 & H). apply existsb_exists in H. destruct H as (b2 & H2 & H).
      exists b1, b2. split; [exact H1|]. split; [exact H2|]. apply overlap_on_grid; auto.
    + intros (b1 & b2 & H1 & H2 & H). exists b1. split; [exact H1|].
      apply existsb_exists. exists b2. split; [exact H2|]. apply overlap_on_grid; auto.
Qed.

(** ** The flight of a bullet *)

Lemma update_constants (b : Bullet.t) :
  Bullet.gravity (Bullet.update b) = Bullet.gravity b /\
  Bullet.bounceDamping (Bullet.update b) = Bullet.bounceDamping b /\
  Bullet.airResistance (Bullet.update b) = Bullet.airResistance b /\
  Bullet.groundLevel (Bullet.update b) = Bullet.groundLevel b /\
  Bullet.maxLifetime (Bullet.update b) = Bullet.maxLifetime b /\
  Bullet.lifetime (Bullet.update b) = Bullet.lifetime b + 16.
Proof. repeat split. Qed.

Lemma flown_constants (k : nat) (b : Bullet.t) :
  Bullet.airResistance (flown k b) = Bullet.airResistance b /\
  Bullet.groundLevel (flown k b) = Bullet.groundLevel b /\
  Bullet.maxLifetime (flown k b) = Bullet.maxLifetime b /\
  Bullet.lifetime (flown k b) == Bullet.lifetime b + 16 * inject_Z (Z.of_nat k).
Proof.
  induction k as [|k (Ha & Hg & Hm & Hl)].
  - cbn. repeat split. ring.
  - cbn [flown]. destruct (update_constants (flown k b)) as (_ & _ & Ha' & Hg' & Hm' & Hl').
    rewrite Ha', Hg', Hm', Hl', Hl. repeat split; auto.
    rewrite Nat2Z.inj_succ, <- Z.add_1_r, inject_Z_plus. ring.
Qed.

Lemma update_above_ground (b : Bullet.t) :
  Bullet.groundLevel b <= Vector3.y (Bullet.position (Bullet.update b)).
Proof.
  unfold Bullet.update. cbv zeta. cbn [Bullet.position].
  destruct (Qle_bool _ (Bullet.groundLevel b)) eqn:E.
  - cbn. lra.
  - apply Qle_bool_false_iff in E. lra.
Qed.

Lemma update_mesh (b : Bullet.t) :
  Bullet.mesh b <> None ->
  Bullet.mesh (Bullet.update b) = Some (Bullet.position (Bullet.update b)).
Proof.
  intros H. unfold Bullet.update. cbv zeta. cbn [Bullet.mesh Bullet.position].
  destruct (Bullet.mesh b) as [m|]; [|congruence].
  destruct (Qle_bool _ (Bullet.groundLevel b)); reflexivity.
Qed.

Lemma update_drift (b : Bullet.t) :
  Vector3.x (Bullet.velocity (Bullet.update b))
  = Vector3.x (Bullet.velocity b) * Bullet.airResistance b /\
  Vector3.z (Bullet.velocity (Bullet.update b))
  = Vector3.z (Bullet.velocity b) * Bullet.airResistance b.
Proof.
  unfold Bullet.update. cbv zeta. cbn [Bullet.velocity].
  destruct (Qle_bool _ (Bullet.groundLevel b)); split; reflexivity.
Qed.

Lemma Qpower_next (a : Q) (k : nat) : a ^ Z.of_nat (S k) == a ^ Z.of_nat k * a.
Proof.
  destruct k as [|k].
  - cbn. ring.
  - rewrite (Nat2Z.inj_succ (S k)). cbn [Z.of_nat]. unfold Z.succ. cbn [Z.add].
    unfold Qpower. rewrite Qpower_plus_positive. reflexivity.
Qed.

Lemma flown_drift (k : nat) (b : Bullet.t) :
  Vector3.x (Bullet.velocity (flown k b))
    == Vector3.x (Bullet.velocity b) * Bullet.airResistance b ^ Z.of_nat k /\
  Vector3.z (Bullet.velocity (flown k b))
    == Vector3.z (Bullet.velocity b) * Bullet.airResistance b ^ Z.of_nat k.
Proof.
  induction k as [|k [IHx IHz]].
  - cbn. split; ring.
  - cbn [flown]. destruct (update_drift (flown k b)) as [Hx Hz].
    destruct (flown_constants k b) as (Ha & _).
    rewrite Hx, Hz, Ha, IHx, IHz, Qpower_next. split; ring.
Qed.

Lemma power_of_fraction (a : Q) (k : nat) :
  0 <= a -> a <= 1 -> 0 <= a ^ Z.of_nat k /\ a ^ Z.of_nat k <= 1.
Proof.
  intros H0 H1. induction k as [|k [IH0 IH1]].
  - cbn. split; lra.
  - rewrite Qpower_next. split.
    + apply Qmult_le_0_compat; assumption.
    + assert (H : 0 <= a ^ Z.of_nat k * (1 - a)).
      { apply Qmult_le_0_compat; lra. }
      lra.
Qed.

Lemma damped (v p : Q) : 0 <= p -> p <= 1 -> Qabs (v * p) <= Qabs v /\ 0 <= v * (v * p).
Proof.
  intros H0 H1. split.
  - rewrite Qabs_Qmult, (Qabs_pos p H0).
    assert (H : 0 <= Qabs v * (1 - p)).
    { apply Qmult_le_0_compat; [apply Qabs_nonneg|lra]. }
    lra.
  - assert (E : v * (v * p) == (v * v) * p) by ring. rewrite E.
    apply Qmult_le_0_compat; [|exact H0].
    destruct (Qlt_le_dec v 0) as [Hv|Hv].
    + assert (E2 : v * v == (- v) * (- v)) by ring. rewrite E2.
      apply Qmult_le_0_compat; lra.
    + apply Qmult_le_0_compat; assumption.
Qed.

(** X8.  After one or more calls of [update] a bullet is never below its
    ground level and its mesh is where its position is.  With an air
    resistance between 0 and 1, as the constructor sets it, a bullet never
    gains horizontal speed and never turns back, over any number of
    calls: each horizontal component of its velocity is at most what it
    was in absolute value, and of the same sign or zero. *)
Theorem bullet_flight (k : nat) (b : Bullet.t) :
  ((0 < k)%nat ->
   Bullet.groundLevel b <= Vector3.y (Bullet.position (flown k b)) /\
   (Bullet.mesh b <> None ->
    Bullet.mesh (flown k b) = Some (Bullet.position (flown k b)))) /\
  (0 <= Bullet.airResistance b -> Bullet.airResistance b <= 1 ->
   Qabs (Vector3.x (Bullet.velocity (flown k b))) <= Qabs (Vector3.x (Bullet.velocity b)) /\
   Qabs (Vector3.z (Bullet.velocity (flown k b))) <= Qabs (Vector3.z (Bullet.velocity b)) /\
   0 <= Vector3.x (Bullet.velocity b) * Vector3.x (Bullet.velocity (flown k b)) /\
   0 <= Vector3.z (Bullet.velocity b) * Vector3.z (Bullet.velocity (flown k b))).
Proof.
  split.
  - intros Hk. destruct k as [|k]; [lia|]. cbn [flown].
    destruct (flown_constants k b) as (_ & Hg & _).
    split.
    + rewrite <- Hg. apply update_above_ground.
    + intros Hm. apply update_mesh.
      clear Hk Hg. induction k as [|k IH]; [exact Hm|].
      cbn [flown]. rewrite (update_mesh _ IH). discriminate.
  - intros H0 H1. destruct (flown_drift k b) as [Hx Hz].
    destruct (power_of_fraction (Bullet.airResistance b) k H0 H1) as [Hp0 Hp1].
    destruct (damped (Vector3.x (Bullet.velocity b)) _ Hp0 Hp1) as [Ax Bx].
    destruct (damped (Vector3.z (Bullet.velocity b)) _ Hp0 Hp1) as [Az Bz].
    rewrite Hx, Hz. repeat split; assumption.
Qed.

Lemma update_dead (b : Bullet.t) :
  Bullet.isDead (Bullet.update b) = true <->
  Bullet.isDead b = true \/ atRest (Bullet.update b)
  \/ Bullet.maxLifetime b < Bullet.lifetime b + 16.
Proof.
  unfold atRest.
  assert (Hg : Bullet.groundLevel (Bullet.update b) = Bullet.groundLevel b) by reflexivity.
  rewrite Hg. unfold Bullet.update. cbv zeta. cbn [Bullet.isDead Bullet.velocity Bullet.position].
  set (c := Qle_bool _ (Bullet.groundLevel b)).
  set (v1 := if c then _ else _). set (p1 := if c then _ else _).
  destruct (Qlt_bool (Math.abs (Vector3.y v1)) (1 # 100)) eqn:E1;
  destruct (Qle_bool (Vector3.y p1) (Bullet.groundLevel b)) eqn:E2;
  destruct (Qlt_bool (Bullet.maxLifetime b) (Bullet.lifetime b + 16)) eqn:E3;
  cbn [andb orb];
  try apply Qlt_bool_iff in E1; try apply Qlt_bool_false_iff in E1;
  try apply Qle_bool_iff in E2; try apply Qle_bool_false_iff in E2;
  try apply Qlt_bool_iff in E3; try apply Qlt_bool_false_iff in E3;
  unfold Math.abs in *;
  split; intros H; auto;
  try (destruct H as [H|[[H H']|H]]; [exact H|lra..]).
Qed.

(** X9.  A bullet that is dead stays dead.  A new bullet is dead after its
    501st call of [update] whatever its flight; through its first 500
    calls it is dead only if one of them left it at rest on the floor. *)
Theorem bullet_dies_by_count (k j i : nat) (pos direction : Vector3.t) (b : Bullet.t) :
  (Bullet.isDead b = true -> Bullet.isDead (flown i b) = true) /\
  ((501 <= k)%nat -> Bullet.isDead (flown k (Bullet.new pos direction)) = true) /\
  ((j <= 500)%nat ->
   Bullet.isDead (flown j (Bullet.new pos direction)) = true ->
   exists r, (1 <= r <= j)%nat /\ atRest (flown r (Bullet.new pos direction))).
Proof.
  split; [|split].
  - intros H. induction i as [|i IH]; [exact H|].
    cbn [flown]. apply update_dead. left. exact IH.
  - intros Hk. destruct k as [|k]; [lia|]. cbn [flown]. apply update_dead.
    right. right. destruct (flown_constants k (Bullet.new pos direction)) as (_ & _ & Hm & Hl).
    rewrite Hm, Hl. cbn [Bullet.maxLifetime Bullet.lifetime Bullet.new].
    assert (500 <= inject_Z (Z.of_nat k)).
    { change 500 with (inject_Z 500). rewrite <- Zle_Qle. lia. }
    lra.
  - clear k i. induction j as [|j IH]; intros Hj Hdead; [discriminate|].
    cbn [flown] in Hdead. apply update_dead in Hdead.
    destruct Hdead as [Hdead|[Hrest|Hold]].
    + destruct IH as (r & Hr & Hrest); [lia|exact Hdead|]. exists r. split; [lia|exact Hrest].
    + exists (S j). split; [lia|exact Hrest].
    + exfalso. destruct (flown_constants j (Bullet.new pos direction)) as (_ & _ & Hm & Hl).
      rewrite Hm, Hl in Hold. cbn [Bullet.maxLifetime Bullet.lifetime Bullet.new] in Hold.
      assert (inject_Z (Z.of_nat j) <= 499).
      { change 499 with (inject_Z 499). rewrite <- Zle_Qle. lia. }
      lra.
Qed.

(** ** The player cache *)






(** ** Who spawns *)



(** ** Floating shapes *)

Lemma delete_as_filter {V : Type} (id : string) (m : list (string * V)) :
  JsMap.delete String.eqb id m = filter (fun e => negb (String.eqb id (fst e))) m.
Proof.
  induction m as [|[k v] m IH]; [reflexivity|].
  cbn [JsMap.delete filter fst]. destruct (String.eqb id k); cbn [negb]; rewrite IH; reflexivity.
Qed.

Lemma filter_twice {A : Type} (f g : A -> bool) (l : list A) :
  filter f (filter g l) = filter (fun a => g a && f a) l.
Proof.
  induction l as [|a l IH]; [reflexivity|]. cbn [filter].
  destruct (g a); cbn [filter andb]; [destruct (f a)|]; rewrite IH; reflexivity.
Qed.

Lemma filter_none {A : Type} (f : A -> bool) (l : list A) :
  (forall a, In a l -> f a = false) -> filter f l = [].
Proof.
  induction l as [|a l IH]; intros H; [reflexivity|]. cbn [filter].
  rewrite (H a (or_introl eq_refl)). apply IH. intros b Hb. apply H. right. exact Hb.
Qed.

Lemma filter_same {A : Type} (f g : A -> bool) (l : list A) :
  (forall a, In a l -> f a = g a) -> filter f l = filter g l.
Proof.
  induction l as [|a l IH]; intros H; [reflexivity|]. cbn [filter].
  rewrite (H a (or_introl eq_refl)), IH; [reflexivity|].
  intros b Hb. apply H. right. exact Hb.
Qed.

(** The loop of [cleanupFloatingShapes] over ids that are all cached. *)
Lemma removals (ids : list string) :
  forall (n : NetworkManager.t) (es : list effect),
    (forall id, In id ids -> In id (JsMap.keys (NetworkManager.shapes n))) ->
    NoDup ids ->
    fold_left
      (fun (acc : NetworkManager.t * list effect) id =>
         let '(m, es) := acc in
         match JsMap.get String.eqb id (NetworkManager.shapes m) with
         | Some _ =>
             (NetworkManager.set_shapes m
                (JsMap.delete String.eqb id (NetworkManager.shapes m)),
              es ++ [Dispose (AShape id); Write (SetShape id None)])
         | None => acc
         end)
      ids (n, es)
    = (NetworkManager.set_shapes n
         (filter (fun e => negb (existsb (String.eqb (fst e)) ids)) (NetworkManager.shapes n)),
       es ++ flat_map (fun id => [Dispose (AShape id); Write (SetShape id None)]) ids).
Proof.
  induction ids as [|id ids IH]; intros n es Hin Hnd; cbn [fold_left flat_map existsb].
  - rewrite app_nil_r. f_equal.
    assert (E : forall l : list (string * Shape.t), filter (fun _ => negb false) l = l).
    { induction l as [|e l IHl]; [reflexivity|]. cbn [filter negb]. f_equal. exact IHl. }
    rewrite E. destruct n; reflexivity.
  - inversion Hnd as [|? ? Hnotin Hnd']; subst.
    destruct (JsMap.get String.eqb id (NetworkManager.shapes n)) as [s|] eqn:Eget.
    + rewrite IH; [|intros k Hk|exact Hnd'].
      * cbn [NetworkManager.shapes NetworkManager.set_shapes].
        rewrite delete_as_filter, filter_twice, <- app_assoc.
        assert (Hf : filter (fun a : string * Shape.t =>
                               negb (String.eqb id (fst a))
                               && negb (existsb (String.eqb (fst a)) ids))
                            (NetworkManager.shapes n)
                     = filter (fun e : string * Shape.t =>
                                 negb (String.eqb (fst e) id
                                       || existsb (String.eqb (fst e)) ids))
                              (NetworkManager.shapes n)).
        { apply filter_same. intros [k v] _. cbn [fst].
          rewrite (String.eqb_sym k id). destruct (String.eqb id k); reflexivity. }
        rewrite Hf. reflexivity.
      * cbn [NetworkManager.shapes NetworkManager.set_shapes].
        rewrite delete_as_filter. unfold JsMap.keys.
        specialize (Hin k (or_intror Hk)). apply in_map_iff in Hin.
        destruct Hin as ([k' v] & <- & Hin). apply in_map_iff. exists (k', v).
        split; [reflexivity|]. apply filter_In. split; [exact Hin|].
        cbn [fst]. apply negb_true_iff. apply String.eqb_neq. intros ->. contradiction.
    + exfalso. apply get_none_iff in Eget. apply Eget. apply Hin. left. reflexivity.
Qed.

Lemma floating_ids (m : list (string * Shape.t)) :
  NoDup (JsMap.keys m) ->
  forall e, In e m ->
    existsb (String.eqb (fst e))
      (map fst (filter (fun e => NetworkManager.isFloating (snd e)) m))
    = NetworkManager.isFloating (snd e).
Proof.
  intros Hnd [k s] Hin. cbn [fst snd]. apply eq_true_iff_eq. rewrite existsb_eqb_in. split.
  - intros H. apply in_map_iff in H. destruct H as ([k' s'] & Hk & H). cbn in Hk. subst k'.
    apply filter_In in H. destruct H as [H Hf]. cbn in Hf.
    assert (E : Some s' = Some s).
    { rewrite <- (in_get k s' m Hnd H). apply in_get; assumption. }
    inversion E; subst. exact Hf.
  - intros Hf. apply in_map_iff. exists (k, s). split; [reflexivity|].
    apply filter_In. split; [exact Hin|exact Hf].
Qed.

Lemma NoDup_filtered_keys (f : string * Shape.t -> bool) (m : list (string * Shape.t)) :
  NoDup (JsMap.keys m) -> NoDup (map fst (filter f m)).
Proof.
  unfold JsMap.keys. induction m as [|[k s] m IH]; cbn [map filter fst]; intros H; [constructor|].
  inversion H as [|? ? Hnotin Hnd]; subst.
  destruct (f (k, s)); [|apply IH; exact Hnd].
  cbn [map fst]. constructor; [|apply IH; exact Hnd].
  intros Hin. apply Hnotin. apply in_map_iff in Hin. destruct Hin as (e & He & Hin).
  apply filter_In in Hin. apply in_map_iff. exists e. split; [exact He|apply Hin].
Qed.

(** X12.  [cleanupFloatingShapes] keeps exactly the cached shapes that are
    not floating (active or on the floor, and not above height 20), in
    order; it disposes of every other one and deletes its store record.
    A second call finds nothing to remove. *)
Theorem cleanup_removes_floating_shapes (n : NetworkManager.t) :
  NoDup (JsMap.keys (NetworkManager.shapes n)) ->
  NetworkManager.shapes (fst (NetworkManager.cleanupFloatingShapes n))
  = filter (fun e => negb (NetworkManager.isFloating (snd e))) (NetworkManager.shapes n) /\
  snd (NetworkManager.cleanupFloatingShapes n)
  = flat_map
      (fun e => if NetworkManager.isFloating (snd e)
                then [Dispose (AShape (fst e)); Write (SetShape (fst e) None)] else [])
      (NetworkManager.shapes n) /\
  NetworkManager.cleanupFloatingShapes (fst (NetworkManager.cleanupFloatingShapes n))
  = (fst (NetworkManager.cleanupFloatingShapes n), []).
Proof.
  intros Hnd.
  assert (E : NetworkManager.cleanupFloatingShapes n
              = (NetworkManager.set_shapes n
                   (filter (fun e => negb (NetworkManager.isFloating (snd e)))
                           (NetworkManager.shapes n)),
                 flat_map
                   (fun e => if NetworkManager.isFloating (snd e)
                             then [Dispose (AShape (fst e)); Write (SetShape (fst e) None)]
                             else [])
                   (NetworkManager.shapes n))).
  { unfold NetworkManager.cleanupFloatingShapes. rewrite removals.
    - cbn [app]. f_equal.
      + f_equal. apply filter_same. intros e He. f_equal. apply floating_ids; assumption.
      + clear. induction (NetworkManager.shapes n) as [|[k s] l IH]; [reflexivity|].
        cbn [filter map flat_map fst snd].
        destruct (NetworkManager.isFloating s); cbn [map flat_map fst app]; rewrite IH;
          reflexivity.
    - intros id Hin. apply in_map_iff in Hin. destruct Hin as (e & <- & Hin).
      apply filter_In in Hin. apply in_map. apply Hin.
    - apply NoDup_filtered_keys. exact Hnd. }
  rewrite E. cbn [fst snd NetworkManager.shapes NetworkManager.set_shapes].
  split; [reflexivity|]. split; [reflexivity|].
  unfold NetworkManager.cleanupFloatingShapes.
  cbn [NetworkManager.shapes NetworkManager.set_shapes].
  rewrite filter_twice, filter_none; [reflexivity|].
  intros e _. destruct (NetworkManager.isFloating (snd e)); reflexivity.
Qed.

(** ** The shape cache after a snapshot *)

Section CacheFacts.

Variable rot : AxisAngle.

Lemma addOrUpdateShapes_origin (now : Q) (k : string) :
  forall (snapshot : list (string * ShapeData.t)) (acc : list (string * Shape.t) * list effect),
    In k (JsMap.keys (fst (fold_left (NetworkManager.addOrUpdateShape rot now) snapshot acc))) ->
    In k (JsMap.keys (fst acc)) \/
    exists d, In (k, d) snapshot /\ NetworkManager.creatable d = true /\ tooHigh d = false.
Proof.
  induction snapshot as [|[id d] snapshot IH]; intros [cache es]; cbn [fold_left]; [auto|].
  intros H. apply IH in H. destruct H as [H|(d' & Hin & Hc & Hh)].
  - destruct (addOrUpdateShape_cases rot now cache es id d)
      as [(s & Hs & E)|[(_ & Hc & Hh & s' & E)|[(_ & _ & E)|(_ & _ & E)]]];
      rewrite E in H; cbn [fst] in H.
    + apply keys_set in H. destruct H as [->|H]; [|left; exact H].
      left. apply get_in in Hs. apply (in_map fst) in Hs. exact Hs.
    + apply keys_set in H. destruct H as [->|H]; [|left; exact H].
      right. exists d. split; [left; reflexivity|auto].
    + left. exact H.
    + left. exact H.
  - right. exists d'. split; [right; exact Hin|auto].
Qed.

(** X13.  After [updateShapes] the cache holds the ids of the snapshot that
    were cached before or whose record can be built (type, colour and
    position truthy, height at most 20), and no other id: a shape that has
    left the snapshot is gone. *)
Theorem shapes_cached_after_update (snapshot : list (string * ShapeData.t)) (now : Q)
    (n : NetworkManager.t) (id : string) :
  NetworkManager.scene n = true ->
  NoDup (JsMap.keys snapshot) ->
  (In id (JsMap.keys (NetworkManager.shapes
                        (fst (NetworkManager.updateShapes rot snapshot now n))))
   <-> exists d,
         get id snapshot = Some d /\
         (In id (JsMap.keys (NetworkManager.shapes n)) \/
          (NetworkManager.creatable d = true /\ tooHigh d = false))).
Proof.
  intros Hscene Hnd. unfold NetworkManager.updateShapes. rewrite Hscene. cbn [negb].
  pose proof (dropShapes_get (JsMap.keys snapshot) id (NetworkManager.shapes n)
                (NetworkManager.shapes n) []) as HA.
  pose proof (fun k => dropShapes_keys (JsMap.keys snapshot) (NetworkManager.shapes n)
                (NetworkManager.shapes n) [] k) as HK.
  destruct (fold_left (NetworkManager.dropShape (JsMap.keys snapshot)) _ _) as [cache1 es1].
  pose proof (addOrUpdateShapes_origin now id snapshot (cache1, es1)) as HO.
  pose proof (addOrUpdateShapes_keys rot now snapshot (cache1, es1) id) as [HK1 _].
  pose proof (fun d => addOrUpdateShapes_present rot now snapshot (cache1, es1) id d) as HP.
  destruct (fold_left (NetworkManager.addOrUpdateShape rot now) snapshot (cache1, es1))
    as [cache2 es2].
  cbn [fst snd NetworkManager.shapes NetworkManager.set_shapes] in *.
  split.
  - intros H. apply HO in H. destruct H as [H|(d & Hin & Hc & Hh)].
    + destruct (existsb (String.eqb id) (JsMap.keys snapshot)) eqn:Ex.
      * apply existsb_eqb_in in Ex.
        destruct (get id snapshot) as [d|] eqn:Ed.
        -- exists d. split; [reflexivity|]. left. apply HK. exact H.
        -- apply get_none_iff in Ed. contradiction.
      * exfalso.
        assert (Hnone : get id cache1 = None).
        { rewrite HA. destruct (existsb _ (JsMap.keys (NetworkManager.shapes n))) eqn:Ex1;
            [reflexivity|].
          apply get_none_iff. intros Hin. apply existsb_eqb_in in Hin. congruence. }
        apply get_none_iff in Hnone. contradiction.
    + exists d. split; [apply in_get; assumption|]. right. auto.
  - intros (d & Hd & [Hin|[Hc Hh]]).
    + apply HK1.
      assert (Ex : existsb (String.eqb id) (JsMap.keys snapshot) = true).
      { apply existsb_eqb_in. apply get_in in Hd. apply (in_map fst) in Hd. exact Hd. }
      rewrite Ex in HA.
      destruct (get id cache1) as [s|] eqn:E1.
      * apply get_in in E1. apply (in_map fst) in E1. exact E1.
      * exfalso. symmetry in HA. apply get_none_iff in HA. contradiction.
    + apply (HP d); auto. apply get_in. exact Hd.
Qed.

(** *** A shape built from a record *)

Lemma updateBlockPositions_identity (s : Shape.t) :
  Shape.type (Shape.updateBlockPositions rot s) = Shape.type s /\
  Shape.color (Shape.updateBlockPositions rot s) = Shape.color s.
Proof.
  unfold Shape.updateBlockPositions. destruct (Shape.blocks s); auto.
Qed.

Lemma generated_offsets (ty : string) (pos : Vector3.t) :
  map Block.initialOffset (Shape.generateBlocks ty pos) = definitionOffsets ty.
Proof.
  unfold Shape.generateBlocks, definitionOffsets. rewrite map_map. reflexivity.
Qed.

Lemma offsets_hasOffset (s : Shape.t) (ty : string) :
  offsets s = definitionOffsets ty -> Forall hasOffset (Shape.blocks s).
Proof.
  unfold offsets, definitionOffsets, hasOffset.
  generalize (Shape.getShapeDefinition ty) as l.
  induction (Shape.blocks s) as [|b bs IH]; intros l H; [constructor|].
  destruct l as [|o l]; [discriminate|]. cbn in H. injection H as Hb Hbs.
  constructor; [rewrite Hb; discriminate|]. apply (IH l). exact Hbs.
Qed.

(** The piece [updateShapes] has in hand when it goes on to apply the
    record to it. *)
Lemma new_shape_in_hand (ty : string) (col : Z) (pos : Vector3.t) (locked active : bool) :
  let s :=
    Shape.updateBlockPositions rot
      (Shape.set_isActive
         (Shape.set_isLocked (Shape.set_position (Shape.new ty col false) pos) locked)
         active) in
  Shape.type s = ty /\ Shape.color s = col /\ Shape.position s = pos /\
  Shape.isRotating s = false /\ offsets s = definitionOffsets ty /\ placed rot s.
Proof.
  cbv zeta.
  set (s0 := Shape.set_isActive _ _).
  destruct (updateBlockPositions_identity s0) as [Ht Hc].
  destruct (updateBlockPositions_fields rot s0) as (Hp & _ & _ & Hr & _).
  rewrite Ht, Hc, Hp, Hr, offsets_updateBlockPositions.
  assert (Ho : offsets s0 = definitionOffsets ty) by apply generated_offsets.
  repeat split; try reflexivity; [exact Ho|].
  apply placed_updateBlockPositions. apply (offsets_hasOffset s0 ty Ho).
Qed.

Lemma keeps_place (a b : Shape.t) :
  placed rot a ->
  Shape.blocks b = Shape.blocks a ->
  Vector3.eqv (Shape.position b) (Shape.position a) ->
  Shape.isRotating a = false ->
  Shape.isRotating b = false ->
  placed rot b.
Proof.
  unfold placed. intros Hpl Hb Hp Ha Hr. rewrite Hb.
  eapply Forall_impl; [|exact Hpl]. intros blk (off & Hoff & Hpos).
  exists off. split; [exact Hoff|].
  unfold Shape.relativePos in *. rewrite Ha in Hpos. rewrite Hr.
  apply eqv_trans with (b := Vector3.add (Shape.position a) off); [exact Hpos|].
  apply eqv_add. apply eqv_sym. exact Hp.
Qed.

Lemma numberOr_again (o : option Q) (d : Q) :
  NetworkManager.numberOr o (NetworkManager.numberOr o d) = NetworkManager.numberOr o d.
Proof.
  unfold NetworkManager.numberOr. destruct o as [q|]; [|reflexivity].
  destruct (Qeq_bool q 0); reflexivity.
Qed.

Lemma applyRecord_to_new (now : Q) (id : string) (data : ShapeData.t) (p : PositionData.t)
    (s : Shape.t) :
  ShapeData.position data = Some p ->
  ShapeData.blocks data = None ->
  ShapeData.isRotating data = false ->
  Shape.position s = NetworkManager.initialPosition p ->
  Shape.isRotating s = false ->
  placed rot s ->
  let s' := fst (NetworkManager.applyRecord rot now id data s) in
  Shape.type s' = Shape.type s /\ Shape.color s' = Shape.color s /\
  Vector3.eqv (Shape.position s') (NetworkManager.initialPosition p) /\
  Shape.isLocked s' = ShapeData.isLocked data /\
  Shape.isActive s' = ShapeData.isActive data /\
  offsets s' = offsets s /\
  placed rot s'.
Proof.
  intros Hp Hb Hr Hpos Hrot Hpl. cbv zeta.
  destruct (applyRecord_flags rot now id data s) as [Hl Ha].
  pose proof (applyRecord_position rot now id data s) as Hq.
  assert (Heqv : Vector3.eqv (remotePosition data s) (NetworkManager.initialPosition p)).
  { unfold remotePosition. rewrite Hp, Hpos.
    destruct (negb (Shape.isLocked s)); [|apply eqv_refl].
    destruct (PositionData.y p) as [newY|] eqn:Ey; [|apply eqv_refl].
    destruct (Qle_bool newY _); [|apply eqv_refl].
    unfold NetworkManager.initialPosition. cbn [Vector3.x Vector3.z].
    rewrite !numberOr_again. rewrite Ey.
    unfold Vector3.eqv. cbn [Vector3.x Vector3.y Vector3.z].
    repeat split; try reflexivity.
    unfold NetworkManager.numberOr. destruct (Qeq_bool newY 0) eqn:E0; [|reflexivity].
    apply Qeq_bool_iff in E0. exact E0. }
  rewrite Hl, Ha, Hq.
  unfold NetworkManager.applyRecord in *. rewrite Hb, Hr in *. cbv zeta in *.
  set (s1 := match ShapeData.position data with Some _ => _ | None => s end) in *.
  assert (Hs1 : Shape.type s1 = Shape.type s /\ Shape.color s1 = Shape.color s /\
                Shape.blocks s1 = Shape.blocks s).
  { unfold s1. destruct (ShapeData.position data) as [p0|]; [|auto].
    destruct (negb (Shape.isLocked s)); [|auto].
    destruct (PositionData.y p0); [|auto].
    destruct (Qle_bool _ _); auto. }
  destruct Hs1 as (Ht1 & Hc1 & Hb1).
  set (s3 := match ShapeData.currentRotation data with Some _ => _ | None => _ end) in *.
  assert (Hs3 : Shape.type s3 = Shape.type s /\ Shape.color s3 = Shape.color s /\
                Shape.blocks s3 = Shape.blocks s /\ Shape.position s3 = Shape.position s1 /\
                Shape.isRotating s3 = false /\
                Shape.isActive s3 = ShapeData.isActive data).
  { unfold s3. destruct (ShapeData.currentRotation data); cbn; auto 10. }
  destruct Hs3 as (Ht3 & Hc3 & Hb3 & Hp3 & Hr3 & Ha3).
  cbn [fst] in *.
  assert (Hpl3 : placed rot s3).
  { apply keeps_place with (a := s); auto.
    assert (E : Shape.position s3 = remotePosition data s).
    { rewrite <- Hq. destruct (Shape.isActive s3).
      - destruct (updateBlockPositions_fields rot s3) as (E & _). rewrite E. reflexivity.
      - reflexivity. }
    rewrite E, Hpos. exact Heqv. }
  destruct (Shape.isActive s3).
  - destruct (updateBlockPositions_identity s3) as [Ht Hc].
    rewrite Ht, Hc, offsets_updateBlockPositions.
    repeat split; auto; try apply Heqv.
    + unfold offsets. rewrite Hb3. reflexivity.
    + apply placed_updateBlockPositions. apply (placed_hasOffset rot s3 Hpl3).
  - repeat split; auto; try apply Heqv.
    unfold offsets. rewrite Hb3. reflexivity.
Qed.

Lemma addOrUpdateShapes_created (now : Q) (id : string) (data : ShapeData.t)
    (ty : string) (col : Z) (p : PositionData.t) :
  ShapeData.type data = Some ty ->
  ShapeData.color data = Some col ->
  ShapeData.position data = Some p ->
  NetworkManager.creatable data = true ->
  tooHigh data = false ->
  forall (snapshot : list (string * ShapeData.t)) (acc : list (string * Shape.t) * list effect),
    NoDup (JsMap.keys snapshot) ->
    get id (fst acc) = None ->
    get id snapshot = Some data ->
    get id (fst (fold_left (NetworkManager.addOrUpdateShape rot now) snapshot acc))
    = Some (fst (NetworkManager.applyRecord rot now id data
                   (Shape.updateBlockPositions rot
                      (Shape.set_isActive
                         (Shape.set_isLocked
                            (Shape.set_position (Shape.new ty col false)
                               (NetworkManager.initialPosition p))
                            (ShapeData.isLocked data))
                         (ShapeData.isActive data))))).
Proof.
  intros Hty Hcol Hpos Hc Hh.
  induction snapshot as [|[id' data'] snapshot IH]; intros [cache es] Hnd Hs Hd;
    cbn [fold_left JsMap.get fst] in *; [discriminate|].
  inversion Hnd as [|? ? Hnotin Hnd']; subst.
  destruct (String.eqb id id') eqn:E.
  - apply String.eqb_eq in E. subst id'. injection Hd as ->.
    rewrite addOrUpdateShapes_absent by exact Hnotin.
    unfold NetworkManager.addOrUpdateShape. rewrite Hs, Hc, Hty, Hcol, Hpos.
    unfold tooHigh in Hh. rewrite Hpos in Hh. rewrite Hh.
    match goal with |- context [NetworkManager.applyRecord rot now id data ?a] =>
      destruct (NetworkManager.applyRecord rot now id data a) as [shape' es'] end.
    cbn [fst]. apply get_set_same.
  - apply String.eqb_neq in E. apply IH; [exact Hnd'| |exact Hd].
    etransitivity; [apply (addOrUpdateShape_other rot now id id' data' cache es E)|exact Hs].
Qed.

Lemma built_from_record (snapshot : list (string * ShapeData.t)) (now : Q)
    (n : NetworkManager.t) (id : string) (data : ShapeData.t)
    (ty : string) (col : Z) (p : PositionData.t) :
  NetworkManager.scene n = true ->
  NoDup (JsMap.keys snapshot) ->
  get id (NetworkManager.shapes n) = None ->
  get id snapshot = Some data ->
  ShapeData.type data = Some ty ->
  ShapeData.color data = Some col ->
  ShapeData.position data = Some p ->
  NetworkManager.creatable data = true ->
  tooHigh data = false ->
  ShapeData.blocks data = None ->
  ShapeData.isRotating data = false ->
  exists s',
    get id (NetworkManager.shapes (fst (NetworkManager.updateShapes rot snapshot now n)))
      = Some s' /\
    Shape.type s' = ty /\ Shape.color s' = col /\
    Vector3.eqv (Shape.position s') (NetworkManager.initialPosition p) /\
    Shape.isLocked s' = ShapeData.isLocked data /\
    Shape.isActive s' = ShapeData.isActive data /\
    offsets s' = definitionOffsets ty /\
    placed rot s'.
Proof.
  intros Hscene Hnd Hnew Hd Hty Hcol Hpos Hc Hh Hb Hr.
  eexists. split.
  - unfold NetworkManager.updateShapes. rewrite Hscene. cbn [negb].
    pose proof (dropShapes_get (JsMap.keys snapshot) id (NetworkManager.shapes n)
                  (NetworkManager.shapes n) []) as HA.
    destruct (fold_left (NetworkManager.dropShape (JsMap.keys snapshot)) _ _) as [cache1 es1].
    pose proof (addOrUpdateShapes_created now id data ty col p Hty Hcol Hpos Hc Hh snapshot
                  (cache1, es1) Hnd) as HB.
    destruct (fold_left (NetworkManager.addOrUpdateShape rot now) snapshot (cache1, es1))
      as [cache2 es2].
    cbn [fst snd NetworkManager.shapes NetworkManager.set_shapes] in *.
    apply HB; [|exact Hd]. rewrite HA, Hnew.
    destruct (existsb _ (JsMap.keys snapshot)); [reflexivity|].
    destruct (existsb _ _); reflexivity.
  - destruct (new_shape_in_hand ty col (NetworkManager.initialPosition p)
                (ShapeData.isLocked data) (ShapeData.isActive data))
      as (Ht0 & Hc0 & Hp0 & Hr0 & Ho0 & Hpl0).
    destruct (applyRecord_to_new now id data p _ Hpos Hb Hr Hp0 Hr0 Hpl0)
      as (Ht & Hcl & Hp' & Hl & Ha & Ho & Hpl).
    rewrite Ht, Hcl, Ho, Ht0, Hc0, Ho0. repeat split; auto; apply Hp'.
Qed.

(** X14.  A shape [updateShapes] builds from a record that carries no block
    list and is not rotating is the piece of the record: its type and
    colour, its base at the position of the record (0 for a coordinate
    that is missing or not a number), its flags, the offsets of
    [getShapeDefinition], and every block at base plus offset. *)
Theorem shape_built_from_record (snapshot : list (string * ShapeData.t)) (now : Q)
    (n : NetworkManager.t) (id : string) (data : ShapeData.t)
    (ty : string) (col : Z) (p : PositionData.t) :
  NetworkManager.scene n = true ->
  NoDup (JsMap.keys snapshot) ->
  get id (NetworkManager.shapes n) = None ->
  get id snapshot = Some data ->
  ShapeData.type data = Some ty ->
  ShapeData.color data = Some col ->
  ShapeData.position data = Some p ->
  NetworkManager.creatable data = true ->
  tooHigh data = false ->
  ShapeData.blocks data = None ->
  ShapeData.isRotating data = false ->
  exists s',
    get id (NetworkManager.shapes (fst (NetworkManager.updateShapes rot snapshot now n)))
      = Some s' /\
    Shape.type s' = ty /\ Shape.color s' = col /\
    Vector3.eqv (Shape.position s') (NetworkManager.initialPosition p) /\
    Shape.isLocked s' = ShapeData.isLocked data /\
    Shape.isActive s' = ShapeData.isActive data /\
    offsets s' = definitionOffsets ty /\
    placed rot s'.
Proof. apply built_from_record. Qed.

End CacheFacts.

(** ** Writes of the state of a shape *)

(** X15.  [updateShapeState] writes at most once per [shapeUpdateInterval]:
    a call that writes sends one patch, stamped with the clock, and until
    that many milliseconds have passed every further call, for any shape
    and any patch (a lock among them), writes nothing and changes
    nothing. *)
Theorem shape_writes_are_throttled (id id' : string) (st st' : option ShapeState.t)
    (now now' : Q) (n : NetworkManager.t) :
  snd (NetworkManager.updateShapeState id st now n) <> [] ->
  now' - now < NetworkManager.shapeUpdateInterval n ->
  (exists patch,
      st = Some patch /\
      snd (NetworkManager.updateShapeState id st now n)
      = [Write (UpdateShapeState id patch now)]) /\
  NetworkManager.updateShapeState id' st' now'
    (fst (NetworkManager.updateShapeState id st now n))
  = (fst (NetworkManager.updateShapeState id st now n), []).
Proof.
  intros Hw Hsoon.
  unfold NetworkManager.updateShapeState in Hw |- * at 1 3 4.
  destruct st as [patch|]; [|cbn in Hw; congruence].
  destruct (String.eqb id ""); [cbn in Hw; congruence|].
  destruct (get id (NetworkManager.shapes n)) as [shape|]; [|cbn in Hw; congruence].
  destruct (negb (Shape.isActive shape) && negb _); [cbn in Hw; congruence|].
  destruct (Qlt_bool (now - NetworkManager.lastShapeUpdate n) _); [cbn in Hw; congruence|].
  cbn [fst snd]. split; [exists patch; auto|].
  unfold NetworkManager.updateShapeState.
  cbn [NetworkManager.shapes NetworkManager.set_lastShapeUpdate
       NetworkManager.lastShapeUpdate NetworkManager.shapeUpdateInterval].
  destruct st' as [patch'|]; [|reflexivity].
  destruct (String.eqb id' ""); [reflexivity|].
  destruct (get id' (NetworkManager.shapes n)) as [shape'|]; [|reflexivity].
  destruct (negb (Shape.isActive shape') && negb _); [reflexivity|].
  assert (E : Qlt_bool (now' - now) (NetworkManager.shapeUpdateInterval n) = true)
    by (apply Qlt_bool_iff; exact Hsoon).
  rewrite E. reflexivity.
Qed.

(** ** Bullets and shapes *)

Section BulletFacts.

Variable rot : AxisAngle.





End BulletFacts.

(** ** A row completed twice *)

Section RowTwice.

Variable rot : AxisAngle.

Lemma keepOtherRows_clear (y : Q) (bs : list Block.t) :
  existsb (NetworkManager.atRow y) (keepOtherRows y bs) = false.
Proof.
  unfold keepOtherRows. induction bs as [|b bs IH]; [reflexivity|].
  cbn [filter]. destruct (NetworkManager.atRow y b) eqn:E; cbn [negb]; [exact IH|].
  cbn [existsb]. rewrite E, IH. reflexivity.
Qed.

Lemma rowCleared_untouched (y : Q) (s : Shape.t) :
  inPlace rot s -> touched y (rowCleared rot y s) = false.
Proof.
  intros Hin. destruct (touched y s) eqn:E.
  - destruct (rowCleared_blocks rot y s E) as [_ Hb]. specialize (Hb Hin).
    unfold touched. rewrite Hb, keepOtherRows_clear. apply andb_false_r.
  - unfold rowCleared. rewrite E. exact E.
Qed.

Lemma clearRows_untouched (y : Q) :
  forall (l cache : list (string * Shape.t)) (ids : list string),
    (forall k s, In (k, s) l -> touched y s = false) ->
    fold_left (NetworkManager.clearRow rot y) l (cache, ids) = (cache, ids).
Proof.
  induction l as [|[k s] l IH]; intros cache ids H; cbn [fold_left]; [reflexivity|].
  rewrite clearRow_step, (H k s (or_introl eq_refl)). apply IH.
  intros k' s' Hin. apply (H k' s'). right. exact Hin.
Qed.

(** X17.  When every cached shape has its blocks in place,
    [handleRowCompletion(y)] leaves no locked shape with a block at row
    [y], and a second call for the same row changes no shape and
    republishes no block list: it writes the completed row and the score
    again, and nothing else. *)
Theorem row_completed_twice (y : Q) (stored stored' : option ScoreData.t) (now now' : Q)
    (n : NetworkManager.t) :
  NoDup (JsMap.keys (NetworkManager.shapes n)) ->
  (forall id s, In (id, s) (NetworkManager.shapes n) -> inPlace rot s) ->
  (forall id s,
      In (id, s) (NetworkManager.shapes
                    (fst (NetworkManager.handleRowCompletion rot y stored now n))) ->
      touched y s = false) /\
  NetworkManager.shapes
    (fst (NetworkManager.handleRowCompletion rot y stored' now'
            (fst (NetworkManager.handleRowCompletion rot y stored now n))))
  = NetworkManager.shapes (fst (NetworkManager.handleRowCompletion rot y stored now n)) /\
  snd (NetworkManager.handleRowCompletion rot y stored' now'
         (fst (NetworkManager.handleRowCompletion rot y stored now n)))
  = Write (SetLastRowCompletion y now')
    :: NetworkManager.addPoints 10 stored' now'
         (fst (NetworkManager.handleRowCompletion rot y stored now n)).
Proof.
  intros Hnd Hpl.
  assert (Hclean : forall id s,
             In (id, s) (NetworkManager.shapes
                           (fst (NetworkManager.handleRowCompletion rot y stored now n))) ->
             touched y s = false).
  { unfold NetworkManager.handleRowCompletion.
    pose proof (clearRows_fold rot y (NetworkManager.shapes n) (NetworkManager.shapes n) []
                  Hnd (fun k s H => in_get k s _ Hnd H)) as Hfold.
    destruct (fold_left (NetworkManager.clearRow rot y) _ _) as [cache ids].
    cbv zeta in Hfold. cbn [fst snd] in Hfold. destruct Hfold as (Hk & _ & Hget & _).
    cbn [fst NetworkManager.shapes NetworkManager.set_shapes].
    intros id s Hin.
    assert (Hnd' : NoDup (JsMap.keys cache)) by (rewrite Hk; exact Hnd).
    pose proof (in_get id s cache Hnd' Hin) as Hs.
    assert (Hid : In id (JsMap.keys (NetworkManager.shapes n))).
    { rewrite <- Hk. apply (in_map fst) in Hin. exact Hin. }
    apply in_map_iff in Hid. destruct Hid as ([id' s0] & Eid & Hin0). cbn in Eid. subst id'.
    rewrite (Hget id s0 Hin0) in Hs. injection Hs as <-.
    apply rowCleared_untouched. apply (Hpl id s0 Hin0). }
  split; [exact Hclean|].
  set (n1 := fst (NetworkManager.handleRowCompletion rot y stored now n)) in *.
  unfold NetworkManager.handleRowCompletion.
  rewrite (clearRows_untouched y (NetworkManager.shapes n1) (NetworkManager.shapes n1) []
             Hclean).
  cbn [fst snd flat_map app NetworkManager.shapes NetworkManager.set_shapes].
  split; reflexivity.
Qed.

End RowTwice.

(** ** The scoreboard *)

Lemma insertSorted_perm {A : Type} (cmp : A -> A -> Q) (a : A) (l : list A) :
  Permutation (a :: l) (Scoreboard.insertSorted cmp a l).
Proof.
  induction l as [|b l IH]; cbn [Scoreboard.insertSorted]; [reflexivity|].
  destruct (Qle_bool (cmp a b) 0); [reflexivity|].
  etransitivity; [apply perm_swap|]. apply perm_skip. exact IH.
Qed.

Lemma sort_perm {A : Type} (cmp : A -> A -> Q) (l : list A) :
  Permutation l (Scoreboard.sort cmp l).
Proof.
  unfold Scoreboard.sort. induction l as [|a l IH]; cbn [fold_right]; [reflexivity|].
  etransitivity; [apply perm_skip; exact IH|]. apply insertSorted_perm.
Qed.

Lemma compareScores_le (a b : string * ScoreData.t) :
  hasScore a -> hasScore b ->
  (Qle_bool (Scoreboard.compareScores a b) 0 = true <-> scoreOf b <= scoreOf a).
Proof.
  unfold hasScore, Scoreboard.compareScores, scoreOf. intros Ha Hb.
  destruct (ScoreData.score (snd a)) as [sa|]; [|congruence].
  destruct (ScoreData.score (snd b)) as [sb|]; [|congruence].
  rewrite Qle_bool_iff. split; intros H; lra.
Qed.

Lemma insertSorted_sorted (a : string * ScoreData.t) (l : list (string * ScoreData.t)) :
  hasScore a -> Forall hasScore l ->
  StronglySorted (fun x y => scoreOf y <= scoreOf x) l ->
  StronglySorted (fun x y => scoreOf y <= scoreOf x)
                 (Scoreboard.insertSorted Scoreboard.compareScores a l).
Proof.
  intros Ha Hl Hs. induction Hs as [|b l Hs IH Hb]; cbn [Scoreboard.insertSorted].
  - constructor; constructor.
  - inversion Hl as [|? ? Hb' Hl']; subst.
    destruct (Qle_bool (Scoreboard.compareScores a b) 0) eqn:E.
    + apply compareScores_le in E; auto.
      constructor; [constructor; assumption|].
      constructor; [exact E|].
      eapply Forall_impl; [|exact Hb]. cbv beta. intros c Hc. lra.
    + assert (Hab : scoreOf a <= scoreOf b).
      { destruct (Qlt_le_dec (scoreOf b) (scoreOf a)) as [Hlt|Hle]; [|exact Hle].
        exfalso. assert (Ht : Qle_bool (Scoreboard.compareScores a b) 0 = true)
          by (apply compareScores_le; auto; lra).
        congruence. }
      constructor; [apply IH; exact Hl'|].
      apply (Permutation_Forall (insertSorted_perm Scoreboard.compareScores a l)).
      constructor; [exact Hab|exact Hb].
Qed.

Lemma sort_sorted (l : list (string * ScoreData.t)) :
  Forall hasScore l ->
  StronglySorted (fun x y => scoreOf y <= scoreOf x)
                 (Scoreboard.sort Scoreboard.compareScores l).
Proof.
  unfold Scoreboard.sort. induction 1 as [|a l Ha Hl IH]; cbn [fold_right]; [constructor|].
  apply insertSorted_sorted; auto.
  apply (Permutation_Forall (sort_perm Scoreboard.compareScores l)). exact Hl.
Qed.

Lemma render_lines (playerId : option string) (l : list (string * ScoreData.t)) :
  forall index,
    map Scoreboard.score (Scoreboard.render playerId index l)
      = map (fun e => ScoreData.score (snd e)) l /\
    map Scoreboard.nickname (Scoreboard.render playerId index l)
      = map (fun e => ScoreData.nickname (snd e)) l /\
    map Scoreboard.rank (Scoreboard.render playerId index l)
      = seq (index + 1) (List.length l).
Proof.
  induction l as [|[id data] l IH]; intros index; cbn [Scoreboard.render map List.length seq];
    [auto|].
  destruct (IH (S index)) as (H1 & H2 & H3).
  cbn [Scoreboard.score Scoreboard.nickname Scoreboard.rank snd].
  rewrite H1, H2, H3. repeat split.
Qed.

(** X18.  The scoreboard shows the entries with the five highest scores,
    highest first, numbered from 1: its lines are the first five (or all,
    when there are fewer) of a rearrangement of the entries in which no
    entry has a higher score than one before it. *)
Theorem scoreboard_shows_the_top_five (scores : list (string * ScoreData.t))
    (playerId : option string) :
  Forall hasScore scores ->
  exists shown rest,
    Permutation scores (shown ++ rest) /\
    StronglySorted (fun x y => scoreOf y <= scoreOf x) (shown ++ rest) /\
    List.length shown = Nat.min 5 (List.length scores) /\
    exists lines,
      Scoreboard.updateScoreboard true scores playerId = Some lines /\
      map Scoreboard.score lines = map (fun e => ScoreData.score (snd e)) shown /\
      map Scoreboard.nickname lines = map (fun e => ScoreData.nickname (snd e)) shown /\
      map Scoreboard.rank lines = seq 1 (List.length shown).
Proof.
  intros H.
  set (sorted := Scoreboard.sort Scoreboard.compareScores scores).
  exists (firstn 5 sorted), (skipn 5 sorted).
  rewrite firstn_skipn. split; [apply sort_perm|]. split; [apply sort_sorted; exact H|].
  split.
  - rewrite length_firstn. f_equal. symmetry. apply Permutation_length. apply sort_perm.
  - eexists. split; [reflexivity|]. apply (render_lines playerId (firstn 5 sorted) 0%nat).
Qed.

(** ** Nicknames *)

Lemma Qfloor_below (q : Q) (k : Z) : q < inject_Z k -> (Qfloor q < k)%Z.
Proof.
  intros H. rewrite Zlt_Qlt. pose proof (Qfloor_le q). lra.
Qed.

Lemma pick_in_range {A : Type} (l : list A) (roll : Q) :
  l <> [] -> 0 <= roll -> roll < 1 ->
  exists a, NetworkManager.pick l roll = Some a /\ In a l.
Proof.
  intros Hne H0 H1. unfold NetworkManager.pick.
  set (len := inject_Z (Z.of_nat (List.length l))).
  assert (Hlen : 0 < len).
  { unfold len. change 0 with (inject_Z 0). rewrite <- Zlt_Qlt.
    destruct l; [congruence|]. cbn [List.length]. lia. }
  assert (Hlo : (0 <= Qfloor (roll * len))%Z).
  { change 0%Z with (Qfloor (inject_Z 0)). apply Qfloor_resp_le.
    change (inject_Z 0) with 0. apply Qmult_le_0_compat; lra. }
  assert (Hhi : (Qfloor (roll * len) < Z.of_nat (List.length l))%Z).
  { apply Qfloor_below. fold len.
    assert (E : roll * len < 1 * len) by (apply Qmult_lt_compat_r; assumption).
    lra. }
  destruct (Qfloor (roll * len) <? 0)%Z eqn:E; [apply Z.ltb_lt in E; lia|].
  destruct (nth_error l (Z.to_nat (Qfloor (roll * len)))) as [a|] eqn:En.
  - exists a. split; [reflexivity|]. apply nth_error_In in En. exact En.
  - exfalso. apply nth_error_None in En. lia.
Qed.

Section NicknameFacts.

Variable nicknames : list string.

Lemma includes_iff (taken : list (option string)) (nickname : string) :
  Nicknames.includes taken nickname = true <-> In (Some nickname) taken.
Proof.
  unfold Nicknames.includes. rewrite existsb_exists. split.
  - intros ([s|] & Hin & H); [|discriminate]. apply String.eqb_eq in H. subst. exact Hin.
  - intros H. exists (Some nickname). split; [exact H|apply String.eqb_refl].
Qed.

(** X19.  While a nickname of the list is free, [getRandomNickname] hands
    out a nickname of the list that no player has; when none is free, it
    hands out "Player" followed by a number from 0 to 999, taken or not. *)
Theorem nickname_is_free_when_possible (someTaken allTaken : list (option string))
    (roll : Q) :
  0 <= roll -> roll < 1 ->
  ((exists free, In free nicknames /\ ~ In (Some free) someTaken) ->
   exists nickname,
     Nicknames.getRandomNickname nicknames someTaken roll = Some nickname /\
     In nickname nicknames /\ ~ In (Some nickname) someTaken) /\
  ((forall nickname, In nickname nicknames -> In (Some nickname) allTaken) ->
   exists k,
     (0 <= k <= 999)%Z /\
     Nicknames.getRandomNickname nicknames allTaken roll
     = Some ("Player" ++ NilEmpty.string_of_int (Z.to_int k))%string).
Proof.
  intros H0 H1. unfold Nicknames.getRandomNickname. cbv zeta.
  assert (Hav : forall taken x,
             In x (filter (fun nickname => negb (Nicknames.includes taken nickname)) nicknames)
             <-> In x nicknames /\ ~ In (Some x) taken).
  { intros taken x. rewrite filter_In, negb_true_iff.
    rewrite <- includes_iff. destruct (Nicknames.includes taken x); intuition congruence. }
  split.
  - intros (free & Hfree). apply Hav in Hfree.
    destruct (filter _ nicknames) as [|a av] eqn:Ea; [destruct Hfree|].
    cbn [List.length Nat.eqb].
    destruct (pick_in_range (a :: av) roll) as (x & Hx & Hin); [discriminate|assumption..|].
    exists x. split; [exact Hx|]. apply Hav. rewrite Ea. exact Hin.
  - intros Hall.
    destruct (filter _ nicknames) as [|a av] eqn:Ea.
    + cbn [List.length Nat.eqb]. exists (Qfloor (roll * 1000)). split; [|reflexivity].
      split.
      * change 0%Z with (Qfloor (inject_Z 0)). apply Qfloor_resp_le.
        change (inject_Z 0) with 0. lra.
      * assert (Hlt : (Qfloor (roll * 1000) < 1000)%Z).
        { apply Qfloor_below. change (inject_Z 1000) with 1000. lra. }
        lia.
    + exfalso. assert (Hin : In a (a :: av)) by (left; reflexivity).
      rewrite <- Ea in Hin. apply Hav in Hin. destruct Hin as [Hin Hfree].
      apply Hfree. apply Hall. exact Hin.
Qed.

End NicknameFacts.

(** ** The shapes of a frame *)

Section FrameFacts.

Variable rot : AxisAngle.

Lemma updateShapeState_once (id : string) (st : option ShapeState.t) (now : Q)
    (n : NetworkManager.t) :
  NetworkManager.shapes (fst (NetworkManager.updateShapeState id st now n))
    = NetworkManager.shapes n /\
  NetworkManager.shapeUpdateInterval (fst (NetworkManager.updateShapeState id st now n))
    = NetworkManager.shapeUpdateInterval n /\
  ((NetworkManager.updateShapeState id st now n = (n, [])) \/
   (exists w, snd (NetworkManager.updateShapeState id st now n) = [w] /\
      NetworkManager.lastShapeUpdate (fst (NetworkManager.updateShapeState id st now n))
      = now /\
      ~ (now - NetworkManager.lastShapeUpdate n < NetworkManager.shapeUpdateInterval n))).
Proof.
  unfold NetworkManager.updateShapeState.
  destruct st as [patch|]; [|auto].
  destruct (String.eqb id ""); [auto|].
  destruct (get id (NetworkManager.shapes n)) as [shape|]; [|auto].
  destruct (negb (Shape.isActive shape) && negb _); [auto|].
  destruct (Qlt_bool (now - NetworkManager.lastShapeUpdate n) _) eqn:E; [auto|].
  cbn. repeat split. right. eexists. repeat split.
  apply Qlt_bool_false_iff in E. lra.
Qed.

Lemma publish_once (id : string) (patch : ShapeState.t) (now : Q) (n : NetworkManager.t) :
  NetworkManager.shapes (fst (GameManager.publish id patch now n))
    = NetworkManager.shapes n /\
  NetworkManager.shapeUpdateInterval (fst (GameManager.publish id patch now n))
    = NetworkManager.shapeUpdateInterval n /\
  ((GameManager.publish id patch now n = (n, [])) \/
   (exists w, snd (GameManager.publish id patch now n) = [w] /\
      NetworkManager.lastShapeUpdate (fst (GameManager.publish id patch now n)) = now /\
      ~ (now - NetworkManager.lastShapeUpdate n < NetworkManager.shapeUpdateInterval n))).
Proof.
  unfold GameManager.publish. destruct (String.eqb id "").
  - cbn [fst snd]. auto.
  - apply updateShapeState_once.
Qed.




Lemma stepShape_writes (currentTime now : Q) (n : NetworkManager.t) (es : list effect)
    (k : string) :
  0 < NetworkManager.shapeUpdateInterval n ->
  (es = [] \/ ((List.length es = 1)%nat /\ NetworkManager.lastShapeUpdate n = now)) ->
  let r := GameManager.stepShape rot currentTime now (n, es) k in
  NetworkManager.shapeUpdateInterval (fst r) = NetworkManager.shapeUpdateInterval n /\
  (snd r = [] \/ ((List.length (snd r) = 1)%nat /\ NetworkManager.lastShapeUpdate (fst r) = now)).
Proof.
  intros Hpos Hes. cbv zeta. unfold GameManager.stepShape.
  destruct (get k (NetworkManager.shapes n)) as [shape|]; [|cbn [fst snd]; auto].
  destruct (negb (Shape.isLocked shape) && Shape.isActive shape); [|cbn [fst snd]; auto].
  set (shape1 := Shape.update rot currentTime shape).
  set (n1 := NetworkManager.set_shapes n _).
  assert (Hstep : forall id st (m : NetworkManager.t) (es0 : list effect),
             NetworkManager.shapeUpdateInterval m = NetworkManager.shapeUpdateInterval n ->
             (es0 = [] \/ ((List.length es0 = 1)%nat /\ NetworkManager.lastShapeUpdate m = now)) ->
             NetworkManager.shapeUpdateInterval (fst (GameManager.publish id st now m))
             = NetworkManager.shapeUpdateInterval n /\
             (es0 ++ snd (GameManager.publish id st now m) = [] \/
              ((List.length (es0 ++ snd (GameManager.publish id st now m)) = 1)%nat /\
               NetworkManager.lastShapeUpdate (fst (GameManager.publish id st now m))
               = now))).
  { intros id st m es0 Hint Hes0.
    destruct (publish_once id st now m) as (_ & Hi & [E|(w & Ew & El & Hn)]).
    - rewrite E. cbn [fst snd]. rewrite app_nil_r. auto.
    - rewrite Hi, Ew, El. split; [exact Hint|].
      destruct Hes0 as [->|[Hlen Hlast]].
      + right. split; reflexivity.
      + exfalso. apply Hn. rewrite Hlast, Hint. lra. }
  destruct (GameManager.meetsLocked k shape1 (NetworkManager.shapes n1)).
  - set (shape2 := Shape.snapToGrid rot shape1).
    set (n2 := NetworkManager.set_shapes n1 _).
    pose proof (Hstep k
                  (ShapeState.mk (Some (GameManager.positionPatch (Shape.position shape2)))
                     (Some true) (Some false) None None) n2 es eq_refl Hes) as H3.
    destruct (GameManager.publish k _ now n2) as [n3 ws3]. cbn [fst snd] in H3.
    destruct H3 as [Hi3 Hes3].
    pose proof (Hstep k
                  (ShapeState.mk (Some (GameManager.positionPatch (Shape.position shape2)))
                     None None None None) n3 (es ++ ws3) Hi3 Hes3) as H4.
    destruct (GameManager.publish k _ now n3) as [n4 ws4]. exact H4.
  - pose proof (Hstep k
                  (ShapeState.mk (Some (GameManager.positionPatch (Shape.position shape1)))
                     None None None None) n1 es eq_refl Hes) as H4.
    destruct (GameManager.publish k _ now n1) as [n4 ws4]. exact H4.
Qed.

(** X21.  In a frame whose calls read the same clock, [updateShapes]
    writes at most one patch to the store, whatever the number of active
    shapes: once a patch is written, the throttle of [updateShapeState]
    drops every other one of the frame, the position that follows a lock
    among them. *)
Theorem frame_writes_at_most_once (currentTime now : Q) (n : NetworkManager.t) :
  0 < NetworkManager.shapeUpdateInterval n ->
  (List.length (snd (GameManager.updateShapes rot currentTime now n)) <= 1)%nat.
Proof.
  intros Hpos. unfold GameManager.updateShapes.
  assert (H : forall (l : list string) (acc : NetworkManager.t * list effect),
             NetworkManager.shapeUpdateInterval (fst acc) = NetworkManager.shapeUpdateInterval n ->
             (snd acc = [] \/
              ((List.length (snd acc) = 1)%nat /\
               NetworkManager.lastShapeUpdate (fst acc) = now)) ->
             (List.length (snd (fold_left (GameManager.stepShape rot currentTime now) l acc))
              <= 1)%nat).
  { induction l as [|k l IH]; intros [m es] Hi Hes; cbn [fold_left fst snd] in *.
    - destruct Hes as [->|[Hlen _]]; [cbn; lia|lia].
    - assert (Hpos' : 0 < NetworkManager.shapeUpdateInterval m) by (rewrite Hi; exact Hpos).
      destruct (stepShape_writes currentTime now m es k Hpos' Hes) as [Hi' Hes'].
      apply IH; [rewrite Hi'; exact Hi|exact Hes']. }
  apply H; [reflexivity|left; reflexivity].
Qed.

(** X22.  [moveShapeInView] is [Shape.moveSideways] by one cell behind two
    guards: a shape of the ten-cell grid that is unlocked and has no block
    at or below height 0 ends as [moveSideways] leaves it; a locked shape,
    or one with a block at or below 0, is not moved. *)
Theorem view_move_is_guarded_moveSideways (direction : string) (now : Q)
    (n : NetworkManager.t) (id : string) (s : Shape.t) :
  get id (NetworkManager.shapes n) = Some s ->
  Shape.gridSize s = 10 ->
  get id (NetworkManager.shapes (fst (GameManager.moveShapeInView rot direction (Some id) now n)))
  = Some (if Shape.isLocked s
             || existsb (fun block => Qle_bool (Vector3.y (Block.position block)) 0)
                        (Shape.blocks s)
          then s
          else snd (Shape.moveSideways rot (if String.eqb direction "left" then - (1) else 1) s)).
Proof.
  intros Hget Hg. unfold GameManager.moveShapeInView. rewrite Hget.
  destruct (Shape.isLocked s); cbn [orb fst]; [exact Hget|].
  destruct (existsb _ (Shape.blocks s)); cbn [fst]; [exact Hget|].
  unfold Shape.moveSideways. rewrite Hg.
  set (newX := Vector3.x (Shape.position s) + _).
  assert (E : Qle_bool (Math.abs newX) (10 / 2) = Qle_bool (Math.abs newX) 5).
  { apply eq_true_iff_eq. rewrite !Qle_bool_iff.
    assert (E5 : 10 / 2 == 5) by reflexivity. rewrite E5. reflexivity. }
  rewrite E. destruct (Qle_bool (Math.abs newX) 5); cbn [snd fst]; [|exact Hget].
  match goal with
  | |- context [GameManager.publish id ?st now ?m] =>
      destruct (publish_once id st now m) as (Hs & _); rewrite Hs
  end.
  cbn [NetworkManager.shapes NetworkManager.set_shapes]. apply get_set_same.
Qed.

End FrameFacts.

(** ** From a spawn to the piece *)

Section SpawnFacts.

Variable rot : AxisAngle.

(** X23.  [GameManager.spawnShape] and [NetworkManager.spawnNewShape] write
    the same two records.  The shape record they write is one
    [updateShapes] rebuilds the piece from: a client that does not have
    the shape yet gets a piece of one of the five types, active and
    unlocked, its base at height 15 over a column from -5 to 4, its blocks
    at base plus offset. *)
Theorem spawned_record_is_rebuilt (d : NetworkManager.draw) (n : NetworkManager.t) :
  0 <= NetworkManager.typeRoll d -> NetworkManager.typeRoll d < 1 ->
  0 <= NetworkManager.colorRoll d -> NetworkManager.colorRoll d < 1 ->
  0 <= NetworkManager.xRoll d -> NetworkManager.xRoll d < 1 ->
  GameManager.spawnShape d n = NetworkManager.spawnNewShape d n /\
  exists data ty column,
    NetworkManager.spawnNewShape d n
    = [Write (SetShape (NetworkManager.newShapeId d) (Some data));
       Write (UpdateGameState (Some true) (IdString (NetworkManager.newShapeId d))
                (NetworkManager.writeTime d))] /\
    In ty ["I"; "O"; "T"; "L"; "S"]%string /\
    (-5 <= column <= 4)%Z /\
    forall (m : NetworkManager.t) (now : Q),
      NetworkManager.scene m = true ->
      get (NetworkManager.newShapeId d) (NetworkManager.shapes m) = None ->
      exists s',
        get (NetworkManager.newShapeId d)
            (NetworkManager.shapes
               (fst (NetworkManager.updateShapes rot [(NetworkManager.newShapeId d, data)] now m)))
          = Some s' /\
        Shape.type s' = ty /\
        Vector3.eqv (Shape.position s') (Vector3.mk (inject_Z column) 15 0) /\
        Shape.isLocked s' = false /\ Shape.isActive s' = true /\
        offsets s' = definitionOffsets ty /\
        placed rot s'.
Proof.
  intros Ht0 Ht1 Hc0 Hc1 Hx0 Hx1. split; [reflexivity|].
  unfold NetworkManager.spawnNewShape, NetworkManager.addShape. cbv zeta.
  destruct (pick_in_range ["I"; "O"; "T"; "L"; "S"]%string (NetworkManager.typeRoll d))
    as (ty & Ety & Hty); [discriminate|assumption..|].
  destruct (pick_in_range [16711680; 65280; 255; 16776960; 16711935]%Z
              (NetworkManager.colorRoll d)) as (col & Ecol & Hcol); [discriminate|assumption..|].
  rewrite Ety, Ecol.
  set (k := Qfloor (NetworkManager.xRoll d * 10)).
  assert (Hk : (0 <= k <= 9)%Z).
  { unfold k. split.
    - change 0%Z with (Qfloor (inject_Z 0)). apply Qfloor_resp_le.
      change (inject_Z 0) with 0. lra.
    - assert (H : (Qfloor (NetworkManager.xRoll d * 10) < 10)%Z).
      { apply Qfloor_below. change (inject_Z 10) with 10. lra. }
      lia. }
  eexists. exists ty, (k - 5)%Z. split; [reflexivity|]. split; [exact Hty|].
  split; [lia|].
  intros m now Hscene Hnew.
  set (data := ShapeData.mk _ _ _ _ _ _ _ _ _ _).
  set (p := PositionData.mk (Some (inject_Z k - 10 / 2)) (Some 15) (Some 0)).
  assert (Htruthy : NetworkManager.creatable data = true).
  { unfold NetworkManager.creatable, data.
    cbn [ShapeData.type ShapeData.color ShapeData.position].
    assert (H1 : NetworkManager.truthyString (Some ty) = true).
    { destruct Hty as [<-|[<-|[<-|[<-|[<-|[]]]]]]; reflexivity. }
    assert (H2 : NetworkManager.truthyNumber (Some col) = true).
    { destruct Hcol as [<-|[<-|[<-|[<-|[<-|[]]]]]]; reflexivity. }
    rewrite H1, H2. reflexivity. }
  destruct (built_from_record rot [(NetworkManager.newShapeId d, data)] now m
              (NetworkManager.newShapeId d) data ty col p)
    as (s' & Hget & Ht & _ & Hp & Hl & Ha & Ho & Hpl); auto.
  - constructor; [intros []|constructor].
  - cbn [JsMap.get]. rewrite String.eqb_refl. reflexivity.
  - exists s'. split; [exact Hget|]. split; [exact Ht|]. split; [|auto].
    eapply eqv_trans; [exact Hp|].
    unfold NetworkManager.initialPosition, p.
    cbn [PositionData.x PositionData.y PositionData.z].
    unfold Vector3.eqv. cbn [Vector3.x Vector3.y Vector3.z].
    repeat split; try reflexivity.
    unfold NetworkManager.numberOr.
    assert (E : inject_Z k - 10 / 2 == inject_Z (k - 5)).
    { unfold Z.sub. rewrite inject_Z_plus.
      assert (E5 : 10 / 2 == 5) by reflexivity. rewrite E5.
      unfold Qminus. apply Qplus_comp; reflexivity. }
    destruct (Qeq_bool (inject_Z k - 10 / 2) 0) eqn:E0; [|exact E].
    apply Qeq_bool_iff in E0. rewrite <- E, E0. reflexivity.
Qed.

End SpawnFacts.

(** ** Players deleted from the store *)

Lemma dropPlayers_effects (snapshot : list (string * PlayerData.t)) (now : Q) (e : effect) :
  forall (l m : list (string * Player.t)) (es : list effect),
    In e (snd (fold_left (NetworkManager.dropPlayer snapshot now) l (m, es))) ->
    In e es \/
    (exists id, In id (JsMap.keys l) /\ e = Dispose (APlayer id)) \/
    (exists id, In id (JsMap.keys l) /\ longGone snapshot now id /\ deletes id e).
Proof.
  induction l as [|[id p] l IH]; intros m es; cbn [fold_left snd]; [auto|].
  intros H.
  assert (Hstep : forall e0,
             In e0 (snd (NetworkManager.dropPlayer snapshot now (m, es) (id, p))) ->
             In e0 es \/ e0 = Dispose (APlayer id) \/ (longGone snapshot now id /\ deletes id e0)).
  { intros e0. unfold NetworkManager.dropPlayer. cbn [fst].
    destruct (get id snapshot) as [data|] eqn:Eget.
    - destruct (PlayerData.online data) eqn:Eon; cbn [negb snd]; [auto|].
      rewrite !in_app_iff. intros [H0|[[H0|[]]|H0]]; [auto|auto|].
      destruct (PlayerData.lastSeen data) as [seen|] eqn:Eseen; [|destruct H0].
      destruct (Qlt_bool 5000 (now - seen)) eqn:Eold; [|destruct H0].
      apply Qlt_bool_iff in Eold. right. right. split.
      + exists data, seen. auto.
      + unfold deletes. destruct H0 as [H0|[H0|[]]]; auto.
    - cbn [snd]. rewrite in_app_iff. intros [H0|[H0|[]]]; auto. }
  destruct (NetworkManager.dropPlayer snapshot now (m, es) (id, p)) as [m1 es1] eqn:E1.
  apply IH in H. destruct H as [H|[(k & Hk & He)|(k & Hk & Hg & Hd)]].
  - cbn [snd] in Hstep. destruct (Hstep e H) as [H0|[H0|[H0 H1]]]; [auto|right; left|right; right].
    + exists id. split; [left; reflexivity|exact H0].
    + exists id. split; [left; reflexivity|auto].
  - right. left. exists k. split; [right; exact Hk|exact He].
  - right. right. exists k. split; [right; exact Hk|auto].
Qed.

Lemma addOrUpdatePlayers_effects (n : NetworkManager.t) (e : effect) :
  forall (l : list (string * PlayerData.t)) (acc : list (string * Player.t) * list effect),
    In e (snd (fold_left (NetworkManager.addOrUpdatePlayer n) l acc)) ->
    In e (snd acc) \/ exists ent, e = New ent.
Proof.
  induction l as [|[id d] l IH]; intros [cache es]; cbn [fold_left]; [auto|].
  intros H. apply IH in H. destruct H as [H|H]; [|auto].
  destruct (addOrUpdatePlayer_cases n cache es id d) as [[_ E]|(_ & p' & _ & E)].
  - rewrite E in H. auto.
  - rewrite E in H. cbn [snd]. rewrite !in_app_iff in H. destruct H as [H|[H|H]]; [auto| |].
    + destruct (get id cache); [destruct H|]. destruct H as [H|[]].
      right. eexists. symmetry. exact H.
    + unfold labelOf in H. destruct (NetworkManager.isLocalId n (fst (id, d))); [destruct H|].
      destruct (NetworkManager.truthyString _); [|destruct H]. destruct H as [H|[]].
      right. eexists. symmetry. exact H.
Qed.

(** X24.  The only store writes of [updatePlayers] are deletions, of the
    record and of the score of a player that was cached and that the
    listing shows offline and last seen more than 5000 ms ago.  The record
    of a player that is online, or was never cached (the local player
    among them), is never deleted. *)
Theorem players_deleted_from_store (snapshot : list (string * PlayerData.t)) (now : Q)
    (n : NetworkManager.t) (w : storeWrite) :
  In (Write w) (snd (NetworkManager.updatePlayers snapshot now n)) ->
  exists id,
    deletes id (Write w) /\
    In id (JsMap.keys (NetworkManager.players n)) /\
    longGone snapshot now id.
Proof.
  unfold NetworkManager.updatePlayers.
  pose proof (dropPlayers_effects snapshot now (Write w) (NetworkManager.players n)
                (NetworkManager.players n) []) as H1.
  destruct (fold_left (NetworkManager.dropPlayer snapshot now) _ _) as [cache1 es1].
  pose proof (addOrUpdatePlayers_effects n (Write w) snapshot (cache1, es1)) as H2.
  destruct (fold_left (NetworkManager.addOrUpdatePlayer n) snapshot (cache1, es1))
    as [cache2 es2].
  cbn [snd] in *. intros H. apply H2 in H. destruct H as [H|(id & [=])].
  apply H1 in H. destruct H as [[]|[(id & _ & [=])|(id & Hid & Hg & Hd)]].
  exists id. auto.
Qed.

(** ** The jump of a player *)

Lemma Qle_bool_ext (a a' b b' : Q) : a == a' -> b == b' -> Qle_bool a b = Qle_bool a' b'.
Proof.
  intros Ea Eb. apply eq_true_iff_eq. rewrite !Qle_bool_iff, Ea, Eb. reflexivity.
Qed.

Lemma inside_comp (b : PlayerBody.boundaries) (p q : Vector3.t) :
  Vector3.x p == Vector3.x q -> Vector3.z p == Vector3.z q ->
  PlayerBody.inside b p = PlayerBody.inside b q.
Proof.
  intros Hx Hz. unfold PlayerBody.inside.
  rewrite (Qle_bool_ext (PlayerBody.minX b) (PlayerBody.minX b) _ _ (Qeq_refl _) Hx),
          (Qle_bool_ext _ _ (PlayerBody.maxX b) (PlayerBody.maxX b) Hx (Qeq_refl _)),
          (Qle_bool_ext (PlayerBody.minZ b) (PlayerBody.minZ b) _ _ (Qeq_refl _) Hz),
          (Qle_bool_ext _ _ (PlayerBody.maxZ b) (PlayerBody.maxZ b) Hz (Qeq_refl _)).
  reflexivity.
Qed.

Lemma jump_start (forward right : Vector3.t) (p : PlayerBody.t) :
  standing p ->
  exists q, PlayerBody.move forward right PlayerBody.Jump p = Some q /\ inJump p 0 q.
Proof.
  intros (Hc & Hg & Hy & (Hvx & _ & Hvz) & Hj & Hgr & _).
  unfold PlayerBody.move. destruct (PlayerBody.camera p) as [c|] eqn:Ec; [|congruence].
  rewrite Hg. eexists. split; [reflexivity|].
  unfold inJump, jumpSpeed, jumpHeight.
  cbn [PlayerBody.camera PlayerBody.isOnGround PlayerBody.gravity PlayerBody.jumpForce
       PlayerBody.bounds PlayerBody.position PlayerBody.velocity
       Vector3.set_y Vector3.x Vector3.y Vector3.z].
  split; [discriminate|].
  repeat split; auto; try reflexivity.
  - rewrite Hj. cbn. reflexivity.
  - rewrite Hy. cbn. reflexivity.
Qed.

Lemma succ_as_Q (k : nat) : inject_Z (Z.of_nat (S k)) == inject_Z (Z.of_nat k) + 1.
Proof. rewrite Nat2Z.inj_succ, <- Z.add_1_r, inject_Z_plus. reflexivity. Qed.

Lemma jump_step (p0 p : PlayerBody.t) (k : nat) :
  PlayerBody.inside (PlayerBody.bounds p0) (PlayerBody.position p0) = true ->
  inJump p0 k p ->
  (if (k <? 79)%nat then inJump p0 (S k) (PlayerBody.update p)
   else
     PlayerBody.isOnGround (PlayerBody.update p) = true /\
     Vector3.y (PlayerBody.position (PlayerBody.update p)) = 2 /\
     Vector3.y (PlayerBody.velocity (PlayerBody.update p)) = 0 /\
     Vector3.x (PlayerBody.position (PlayerBody.update p))
       == Vector3.x (PlayerBody.position p0) /\
     Vector3.z (PlayerBody.position (PlayerBody.update p))
       == Vector3.z (PlayerBody.position p0))
  \/ (79 < k)%nat.
Proof.
  intros Hin (Hcam & Hg & Hgr & Hj & Hb & Hx & Hz & Hvx & Hvz & Hvy & Hy).
  destruct (le_lt_dec k 79) as [Hk|Hk]; [left|right; exact Hk].
  set (K := inject_Z (Z.of_nat k)) in *.
  assert (HK0 : 0 <= K).
  { unfold K. change 0 with (inject_Z 0). rewrite <- Zle_Qle. lia. }
  assert (HK79 : K <= 79).
  { unfold K. change 79 with (inject_Z 79). rewrite <- Zle_Qle. lia. }
  unfold jumpSpeed, jumpHeight in Hvy, Hy. fold K in Hvy, Hy.
  assert (HnewY : Vector3.y (PlayerBody.position p)
                  + (Vector3.y (PlayerBody.velocity p) - PlayerBody.gravity p)
                  == 2 + (K + 1) * ((2 # 10) - (25 # 10000) * (K + 2))).
  { rewrite Hy, Hvy, Hgr. ring. }
  unfold PlayerBody.update. rewrite Hg. cbn [negb]. cbv zeta.
  set (v1 := Vector3.set_y (PlayerBody.velocity p) _).
  set (np := Vector3.add (PlayerBody.position p) v1).
  assert (Hnx : Vector3.x np == Vector3.x (PlayerBody.position p0)).
  { unfold np, v1. cbn. rewrite Hvx, Hx. ring. }
  assert (Hnz : Vector3.z np == Vector3.z (PlayerBody.position p0)).
  { unfold np, v1. cbn. rewrite Hvz, Hz. ring. }
  assert (Hny : Vector3.y np == 2 + (K + 1) * ((2 # 10) - (25 # 10000) * (K + 2))).
  { unfold np, v1. cbn. exact HnewY. }
  assert (Hv1 : Vector3.x v1 == 0 /\ Vector3.z v1 == 0 /\ Vector3.y v1 == jumpSpeed (S k)).
  { unfold v1, jumpSpeed. rewrite succ_as_Q. fold K.
    cbn [Vector3.set_y Vector3.x Vector3.y Vector3.z]. rewrite Hvx, Hvz, Hvy, Hgr.
    repeat split; try reflexivity. ring. }
  destruct Hv1 as (Hv1x & Hv1z & Hv1y).
  destruct (k <? 79)%nat eqn:Ek.
  - apply Nat.ltb_lt in Ek.
    assert (HK78 : K <= 78).
    { unfold K. change 78 with (inject_Z 78). rewrite <- Zle_Qle. lia. }
    assert (Hup : 0 <= (K + 1) * ((2 # 10) - (25 # 10000) * (K + 2))).
    { apply Qmult_le_0_compat; lra. }
    assert (Hl : Qlt_bool (Vector3.y np) 2 = false).
    { apply Qlt_bool_false_iff. rewrite Hny. lra. }
    rewrite Hl. cbn [negb].
    assert (Hins : PlayerBody.inside (PlayerBody.bounds p) np = true).
    { rewrite Hb, <- Hin. apply inside_comp; assumption. }
    rewrite Hins. unfold inJump.
    cbn [PlayerBody.isOnGround PlayerBody.gravity PlayerBody.jumpForce PlayerBody.bounds
         PlayerBody.position PlayerBody.velocity PlayerBody.camera
         Vector3.x Vector3.y Vector3.z].
    split.
    { destruct (PlayerBody.camera p); [discriminate|congruence]. }
    repeat split; auto.
    + rewrite Hv1x. ring.
    + rewrite Hv1z. ring.
    + rewrite Hny. unfold jumpHeight. rewrite succ_as_Q. fold K. ring.
  - apply Nat.ltb_ge in Ek. assert (k = 79)%nat by lia. subst k.
    assert (HKv : K == 79) by reflexivity.
    assert (Hl : Qlt_bool (Vector3.y np) 2 = true).
    { apply Qlt_bool_iff. rewrite Hny, HKv. reflexivity. }
    rewrite Hl. cbn [negb].
    assert (Hins : PlayerBody.inside (PlayerBody.bounds p) (Vector3.set_y np 2) = true).
    { rewrite Hb, <- Hin. apply inside_comp; cbn [Vector3.set_y Vector3.x Vector3.z];
        assumption. }
    rewrite Hins.
    cbn [PlayerBody.isOnGround PlayerBody.position PlayerBody.velocity Vector3.set_y
         Vector3.x Vector3.y Vector3.z].
    repeat split; assumption.
Qed.

Lemma jump_in_the_air (p q : PlayerBody.t) (k : nat) :
  PlayerBody.inside (PlayerBody.bounds p) (PlayerBody.position p) = true ->
  inJump p 0 q -> (k <= 79)%nat -> inJump p k (afterCalls k q).
Proof.
  intros Hin H0. induction k as [|k IH]; intros Hk; cbn [afterCalls].
  - exact H0.
  - destruct (jump_step p (afterCalls k q) k Hin (IH ltac:(lia))) as [H|H]; [|lia].
    assert (E : (k <? 79)%nat = true) by (apply Nat.ltb_lt; lia).
    rewrite E in H. exact H.
Qed.

Lemma jumpHeight_peak (k : nat) : jumpHeight k <= 59 # 10.
Proof.
  unfold jumpHeight. set (K := inject_Z (Z.of_nat k)).
  assert (H : 0 <= (K - 39) * (K - 40)).
  { destruct (le_lt_dec k 39) as [Hk|Hk].
    - assert (HK : K <= 39).
      { unfold K. change 39 with (inject_Z 39). rewrite <- Zle_Qle. lia. }
      assert (E : (K - 39) * (K - 40) == (39 - K) * (40 - K)) by ring.
      rewrite E. apply Qmult_le_0_compat; lra.
    - assert (HK : 40 <= K).
      { unfold K. change 40 with (inject_Z 40). rewrite <- Zle_Qle. lia. }
      apply Qmult_le_0_compat; lra. }
  lra.
Qed.

(** In binary64 the sums of a jump round.  From the speed 0.2 at height 2,
    with the gravity 0.005, the height stays at or above 2 through 78
    calls, it is 5.8999999999999968 after 40, and the 79th call, whose
    height is 2 when no sum rounds, finds a height below 2: the player
    lands at that call. *)
Lemma jump_lands_at_call_79_in_binary64 :
  forallb (fun k => negb (Binary64.heightInJump k <? 2)%float) (seq 0 79) = true /\
  Binary64.heightInJump 40 = 0x1.7999999999996p+2%float /\
  (Binary64.heightInJump 79 <? 2)%float = true.
Proof. repeat split; vm_compute; reflexivity. Qed.

(** X25.  A player without a camera cannot move: [move] throws.  A jump of
    a player with a camera, from the floor of the playground, is over
    after eighty calls of [update]: through the first 78 the player is in
    the air over the spot it left, within a thousandth of the height
    [2 + k / 5 - k (k + 1) / 400] after [k] calls, which is never above
    5.9, and a further jump is ignored; after the eightieth call the
    player is on the floor at height 2, at rest.  The 79th call is left
    out: its height is the threshold 2 of the floor test when no sum
    rounds, so the rounding of the sums decides whether the player lands
    at that call or at the next. *)
Theorem jump_lasts_eighty_calls (forward right : Vector3.t) (d : PlayerBody.direction)
    (p r : PlayerBody.t) (k : nat) :
  (PlayerBody.camera r = None -> PlayerBody.move forward right d r = None) /\
  (standing p ->
   exists q,
     PlayerBody.move forward right PlayerBody.Jump p = Some q /\
     ((k <= 78)%nat ->
      PlayerBody.isOnGround (afterCalls k q) = false /\
      Qabs (Vector3.y (PlayerBody.position (afterCalls k q)) - jumpHeight k) <= 1 # 1000 /\
      jumpHeight k <= 59 # 10 /\
      Vector3.x (PlayerBody.position (afterCalls k q))
        == Vector3.x (PlayerBody.position p) /\
      Vector3.z (PlayerBody.position (afterCalls k q))
        == Vector3.z (PlayerBody.position p) /\
      PlayerBody.move forward right PlayerBody.Jump (afterCalls k q)
        = Some (afterCalls k q)) /\
     PlayerBody.isOnGround (afterCalls 80 q) = true /\
     Vector3.y (PlayerBody.position (afterCalls 80 q)) = 2 /\
     Vector3.y (PlayerBody.velocity (afterCalls 80 q)) = 0).
Proof.
  split.
  { intros Hc. unfold PlayerBody.move. rewrite Hc. reflexivity. }
  intros Hst.
  destruct (jump_start forward right p Hst) as (q & Hq & H0).
  assert (Hin : PlayerBody.inside (PlayerBody.bounds p) (PlayerBody.position p) = true)
    by apply Hst.
  exists q. split; [exact Hq|]. split.
  - intros Hk. assert (Hk' : (k <= 79)%nat) by lia.
    destruct (jump_in_the_air p q k Hin H0 Hk')
      as (Hc & Hg & _ & _ & _ & Hx & Hz & _ & _ & _ & Hy).
    split; [exact Hg|]. split.
    { assert (E : Vector3.y (PlayerBody.position (afterCalls k q)) - jumpHeight k == 0)
        by (rewrite Hy; ring).
      rewrite E. cbn. discriminate. }
    split; [apply jumpHeight_peak|]. split; [exact Hx|]. split; [exact Hz|].
    unfold PlayerBody.move.
    destruct (PlayerBody.camera (afterCalls k q)); [|congruence].
    rewrite Hg. reflexivity.
  - pose proof (jump_in_the_air p q 79 Hin H0 (le_n 79)) as H79.
    destruct (jump_step p (afterCalls 79 q) 79 Hin H79) as [H|H]; [|lia].
    cbn [Nat.ltb Nat.leb] in H. destruct H as (H1 & H2 & H3 & _).
    change (afterCalls 80 q) with (PlayerBody.update (afterCalls 79 q)).
    auto.
Qed.

(** ** A bullet from the shot to its removal *)

Section ShotFacts.

Variable rot : AxisAngle.




End ShotFacts.

(** ** Instances of the further properties *)

Ltac computed := vm_compute; reflexivity.
Ltac computed_le := apply Qle_bool_iff; vm_compute; reflexivity.
Ltac computed_lt := apply Qlt_bool_iff; vm_compute; reflexivity.

Lemma fall_is_paced_witness :
  fallenWithin (pieceAt "I" 0 15) (performAll chordAxisAngle someCalls (pieceAt "I" 0 15)) /\
  Shape.update chordAxisAngle 500 (pieceAt "I" 0 15) = pieceAt "I" 0 15.
Proof.
  assert (H : 0 <= Shape.fallSpeed (pieceAt "I" 0 15)) by computed_le.
  destruct (fall_is_paced chordAxisAngle someCalls (pieceAt "I" 0 15) 500 H) as [H1 H2].
  split; [exact H1|]. apply H2; [computed|computed_lt].
Defined.

Lemma base_stays_in_grid_witness :
  inGrid (performAll chordAxisAngle someCalls (pieceAt "I" 4 15)).
Proof.
  apply (base_stays_in_grid chordAxisAngle someCalls (pieceAt "I" 4 15)).
  split; [computed|computed_le].
Defined.

Lemma moveSideways_round_trip_witness :
  fst (Shape.moveSideways chordAxisAngle (- (1))
         (snd (Shape.moveSideways chordAxisAngle 1 (pieceAt "T" 0 15)))) = true.
Proof.
  apply (moveSideways_round_trip chordAxisAngle 1 (pieceAt "T" 0 15)).
  - apply spawned_placed.
  - split; [computed|computed_le].
  - exists 0%Z. computed.
  - exists 1%Z. computed.
  - computed.
Defined.

Lemma snapToGrid_idempotent_witness :
  Vector3.eqv
    (Shape.position (Shape.snapToGrid chordAxisAngle
                       (Shape.snapToGrid chordAxisAngle (pieceAt "L" (1 # 3) (7 # 2)))))
    (Shape.position (Shape.snapToGrid chordAxisAngle (pieceAt "L" (1 # 3) (7 # 2)))).
Proof.
  apply (snapToGrid_idempotent chordAxisAngle (pieceAt "L" (1 # 3) (7 # 2))).
  - apply spawned_placed.
  - vm_compute. repeat constructor.
Defined.

Lemma pieces_without_offsets_never_land_witness :
  Shape.isLocked (run chordAxisAngle (everySecond 5) rebuiltPiece) = false /\
  Vector3.y (Shape.position (Shape.update chordAxisAngle 1000 rebuiltPiece))
  = Vector3.y (Shape.position rebuiltPiece) - Shape.fallSpeed rebuiltPiece.
Proof.
  destruct (pieces_without_offsets_never_land chordAxisAngle (everySecond 5) 1000 rebuiltPiece)
    as (H1 & _ & H3).
  - repeat constructor.
  - reflexivity.
  - split; [exact H1|]. apply H3; [reflexivity|computed_le].
Defined.

Lemma startRotation_idempotent_witness :
  Shape.startRotation chordAxisAngle false
    (snd (Shape.startRotation chordAxisAngle true (pieceAt "T" 0 15)))
  = (ReturnsUndefined, snd (Shape.startRotation chordAxisAngle true (pieceAt "T" 0 15))).
Proof.
  apply (startRotation_idempotent chordAxisAngle true false (pieceAt "T" 0 15)).
  computed.
Defined.

Lemma collision_is_sharing_a_cell_witness :
  GameManager.checkShapeCollision (pieceAt "" 0 5) (pieceAt "" 0 4) = true <->
  exists b1 b2,
    In b1 (Shape.blocks (pieceAt "" 0 5)) /\ In b2 (Shape.blocks (pieceAt "" 0 4)) /\
    sameCell b1 b2.
Proof.
  apply (collision_is_sharing_a_cell (pieceAt "" 0 5) (pieceAt "" 0 4)).
  intros b1 b2 H1 H2. vm_compute in H1, H2.
  destruct H1 as [H1|[]]. destruct H2 as [H2|[]]. subst b1 b2.
  exists 0%Z, 1%Z, 0%Z. repeat split; vm_compute; reflexivity.
Defined.

Lemma bullet_flight_witness :
  Bullet.groundLevel youngBullet <= Vector3.y (Bullet.position (flown 2 youngBullet)) /\
  Bullet.mesh (flown 2 youngBullet) = Some (Bullet.position (flown 2 youngBullet)) /\
  Qabs (Vector3.x (Bullet.velocity (flown 2 youngBullet)))
    <= Qabs (Vector3.x (Bullet.velocity youngBullet)).
Proof.
  destruct (bullet_flight 2 youngBullet) as (H & Hd).
  destruct H as [H1 H2]; [lia|].
  split; [exact H1|]. split; [apply H2; discriminate|].
  apply Hd; [computed_le|computed_le].
Defined.

Lemma bullet_dies_by_count_witness :
  Bullet.isDead (flown 3 (Bullet.update spentBullet)) = true /\
  Bullet.isDead (flown 501 (Bullet.new Vector3.zero Vector3.zero)) = true /\
  exists r, (1 <= r <= 1)%nat /\ atRest (flown r (Bullet.new Vector3.zero Vector3.zero)).
Proof.
  destruct (bullet_dies_by_count 501 1 3 Vector3.zero Vector3.zero (Bullet.update spentBullet))
    as (H1 & H2 & H3).
  split; [apply H1; computed|].
  split; [apply H2; lia|].
  apply H3; [lia|computed].
Defined.



Lemma cleanup_removes_floating_shapes_witness :
  NetworkManager.shapes (fst (NetworkManager.cleanupFloatingShapes cacheWithHighPiece))
  = filter (fun e => negb (NetworkManager.isFloating (snd e)))
           (NetworkManager.shapes cacheWithHighPiece).
Proof.
  apply (cleanup_removes_floating_shapes cacheWithHighPiece).
  constructor; [intros []|constructor].
Defined.

Lemma shapes_cached_after_update_witness :
  In "c"%string
     (JsMap.keys (NetworkManager.shapes
                    (fst (NetworkManager.updateShapes chordAxisAngle
                            [("c"%string, shapeRecord "I" 0 5 false true)] 0 freshManager))))
  <-> exists d,
        get "c"%string [("c"%string, shapeRecord "I" 0 5 false true)] = Some d /\
        (In "c"%string (JsMap.keys (NetworkManager.shapes freshManager)) \/
         (NetworkManager.creatable d = true /\ tooHigh d = false)).
Proof.
  apply (shapes_cached_after_update chordAxisAngle
           [("c"%string, shapeRecord "I" 0 5 false true)] 0 freshManager "c").
  - reflexivity.
  - constructor; [intros []|constructor].
Defined.

Lemma shape_built_from_record_witness :
  exists s',
    get "c"%string
        (NetworkManager.shapes
           (fst (NetworkManager.updateShapes chordAxisAngle
                   [("c"%string, shapeRecord "T" 2 5 false true)] 0 freshManager)))
      = Some s' /\
    Shape.type s' = "T"%string /\ Shape.color s' = 255%Z /\
    Vector3.eqv (Shape.position s')
                (NetworkManager.initialPosition (PositionData.mk (Some 2) (Some 5) (Some 0))) /\
    Shape.isLocked s' = false /\
    Shape.isActive s' = true /\
    offsets s' = definitionOffsets "T" /\
    placed chordAxisAngle s'.
Proof.
  apply (shape_built_from_record chordAxisAngle
           [("c"%string, shapeRecord "T" 2 5 false true)] 0 freshManager "c"
           (shapeRecord "T" 2 5 false true) "T" 255
           (PositionData.mk (Some 2) (Some 5) (Some 0))).
  - reflexivity.
  - constructor; [intros []|constructor].
  - reflexivity.
  - reflexivity.
  - reflexivity.
  - reflexivity.
  - reflexivity.
  - computed.
  - computed.
  - reflexivity.
  - reflexivity.
Defined.

Lemma shape_writes_are_throttled_witness :
  NetworkManager.updateShapeState "c" (Some lockPatch) 1100
    (fst (NetworkManager.updateShapeState "c" (Some fallPatch) 1000 fallingCache))
  = (fst (NetworkManager.updateShapeState "c" (Some fallPatch) 1000 fallingCache), []).
Proof.
  apply (shape_writes_are_throttled "c" "c" (Some fallPatch) (Some lockPatch)
           1000 1100 fallingCache).
  - vm_compute. discriminate.
  - computed_lt.
Defined.


Lemma row_completed_twice_witness :
  NetworkManager.shapes
    (fst (NetworkManager.handleRowCompletion chordAxisAngle 1 None 300
            (fst (NetworkManager.handleRowCompletion chordAxisAngle 1 None 200 lockedAtFloor))))
  = NetworkManager.shapes
      (fst (NetworkManager.handleRowCompletion chordAxisAngle 1 None 200 lockedAtFloor)).
Proof.
  apply (row_completed_twice chordAxisAngle 1 None None 200 300 lockedAtFloor).
  - constructor; [intros []|constructor].
  - intros id s H. vm_compute in H. destruct H as [H|[]].
    injection H as _ <-. repeat constructor; vm_compute; reflexivity.
Defined.

Lemma scoreboard_shows_the_top_five_witness :
  exists shown rest,
    Permutation twoScores (shown ++ rest) /\
    StronglySorted (fun x y => scoreOf y <= scoreOf x) (shown ++ rest) /\
    List.length shown = Nat.min 5 (List.length twoScores) /\
    exists lines,
      Scoreboard.updateScoreboard true twoScores (Some "loits-player-a"%string) = Some lines /\
      map Scoreboard.score lines = map (fun e => ScoreData.score (snd e)) shown /\
      map Scoreboard.nickname lines = map (fun e => ScoreData.nickname (snd e)) shown /\
      map Scoreboard.rank lines = seq 1 (List.length shown).
Proof.
  apply (scoreboard_shows_the_top_five twoScores (Some "loits-player-a"%string)).
  repeat constructor; discriminate.
Defined.

Lemma nickname_is_free_when_possible_witness :
  (exists nickname,
      Nicknames.getRandomNickname twoNicknames [Some "Ada"%string; None] (1 # 2)
      = Some nickname /\
      In nickname twoNicknames /\ ~ In (Some nickname) [Some "Ada"%string; None]) /\
  (exists k,
      (0 <= k <= 999)%Z /\
      Nicknames.getRandomNickname twoNicknames [Some "Bob"%string; Some "Ada"%string] (1 # 2)
      = Some ("Player" ++ NilEmpty.string_of_int (Z.to_int k))%string).
Proof.
  destruct (nickname_is_free_when_possible twoNicknames
              [Some "Ada"%string; None] [Some "Bob"%string; Some "Ada"%string] (1 # 2))
    as [H1 H2]; [computed_le|computed_lt|].
  split.
  - apply H1. exists "Bob"%string. split; [right; left; reflexivity|].
    intros [H|[H|[]]]; discriminate.
  - apply H2. intros nickname [<-|[<-|[]]]; [right; left; reflexivity|left; reflexivity].
Defined.


Lemma frame_writes_at_most_once_witness :
  (List.length (snd (GameManager.updateShapes chordAxisAngle 1000 5000 fallingCache)) <= 1)%nat.
Proof.
  apply (frame_writes_at_most_once chordAxisAngle 1000 5000 fallingCache).
  computed_lt.
Defined.

Lemma view_move_is_guarded_moveSideways_witness :
  get "c"%string
      (NetworkManager.shapes
         (fst (GameManager.moveShapeInView chordAxisAngle "left" (Some "c"%string) 5000
                 fallingCache)))
  = Some (if Shape.isLocked (cached "c" fallingCache)
             || existsb (fun block => Qle_bool (Vector3.y (Block.position block)) 0)
                        (Shape.blocks (cached "c" fallingCache))
          then cached "c" fallingCache
          else snd (Shape.moveSideways chordAxisAngle
                      (if String.eqb "left" "left" then - (1) else 1)
                      (cached "c" fallingCache))).
Proof.
  apply (view_move_is_guarded_moveSideways chordAxisAngle "left" 5000 fallingCache "c"
           (cached "c" fallingCache)).
  - computed.
  - computed.
Defined.

Lemma spawned_record_is_rebuilt_witness :
  GameManager.spawnShape someDraw freshManager
  = NetworkManager.spawnNewShape someDraw freshManager.
Proof.
  apply (spawned_record_is_rebuilt chordAxisAngle someDraw freshManager);
    first [computed_le | computed_lt].
Defined.

Lemma players_deleted_from_store_witness :
  exists id,
    deletes id (Write (SetPlayer "loits-player-b" None)) /\
    In id (JsMap.keys (NetworkManager.players cacheWithBob)) /\
    longGone offlineListing 6000 id.
Proof.
  apply (players_deleted_from_store offlineListing 6000 cacheWithBob
           (SetPlayer "loits-player-b" None)).
  vm_compute. right. left. reflexivity.
Defined.

Lemma jump_lasts_eighty_calls_witness :
  PlayerBody.move (Vector3.mk 0 0 (- (1))) (Vector3.mk 1 0 0) PlayerBody.Forward remotePlayer
    = None /\
  exists q,
    PlayerBody.move (Vector3.mk 0 0 (- (1))) (Vector3.mk 1 0 0) PlayerBody.Jump playerOnFloor
      = Some q /\
    PlayerBody.isOnGround (afterCalls 40 q) = false /\
    Qabs (Vector3.y (PlayerBody.position (afterCalls 40 q)) - jumpHeight 40) <= 1 # 1000 /\
    PlayerBody.isOnGround (afterCalls 80 q) = true.
Proof.
  destruct (jump_lasts_eighty_calls (Vector3.mk 0 0 (- (1))) (Vector3.mk 1 0 0)
              PlayerBody.Forward playerOnFloor remotePlayer 40) as [H0 H1].
  split; [apply H0; reflexivity|].
  destruct H1 as (q & Hq & Hair & Hland & _).
  - split; [discriminate|]. split; [reflexivity|]. split; [computed|].
    split; [repeat split; computed|].
    split; [reflexivity|]. split; [reflexivity|]. computed.
  - exists q. split; [exact Hq|].
    destruct Hair as (A & B & _); [lia|]. split; [exact A|]. split; [exact B|exact Hland].
Defined.

